(** * Metamodel evolution: the interpreter, the ledger, the resolver and the
      batch applier of [MetamodelEvolutionManager.js], over the schema store
      of [MetamodelLoader.js].

    The development is a shallow embedding.  JavaScript objects used as
    records with optional fields (the [details] of a change, a metamodel
    operation, a resolution) are finite maps from property names to values;
    the Ecore object graph owned by the loader is a small heap of class
    objects addressed by identity; the three arrays of the manager share
    their operation objects, so the ledger holds the objects and the other
    two arrays hold references into it. *)

From Stdlib Require Import ZArith.
From stdpp Require Import gmap strings list pretty.

Open Scope string_scope.
Set Warnings "-register-all".

(** ** JavaScript values *)

(** The values a change descriptor carries.  Numbers are the integers of
    magnitude below 10^21 (no fractions, no NaN, and none of the numbers
    that JavaScript prints with an exponent); an array is given by its
    contents. *)
Inductive value :=
  | VUndefined
  | VNull
  | VBool (b : bool)
  | VNum (n : Z)
  | VStr (s : string)
  | VArr (l : list value).

#[global] Instance value_inhabited : Inhabited value := populate VUndefined.

(** A JavaScript object read as a record: [o !!! "k"] is [o.k], which is
    [undefined] for a property the object does not have. *)
Abbreviation object := (gmap string value).

(** ToBoolean. *)
Definition truthy (v : value) : bool :=
  match v with
  | VUndefined | VNull => false
  | VBool b => b
  | VNum n => negb (n =? 0)%Z
  | VStr s => negb (String.eqb s "")
  | VArr _ => true
  end.

(** [a || d]. *)
Definition or_else (a d : value) : value := if truthy a then a else d.

(** [v !== undefined]. *)
Definition defined (v : value) : bool :=
  match v with VUndefined => false | _ => true end.

(** [a === b].  Two arrays are equal only when they are one object; the
    values carry no array identity and two arrays are taken as distinct
    (so an array is never found again as a name, where in JavaScript the
    same array object would be). *)
Definition strict_eq (a b : value) : bool :=
  match a, b with
  | VUndefined, VUndefined => true
  | VNull, VNull => true
  | VBool x, VBool y => Bool.eqb x y
  | VNum x, VNum y => (x =? y)%Z
  | VStr x, VStr y => String.eqb x y
  | _, _ => false
  end.

(** [String(v)], the conversion a template literal applies.  A number is
    printed with all its digits, as JavaScript prints the integers below
    10^21.  An array is joined with commas, its [null] and [undefined]
    elements left empty. *)
Fixpoint to_String (v : value) : string :=
  match v with
  | VUndefined => "undefined"
  | VNull => "null"
  | VBool true => "true"
  | VBool false => "false"
  | VNum n => pretty n
  | VStr s => s
  | VArr l =>
      String.concat ","
        (List.map (fun x => match x with
                            | VUndefined | VNull => ""
                            | _ => to_String x
                            end) l)
  end.

(** [l.join(sep)]. *)
Definition join (sep : string) (l : list value) : string :=
  String.concat sep
    (List.map (fun x => match x with
                        | VUndefined | VNull => ""
                        | _ => to_String x
                        end) l).

(** [typeof v === "string"]. *)
Definition is_string (v : value) : bool :=
  match v with VStr _ => true | _ => false end.

(** [s.toLowerCase()], on the letters A to Z. *)
Definition lower (c : Ascii.ascii) : Ascii.ascii :=
  let n := Ascii.nat_of_ascii c in
  if (65 <=? n)%nat && (n <=? 90)%nat then Ascii.ascii_of_nat (n + 32) else c.

Fixpoint toLowerCase (s : string) : string :=
  match s with
  | EmptyString => EmptyString
  | String c s' => String (lower c) (toLowerCase s')
  end.

(** The loop
    [let found = null;
     list.each(x => { if (test(x)) { found = x; return false; } });
     return found;]
    over an Ecore list.  [EList.each] hands its callback to the [each] of
    Underscore, which does not look at what the callback returns: the
    [return false] stops nothing, the loop runs to the end of the list and
    the last element that passes the test is the one kept. *)
Definition keep_last {A} (test : A → bool) (l : list A) : option A :=
  fold_left (λ found x, if test x then Some x else found) l None.

(** The same loop where the element kept is known by its position. *)
Definition last_index {A} (test : A → bool) (l : list A) : option nat :=
  fst <$> keep_last (λ entry : nat * A, test entry.2) (imap pair l).

(** ** The Ecore object graph *)

Module EAttribute.
(** The type of an attribute is a data type object of the Ecore library or
    an enumeration of the package; only its name is ever read. *)
Record t := mk {
  name : value;
  eType : string;
  lowerBound : value;
  upperBound : value
}.
End EAttribute.

Module EReference.
(** The type of a reference is a class object, held by identity. *)
Record t := mk {
  name : value;
  eType : nat;
  containment : value;
  lowerBound : value;
  upperBound : value
}.
End EReference.

Inductive EStructuralFeature :=
  | Attribute (a : EAttribute.t)
  | Reference (r : EReference.t).

(** What an Ecore object holds for a property given to [create], as [get]
    reads it: a property given as [undefined] is not set, and reads as
    [null]. *)
Definition as_created (v : value) : value :=
  match v with
  | VUndefined => VNull
  | _ => v
  end.

(** What a reference holds for [containment] after [create] or [set]: a
    string is turned into the boolean [s.toLowerCase() === "true"], any
    other value is stored as it is. *)
Definition as_containment (v : value) : value :=
  match v with
  | VStr s => VBool (String.eqb (toLowerCase s) "true")
  | _ => v
  end.

Module EClass.
Record t := mk {
  name : value;
  abstract : value;
  interface : value;
  eSuperTypes : list nat;
  eStructuralFeatures : list EStructuralFeature
}.
End EClass.

(** What [eClassifiers] of the root package holds: classes, by identity, and
    classifiers that are not classes (enumerations, data types). *)
Inductive EClassifier :=
  | AClass (id : nat)
  | NotAClass (name : value).

(** The state of a [MetamodelLoader] that the evolution manager reaches:
    the class objects (the identity of a class is its position in [heap];
    a class removed from the package stays on the heap, where a reference may
    still hold it) and the classifier list of the root package.
    [rootPackage] is [None] when nothing is loaded or when the first content
    of the resource is not a package. *)
Record MetamodelLoader := mkLoader {
  heap : list EClass.t;
  rootPackage : option (list EClassifier)
}.

(** [cls.get("name")] for a class handle. *)
Definition className_of (s : MetamodelLoader) (id : nat) : value :=
  match heap s !! id with
  | Some c => EClass.name c
  | None => VUndefined
  end.

Definition features_of (s : MetamodelLoader) (id : nat) : list EStructuralFeature :=
  match heap s !! id with
  | Some c => EClass.eStructuralFeatures c
  | None => []
  end.

(** ** MetamodelLoader.js: queries *)

Definition getAllClasses (s : MetamodelLoader) : list nat :=
  match rootPackage s with
  | None => []
  | Some eClassifiers =>
      omap (fun classifier => match classifier with
                              | AClass id => Some id
                              | NotAClass _ => None
                              end) eClassifiers
  end.

(** The objects [getClassAttributes] returns. *)
Record AttributeInfo := mkAttributeInfo {
  attr_name : value;
  attr_type : value;
  attr_lowerBound : value;
  attr_upperBound : value
}.

(** The objects [getClassReferences] returns. *)
Record ReferenceInfo := mkReferenceInfo {
  ref_name : value;
  ref_type : value;
  ref_containment : value;
  ref_lowerBound : value;
  ref_upperBound : value
}.

(** [getClassAttributes(eClass)] for a class handle, as the manager calls
    it (given a string, the source first looks the class up by name). *)
Definition getClassAttributes (s : MetamodelLoader) (eClass : nat) : list AttributeInfo :=
  omap (fun feature =>
          match feature with
          | Attribute a =>
              Some {| attr_name := EAttribute.name a;
                      attr_type := VStr (EAttribute.eType a);
                      attr_lowerBound := EAttribute.lowerBound a;
                      attr_upperBound := EAttribute.upperBound a |}
          | Reference _ => None
          end) (features_of s eClass).

Definition getClassReferences (s : MetamodelLoader) (eClass : nat) : list ReferenceInfo :=
  omap (fun feature =>
          match feature with
          | Reference r =>
              Some {| ref_name := EReference.name r;
                      ref_type := className_of s (EReference.eType r);
                      ref_containment := EReference.containment r;
                      ref_lowerBound := EReference.lowerBound r;
                      ref_upperBound := EReference.upperBound r |}
          | Attribute _ => None
          end) (features_of s eClass).

(** [findClassByName(className)]: the last class of the package with that
    name (the callback asks [each] to stop at the first match, and [each]
    goes on). *)
Definition findClassByName (s : MetamodelLoader) (className : value) : option nat :=
  keep_last (fun id => strict_eq (className_of s id) className)
            (getAllClasses s).

(** ** Calls that change the schema *)

(** How a call on the loader ends: it returns, or it throws an [Error] with
    a message; either way the loader is left in the state the call reached.
    [IllTyped] marks the calls that give a feature of the schema a value of
    the descriptor for its type (a number as the data type of an attribute,
    or as the target of a reference): a feature whose type is no classifier
    is not part of this development. *)
Inductive outcome (A : Type) :=
  | Returns (a : A) (s : MetamodelLoader)
  | Throws (message : string) (s : MetamodelLoader)
  | IllTyped.
Arguments Returns {A} a s.
Arguments Throws {A} message s.
Arguments IllTyped {A}.

Definition M (A : Type) : Type := MetamodelLoader → outcome A.

#[global] Instance M_ret : MRet M := λ A a s, Returns a s.
#[global] Instance M_bind : MBind M := λ A B k m s,
  match m s with
  | Returns a s' => k a s'
  | Throws message s' => Throws message s'
  | IllTyped => IllTyped
  end.

Definition throw {A} (message : string) : M A := λ s, Throws message s.
Definition ill_typed {A} : M A := λ _, IllTyped.
Definition read {A} (f : MetamodelLoader → A) : M A := λ s, Returns (f s) s.
Definition update (f : MetamodelLoader → MetamodelLoader) : M unit :=
  λ s, Returns () (f s).

(** [forEach] over an array, in order. *)
Fixpoint forEach {A} (l : list A) (body : A → M unit) : M unit :=
  match l with
  | [] => mret ()
  | x :: l' => body x ;; forEach l' body
  end.

(** Something a variable of the loader holds where a class is expected: a
    class object, or a value of the descriptor that is no object at all. *)
Inductive classHandle :=
  | Handle (id : nat)
  | NotAnObject (v : value).

(** The message of the [TypeError] V8 raises for [v.get(...)] when [v] is
    not an object; [what] is the text of the expression [v]. *)
Definition TypeError_get (what : string) (v : value) : string :=
  match v with
  | VUndefined => "Cannot read properties of undefined (reading 'get')"
  | VNull => "Cannot read properties of null (reading 'get')"
  | _ => what ++ ".get is not a function"
  end.

(** [x.set(...)] on one class object. *)
Definition set_class (id : nat) (f : EClass.t → EClass.t) : M unit :=
  update (λ s, mkLoader (alter f id (heap s)) (rootPackage s)).

Definition add_feature (feature : EStructuralFeature) (c : EClass.t) : EClass.t :=
  EClass.mk (EClass.name c) (EClass.abstract c) (EClass.interface c)
            (EClass.eSuperTypes c)
            (EClass.eStructuralFeatures c ++ [feature])%list.

Definition set_features (f : list EStructuralFeature → list EStructuralFeature)
    (c : EClass.t) : EClass.t :=
  EClass.mk (EClass.name c) (EClass.abstract c) (EClass.interface c)
            (EClass.eSuperTypes c) (f (EClass.eStructuralFeatures c)).

(** A parameter that is [undefined] takes its default. *)
Definition default_param (v d : value) : value := if defined v then v else d.

(** [createClass(className)].  The manager passes three more arguments,
    which the function does not take. *)
Definition createClass (className : value) : M nat := λ s,
  match rootPackage s with
  | None => Throws "No valid package loaded" s
  | Some eClassifiers =>
      match findClassByName s className with
      | Some _ => Throws ("Class " ++ to_String className ++ " already exists") s
      | None =>
          let newClass :=
            EClass.mk (as_created className) (VBool false) (VBool false) [] [] in
          let id := length (heap s) in
          Returns id (mkLoader (heap s ++ [newClass])%list
                               (Some (eClassifiers ++ [AClass id])%list))
      end
  end.

Section Ecore.

(** The Ecore library: [Ecore t] is the name of the classifier object the
    library exports as its property [t] ([Ecore["EString"]] is the data type
    named [EString]), and [None] where [Ecore[t]] is undefined. *)
Variable Ecore : string → option string.

(** [addAttribute(eClass, attributeName, attributeType, lowerBound = 0,
    upperBound = 1)], with the values the manager passes: class and type
    arrive as descriptor values, which the function looks up when they are
    strings and takes for Ecore objects otherwise.  A class that is no
    object makes [targetClass.get] throw, before anything is changed.  A
    type that is no string is given to the new attribute as it is, and the
    attribute is added: a call that is [ill_typed] here. *)
Definition addAttribute (eClass attributeName attributeType lowerBound upperBound : value)
    : M unit :=
  let lowerBound := default_param lowerBound (VNum 0) in
  let upperBound := default_param upperBound (VNum 1) in
  targetClass ←
    (if is_string eClass then
       found ← read (λ s, findClassByName s eClass);
       match found with
       | Some id => mret (Handle id)
       | None => throw ("Class with name " ++ to_String eClass ++ " not found")
       end
     else mret (NotAnObject eClass));
  targetType ←
    match attributeType with
    | VStr t =>
        match Ecore t with
        | Some dataType => mret (Some dataType)
        | None => throw ("DataType " ++ t ++ " not found")
        end
    | _ => mret None
    end;
  match targetClass, targetType with
  | NotAnObject v, _ => throw (TypeError_get "targetClass" v)
  | Handle id, Some dataType =>
      let attribute :=
        EAttribute.mk (as_created attributeName) dataType lowerBound upperBound in
      set_class id (add_feature (Attribute attribute))
  | Handle _, None => ill_typed
  end.

(** [addReference(sourceClass, targetClass, referenceName,
    containment = false, lowerBound = 0, upperBound = 1)].  A source that is
    no object makes [source.get] throw, before anything is changed.  A
    target that is no string is taken for a class object: the function
    creates the reference with that value for type, adds it to the source
    class, and throws a [TypeError] when the line that logs the addition
    reads [target.get("name")].  A reference whose type is no class is
    outside what [EReference.t] holds, so that this call, which fails after
    it has changed the schema, is [ill_typed] here. *)
Definition addReference
    (sourceClass targetClass referenceName containment lowerBound upperBound : value)
    : M unit :=
  let containment := default_param containment (VBool false) in
  let lowerBound := default_param lowerBound (VNum 0) in
  let upperBound := default_param upperBound (VNum 1) in
  source ←
    (if is_string sourceClass then
       found ← read (λ s, findClassByName s sourceClass);
       match found with
       | Some id => mret (Handle id)
       | None =>
           throw ("Source class with name " ++ to_String sourceClass ++ " not found")
       end
     else mret (NotAnObject sourceClass));
  target ←
    (if is_string targetClass then
       found ← read (λ s, findClassByName s targetClass);
       match found with
       | Some id => mret (Some id)
       | None =>
           throw ("Target class with name " ++ to_String targetClass ++ " not found")
       end
     else mret None);
  match source, target with
  | NotAnObject v, _ => throw (TypeError_get "source" v)
  | Handle id, Some target =>
      let reference :=
        EReference.mk (as_created referenceName) target (as_containment containment)
                      lowerBound upperBound in
      set_class id (add_feature (Reference reference))
  | Handle _, None => ill_typed
  end.

End Ecore.

(** ** MetamodelEvolutionManager.js: the records *)

Module ModelChange.
Record t := mk {
  type : value;
  element : value;
  details : object
}.
End ModelChange.

Module Operation.
(** An evolution operation.  [metamodelOperation] is [None] for [null];
    [error] is absent until the operation fails to apply. *)
Record t := mk {
  type : value;
  element : value;
  details : object;
  status : string;
  ambiguous : bool;
  ambiguityReason : value;
  metamodelOperation : option object;
  error : option string
}.
End Operation.

(** The manager.  [evolutionOperations] holds the operation objects; every
    operation is pushed there once, so its position is its identity, and
    [ambiguities] and [pendingChanges] hold such positions. *)
Record Manager := mkManager {
  loader : MetamodelLoader;
  evolutionOperations : list Operation.t;
  ambiguities : list nat;
  pendingChanges : list nat
}.

(** The manager a constructor call leaves, given what has been loaded. *)
Definition newManager (s : MetamodelLoader) : Manager := mkManager s [] [] [].

(** ** The intent builders *)

(** [operation.ambiguous = true; operation.ambiguityReason = reason]. *)
Definition flag (reason : string) (operation : object) : object :=
  <["ambiguityReason" := VStr reason]> (<["ambiguous" := VBool true]> operation).

Definition some_attribute (name : value) (l : list AttributeInfo) : bool :=
  existsb (λ attr, strict_eq (attr_name attr) name) l.

Definition some_reference (name : value) (l : list ReferenceInfo) : bool :=
  existsb (λ ref, strict_eq (ref_name ref) name) l.

Definition _createAddClassOperation (s : MetamodelLoader) (details : object) : object :=
  let operation : object := list_to_map [
    ("action", VStr "addClass");
    ("className", details !!! "name");
    ("superTypes", or_else (details !!! "superTypes") (VArr []));
    ("abstract", or_else (details !!! "abstract") (VBool false));
    ("interface", or_else (details !!! "interface") (VBool false));
    ("ambiguous", VBool false);
    ("ambiguityReason", VNull) ] in
  if negb (truthy (details !!! "name")) then
    flag "Class name is required" operation
  else if findClassByName s (details !!! "name") is Some _ then
    flag ("Class " ++ to_String (details !!! "name") ++ " already exists") operation
  else operation.

Definition _createAddAttributeOperation (s : MetamodelLoader) (details : object) : object :=
  let operation : object := list_to_map [
    ("action", VStr "addAttribute");
    ("className", details !!! "className");
    ("attributeName", details !!! "name");
    ("attributeType", or_else (details !!! "type") (VStr "EString"));
    ("lowerBound", or_else (details !!! "lowerBound") (VNum 0));
    ("upperBound", or_else (details !!! "upperBound") (VNum 1));
    ("ambiguous", VBool false);
    ("ambiguityReason", VNull) ] in
  if negb (truthy (details !!! "className")) then
    flag "Class name is required" operation
  else if negb (truthy (details !!! "name")) then
    flag "Attribute name is required" operation
  else
    match findClassByName s (details !!! "className") with
    | None =>
        flag ("Class " ++ to_String (details !!! "className") ++ " does not exist")
             operation
    | Some targetClass =>
        let existingAttributes := getClassAttributes s targetClass in
        let attributeExists := some_attribute (details !!! "name") existingAttributes in
        if attributeExists then
          flag ("Attribute " ++ to_String (details !!! "name")
                ++ " already exists in class " ++ to_String (details !!! "className"))
               operation
        else operation
    end.

Definition _createAddReferenceOperation (s : MetamodelLoader) (details : object) : object :=
  let operation : object := list_to_map [
    ("action", VStr "addReference");
    ("sourceClassName", details !!! "sourceClassName");
    ("targetClassName", details !!! "targetClassName");
    ("referenceName", details !!! "name");
    ("containment", or_else (details !!! "containment") (VBool false));
    ("lowerBound", or_else (details !!! "lowerBound") (VNum 0));
    ("upperBound", or_else (details !!! "upperBound") (VNum 1));
    ("ambiguous", VBool false);
    ("ambiguityReason", VNull) ] in
  if negb (truthy (details !!! "sourceClassName")) then
    flag "Source class name is required" operation
  else if negb (truthy (details !!! "targetClassName")) then
    flag "Target class name is required" operation
  else if negb (truthy (details !!! "name")) then
    flag "Reference name is required" operation
  else
    let sourceClass := findClassByName s (details !!! "sourceClassName") in
    let targetClass := findClassByName s (details !!! "targetClassName") in
    match sourceClass, targetClass with
    | None, _ =>
        flag ("Source class " ++ to_String (details !!! "sourceClassName")
              ++ " does not exist") operation
    | Some _, None =>
        flag ("Target class " ++ to_String (details !!! "targetClassName")
              ++ " does not exist") operation
    | Some sourceClass, Some _ =>
        let existingReferences := getClassReferences s sourceClass in
        let referenceExists := some_reference (details !!! "name") existingReferences in
        if referenceExists then
          flag ("Reference " ++ to_String (details !!! "name")
                ++ " already exists in class "
                ++ to_String (details !!! "sourceClassName")) operation
        else operation
    end.

(** [_findClassesReferencingClass(className)]: one entry per reference
    whose type has that name, in the order of the classes and, within a
    class, of its references. *)
Definition _findClassesReferencingClass (s : MetamodelLoader) (className : value)
    : list value :=
  flat_map (λ cls,
      flat_map (λ ref,
          if strict_eq (ref_type ref) className then [className_of s cls] else [])
        (getClassReferences s cls))
    (getAllClasses s).

Definition _createRemoveClassOperation (s : MetamodelLoader) (details : object) : object :=
  let operation : object := list_to_map [
    ("action", VStr "removeClass");
    ("className", details !!! "name");
    ("ambiguous", VBool false);
    ("ambiguityReason", VNull) ] in
  if negb (truthy (details !!! "name")) then
    flag "Class name is required" operation
  else
    match findClassByName s (details !!! "name") with
    | None =>
        flag ("Class " ++ to_String (details !!! "name") ++ " does not exist") operation
    | Some targetClass =>
        let referencingClasses := _findClassesReferencingClass s (details !!! "name") in
        if (0 <? length referencingClasses)%nat then
          flag ("Class " ++ to_String (details !!! "name") ++ " is referenced by: "
                ++ join ", " referencingClasses) operation
        else operation
    end.

Definition _createRemoveAttributeOperation (s : MetamodelLoader) (details : object) : object :=
  let operation : object := list_to_map [
    ("action", VStr "removeAttribute");
    ("className", details !!! "className");
    ("attributeName", details !!! "name");
    ("ambiguous", VBool false);
    ("ambiguityReason", VNull) ] in
  if negb (truthy (details !!! "className")) then
    flag "Class name is required" operation
  else if negb (truthy (details !!! "name")) then
    flag "Attribute name is required" operation
  else
    match findClassByName s (details !!! "className") with
    | None =>
        flag ("Class " ++ to_String (details !!! "className") ++ " does not exist")
             operation
    | Some targetClass =>
        let existingAttributes := getClassAttributes s targetClass in
        let attributeExists := some_attribute (details !!! "name") existingAttributes in
        if negb attributeExists then
          flag ("Attribute " ++ to_String (details !!! "name")
                ++ " does not exist in class " ++ to_String (details !!! "className"))
               operation
        else operation
    end.

Definition _createRemoveReferenceOperation (s : MetamodelLoader) (details : object) : object :=
  let operation : object := list_to_map [
    ("action", VStr "removeReference");
    ("className", details !!! "className");
    ("referenceName", details !!! "name");
    ("ambiguous", VBool false);
    ("ambiguityReason", VNull) ] in
  if negb (truthy (details !!! "className")) then
    flag "Class name is required" operation
  else if negb (truthy (details !!! "name")) then
    flag "Reference name is required" operation
  else
    match findClassByName s (details !!! "className") with
    | None =>
        flag ("Class " ++ to_String (details !!! "className") ++ " does not exist")
             operation
    | Some targetClass =>
        let existingReferences := getClassReferences s targetClass in
        let referenceExists := some_reference (details !!! "name") existingReferences in
        if negb referenceExists then
          flag ("Reference " ++ to_String (details !!! "name")
                ++ " does not exist in class " ++ to_String (details !!! "className"))
               operation
        else operation
    end.

Definition _createModifyClassOperation (s : MetamodelLoader) (details : object) : object :=
  let operation : object := list_to_map [
    ("action", VStr "modifyClass");
    ("className", details !!! "name");
    ("newName", details !!! "newName");
    ("newSuperTypes", details !!! "newSuperTypes");
    ("newAbstract", details !!! "newAbstract");
    ("newInterface", details !!! "newInterface");
    ("ambiguous", VBool false);
    ("ambiguityReason", VNull) ] in
  if negb (truthy (details !!! "name")) then
    flag "Class name is required" operation
  else
    match findClassByName s (details !!! "name") with
    | None =>
        flag ("Class " ++ to_String (details !!! "name") ++ " does not exist") operation
    | Some targetClass =>
        if truthy (details !!! "newName")
           && bool_decide (is_Some (findClassByName s (details !!! "newName"))) then
          flag ("Class " ++ to_String (details !!! "newName") ++ " already exists")
               operation
        else operation
    end.

Definition _createModifyAttributeOperation (s : MetamodelLoader) (details : object) : object :=
  let operation : object := list_to_map [
    ("action", VStr "modifyAttribute");
    ("className", details !!! "className");
    ("attributeName", details !!! "name");
    ("newName", details !!! "newName");
    ("newType", details !!! "newType");
    ("newLowerBound", details !!! "newLowerBound");
    ("newUpperBound", details !!! "newUpperBound");
    ("ambiguous", VBool false);
    ("ambiguityReason", VNull) ] in
  if negb (truthy (details !!! "className")) then
    flag "Class name is required" operation
  else if negb (truthy (details !!! "name")) then
    flag "Attribute name is required" operation
  else
    match findClassByName s (details !!! "className") with
    | None =>
        flag ("Class " ++ to_String (details !!! "className") ++ " does not exist")
             operation
    | Some targetClass =>
        let existingAttributes := getClassAttributes s targetClass in
        let attributeExists := some_attribute (details !!! "name") existingAttributes in
        if negb attributeExists then
          flag ("Attribute " ++ to_String (details !!! "name")
                ++ " does not exist in class " ++ to_String (details !!! "className"))
               operation
        else if truthy (details !!! "newName") then
          let newNameExists := some_attribute (details !!! "newName") existingAttributes in
          if newNameExists then
            flag ("Attribute " ++ to_String (details !!! "newName")
                  ++ " already exists in class " ++ to_String (details !!! "className"))
                 operation
          else operation
        else operation
    end.

(** In [_createModifyReferenceOperation] the check of the new target class
    is a statement of its own after the chain on the reference: it runs
    whenever the class exists, and what it assigns replaces what the chain
    assigned. *)
Definition _createModifyReferenceOperation (s : MetamodelLoader) (details : object) : object :=
  let operation : object := list_to_map [
    ("action", VStr "modifyReference");
    ("className", details !!! "className");
    ("referenceName", details !!! "name");
    ("newName", details !!! "newName");
    ("newTargetClassName", details !!! "newTargetClassName");
    ("newContainment", details !!! "newContainment");
    ("newLowerBound", details !!! "newLowerBound");
    ("newUpperBound", details !!! "newUpperBound");
    ("ambiguous", VBool false);
    ("ambiguityReason", VNull) ] in
  if negb (truthy (details !!! "className")) then
    flag "Class name is required" operation
  else if negb (truthy (details !!! "name")) then
    flag "Reference name is required" operation
  else
    match findClassByName s (details !!! "className") with
    | None =>
        flag ("Class " ++ to_String (details !!! "className") ++ " does not exist")
             operation
    | Some targetClass =>
        let existingReferences := getClassReferences s targetClass in
        let referenceExists := some_reference (details !!! "name") existingReferences in
        let operation :=
          if negb referenceExists then
            flag ("Reference " ++ to_String (details !!! "name")
                  ++ " does not exist in class " ++ to_String (details !!! "className"))
                 operation
          else if truthy (details !!! "newName") then
            let newNameExists := some_reference (details !!! "newName") existingReferences in
            if newNameExists then
              flag ("Reference " ++ to_String (details !!! "newName")
                    ++ " already exists in class "
                    ++ to_String (details !!! "className")) operation
            else operation
          else operation in
        if truthy (details !!! "newTargetClassName") then
          match findClassByName s (details !!! "newTargetClassName") with
          | None =>
              flag ("Target class " ++ to_String (details !!! "newTargetClassName")
                    ++ " does not exist") operation
          | Some _ => operation
          end
        else operation
    end.

(** ** The interpreter *)

(** The nine cases of the [switch] on [`${type}_${element}`]. *)
Definition builders : list (string * (MetamodelLoader → object → object)) := [
  ("add_class", _createAddClassOperation);
  ("add_attribute", _createAddAttributeOperation);
  ("add_reference", _createAddReferenceOperation);
  ("remove_class", _createRemoveClassOperation);
  ("remove_attribute", _createRemoveAttributeOperation);
  ("remove_reference", _createRemoveReferenceOperation);
  ("modify_class", _createModifyClassOperation);
  ("modify_attribute", _createModifyAttributeOperation);
  ("modify_reference", _createModifyReferenceOperation) ].

(** [switch (key) { case k: ...; break; ... }]: the first case whose label
    is the key. *)
Fixpoint switch {A} (key : string) (cases : list (string * A)) : option A :=
  match cases with
  | [] => None
  | (label, body) :: rest =>
      if String.eqb key label then Some body else switch key rest
  end.

(** The key of the [switch]: [`${modelChange.type}_${modelChange.element}`]. *)
Definition kind_of (modelChange : ModelChange.t) : string :=
  to_String (ModelChange.type modelChange) ++ "_"
  ++ to_String (ModelChange.element modelChange).

(** [interpretModelChange(modelChange)].  It returns the new operation,
    here the reference to it, which is its position in the ledger. *)
Definition interpretModelChange (modelChange : ModelChange.t) (m : Manager)
    : nat * Manager :=
  let operation :=
    match switch (kind_of modelChange) builders with
    | Some build =>
        Operation.mk (ModelChange.type modelChange) (ModelChange.element modelChange)
          (ModelChange.details modelChange) "pending" false VNull
          (Some (build (loader m) (ModelChange.details modelChange))) None
    | None =>
        Operation.mk (ModelChange.type modelChange) (ModelChange.element modelChange)
          (ModelChange.details modelChange) "error" true
          (VStr "Unknown change type or element") None None
    end in
  let ref := length (evolutionOperations m) in
  match Operation.metamodelOperation operation with
  | Some metamodelOperation =>
      if truthy (metamodelOperation !!! "ambiguous") then
        let operation :=
          Operation.mk (Operation.type operation) (Operation.element operation)
            (Operation.details operation) (Operation.status operation) true
            (metamodelOperation !!! "ambiguityReason")
            (Operation.metamodelOperation operation) (Operation.error operation) in
        (ref, mkManager (loader m) (evolutionOperations m ++ [operation])%list
                (ambiguities m ++ [ref])%list (pendingChanges m))
      else
        (ref, mkManager (loader m) (evolutionOperations m ++ [operation])%list
                (ambiguities m) (pendingChanges m ++ [ref])%list)
  | None =>
      (ref, mkManager (loader m) (evolutionOperations m ++ [operation])%list
              (ambiguities m) (pendingChanges m ++ [ref])%list)
  end.

(** ** The resolver *)

(** [Object.assign(target, source)]: every property of the source is
    written to the target. *)
Definition Object_assign (target source : object) : object := source ∪ target.

(** The position of the first element that passes a test
    ([l.findIndex(test)] on an array). *)
Fixpoint findIndex {A} (test : A → bool) (l : list A) : option nat :=
  match l with
  | [] => None
  | x :: l' => if test x then Some 0%nat else S <$> findIndex test l'
  end.

(** [resolveAmbiguity(operationIndex, resolution)]: the message of the error
    it throws, or the operation it returns and the manager it leaves. *)
Definition resolveAmbiguity (operationIndex : nat) (resolution : object) (m : Manager)
    : string + nat * Manager :=
  match evolutionOperations m !! operationIndex with
  | None => inl ("Operation at index " ++ pretty operationIndex ++ " not found")
  | Some operation =>
      if negb (Operation.ambiguous operation) then inr (operationIndex, m)
      else
        let operation :=
          Operation.mk (Operation.type operation) (Operation.element operation)
            (Operation.details operation) "pending" false VNull
            ((λ metamodelOperation, Object_assign metamodelOperation resolution)
               <$> Operation.metamodelOperation operation)
            (Operation.error operation) in
        let operations := <[operationIndex := operation]> (evolutionOperations m) in
        match findIndex (λ op, (op =? operationIndex)%nat) (ambiguities m) with
        | Some ambiguityIndex =>
            inr (operationIndex,
                 mkManager (loader m) operations
                   (delete ambiguityIndex (ambiguities m))
                   (if bool_decide (operationIndex ∈ pendingChanges m)
                    then pendingChanges m
                    else (pendingChanges m ++ [operationIndex])%list))
        | None =>
            inr (operationIndex,
                 mkManager (loader m) operations (ambiguities m) (pendingChanges m))
        end
  end.

(** ** The batch applier *)

(** [eClassifiers.remove(targetClass)]. *)
Fixpoint remove_class (id : nat) (l : list EClassifier) : list EClassifier :=
  match l with
  | [] => []
  | AClass i :: l' => if (i =? id)%nat then l' else AClass i :: remove_class id l'
  | c :: l' => c :: remove_class id l'
  end.

Definition is_attribute_named (name : value) (feature : EStructuralFeature) : bool :=
  match feature with
  | Attribute a => strict_eq (EAttribute.name a) name
  | Reference _ => false
  end.

Definition is_reference_named (name : value) (feature : EStructuralFeature) : bool :=
  match feature with
  | Reference r => strict_eq (EReference.name r) name
  | Attribute _ => false
  end.

(** [feature.set(...)] on an attribute, on a reference; a feature of the
    other kind is never handed to them. *)
Definition on_attribute (f : EAttribute.t → EAttribute.t) (feature : EStructuralFeature)
    : EStructuralFeature :=
  match feature with
  | Attribute a => Attribute (f a)
  | Reference r => Reference r
  end.

Definition on_reference (f : EReference.t → EReference.t) (feature : EStructuralFeature)
    : EStructuralFeature :=
  match feature with
  | Reference r => Reference (f r)
  | Attribute a => Attribute a
  end.

(** [const targetClass = this.loader.findClassByName(operation.className);
    if (!targetClass) throw ...]. *)
Definition find_or_throw (className : value) (message : string) : M nat :=
  found ← read (λ s, findClassByName s className);
  match found with
  | Some targetClass => mret targetClass
  | None => throw message
  end.

(** The loop over [eStructuralFeatures] that looks for a feature passing the
    test, which keeps the last one as the loop of [findClassByName] does,
    and the [throw] when there is none. *)
Definition find_feature_or_throw (targetClass : nat) (test : EStructuralFeature → bool)
    (message : string) : M nat :=
  found ← read (λ s, last_index test (features_of s targetClass));
  match found with
  | Some feature => mret feature
  | None => throw message
  end.

Definition when (b : bool) (body : M unit) : M unit := if b then body else mret ().

(** The object [applyPendingChanges] returns. *)
Record ApplyResult := mkApplyResult {
  success : bool;
  appliedChanges : list nat;
  failedChanges : list nat;
  errors : list string
}.

Definition set_status (status : string) (error : option string) (operation : Operation.t)
    : Operation.t :=
  Operation.mk (Operation.type operation) (Operation.element operation)
    (Operation.details operation) status (Operation.ambiguous operation)
    (Operation.ambiguityReason operation) (Operation.metamodelOperation operation)
    error.

Section Apply.

Variable Ecore : string → option string.

Definition _applyAddClass (operation : object) : M unit :=
  createClass (operation !!! "className") ;; mret ().

Definition _applyAddAttribute (operation : object) : M unit :=
  addAttribute Ecore (operation !!! "className") (operation !!! "attributeName")
    (operation !!! "attributeType") (operation !!! "lowerBound")
    (operation !!! "upperBound").

Definition _applyAddReference (operation : object) : M unit :=
  addReference (operation !!! "sourceClassName") (operation !!! "targetClassName")
    (operation !!! "referenceName") (operation !!! "containment")
    (operation !!! "lowerBound") (operation !!! "upperBound").

Definition _applyRemoveClass (operation : object) : M unit :=
  targetClass ← find_or_throw (operation !!! "className")
    ("Class " ++ to_String (operation !!! "className") ++ " not found");
  update (λ s, mkLoader (heap s) (remove_class targetClass <$> rootPackage s)).

Definition _applyRemoveAttribute (operation : object) : M unit :=
  targetClass ← find_or_throw (operation !!! "className")
    ("Class " ++ to_String (operation !!! "className") ++ " not found");
  attributeToRemove ← find_feature_or_throw targetClass
    (is_attribute_named (operation !!! "attributeName"))
    ("Attribute " ++ to_String (operation !!! "attributeName")
     ++ " not found in class " ++ to_String (operation !!! "className"));
  set_class targetClass (set_features (delete attributeToRemove)).

Definition _applyRemoveReference (operation : object) : M unit :=
  targetClass ← find_or_throw (operation !!! "className")
    ("Class " ++ to_String (operation !!! "className") ++ " not found");
  referenceToRemove ← find_feature_or_throw targetClass
    (is_reference_named (operation !!! "referenceName"))
    ("Reference " ++ to_String (operation !!! "referenceName")
     ++ " not found in class " ++ to_String (operation !!! "className"));
  set_class targetClass (set_features (delete referenceToRemove)).

Definition _applyModifyClass (operation : object) : M unit :=
  targetClass ← find_or_throw (operation !!! "className")
    ("Class " ++ to_String (operation !!! "className") ++ " not found");
  when (truthy (operation !!! "newName"))
    (set_class targetClass (λ c,
       EClass.mk (operation !!! "newName") (EClass.abstract c) (EClass.interface c)
                 (EClass.eSuperTypes c) (EClass.eStructuralFeatures c))) ;;
  when (defined (operation !!! "newAbstract"))
    (set_class targetClass (λ c,
       EClass.mk (EClass.name c) (operation !!! "newAbstract") (EClass.interface c)
                 (EClass.eSuperTypes c) (EClass.eStructuralFeatures c))) ;;
  when (defined (operation !!! "newInterface"))
    (set_class targetClass (λ c,
       EClass.mk (EClass.name c) (EClass.abstract c) (operation !!! "newInterface")
                 (EClass.eSuperTypes c) (EClass.eStructuralFeatures c))) ;;
  when (truthy (operation !!! "newSuperTypes"))
    (set_class targetClass (λ c,
       EClass.mk (EClass.name c) (EClass.abstract c) (EClass.interface c)
                 [] (EClass.eStructuralFeatures c)) ;;
     match operation !!! "newSuperTypes" with
     | VArr newSuperTypes =>
         forEach newSuperTypes (λ superTypeName,
           superType ← find_or_throw superTypeName
             ("Super type " ++ to_String superTypeName ++ " not found");
           set_class targetClass (λ c,
             EClass.mk (EClass.name c) (EClass.abstract c) (EClass.interface c)
                       (EClass.eSuperTypes c ++ [superType])%list
                       (EClass.eStructuralFeatures c)))
     | _ => throw "operation.newSuperTypes.forEach is not a function"
     end).

Definition _applyModifyAttribute (operation : object) : M unit :=
  targetClass ← find_or_throw (operation !!! "className")
    ("Class " ++ to_String (operation !!! "className") ++ " not found");
  attributeToModify ← find_feature_or_throw targetClass
    (is_attribute_named (operation !!! "attributeName"))
    ("Attribute " ++ to_String (operation !!! "attributeName")
     ++ " not found in class " ++ to_String (operation !!! "className"));
  let set (f : EAttribute.t → EAttribute.t) : M unit :=
    set_class targetClass (set_features (alter (on_attribute f) attributeToModify)) in
  when (truthy (operation !!! "newName"))
    (set (λ a, EAttribute.mk (operation !!! "newName") (EAttribute.eType a)
                 (EAttribute.lowerBound a) (EAttribute.upperBound a))) ;;
  when (truthy (operation !!! "newType"))
    (match operation !!! "newType" with
     | VStr t =>
         match Ecore t with
         | Some newType =>
             set (λ a, EAttribute.mk (EAttribute.name a) newType
                         (EAttribute.lowerBound a) (EAttribute.upperBound a))
         | None => throw ("Type " ++ t ++ " not found")
         end
     | _ => ill_typed
     end) ;;
  when (defined (operation !!! "newLowerBound"))
    (set (λ a, EAttribute.mk (EAttribute.name a) (EAttribute.eType a)
                 (operation !!! "newLowerBound") (EAttribute.upperBound a))) ;;
  when (defined (operation !!! "newUpperBound"))
    (set (λ a, EAttribute.mk (EAttribute.name a) (EAttribute.eType a)
                 (EAttribute.lowerBound a) (operation !!! "newUpperBound"))).

Definition _applyModifyReference (operation : object) : M unit :=
  targetClass ← find_or_throw (operation !!! "className")
    ("Class " ++ to_String (operation !!! "className") ++ " not found");
  referenceToModify ← find_feature_or_throw targetClass
    (is_reference_named (operation !!! "referenceName"))
    ("Reference " ++ to_String (operation !!! "referenceName")
     ++ " not found in class " ++ to_String (operation !!! "className"));
  let set (f : EReference.t → EReference.t) : M unit :=
    set_class targetClass (set_features (alter (on_reference f) referenceToModify)) in
  when (truthy (operation !!! "newName"))
    (set (λ r, EReference.mk (operation !!! "newName") (EReference.eType r)
                 (EReference.containment r) (EReference.lowerBound r)
                 (EReference.upperBound r))) ;;
  when (truthy (operation !!! "newTargetClassName"))
    (newTargetClass ← find_or_throw (operation !!! "newTargetClassName")
       ("Target class " ++ to_String (operation !!! "newTargetClassName")
        ++ " not found");
     set (λ r, EReference.mk (EReference.name r) newTargetClass
                 (EReference.containment r) (EReference.lowerBound r)
                 (EReference.upperBound r))) ;;
  when (defined (operation !!! "newContainment"))
    (set (λ r, EReference.mk (EReference.name r) (EReference.eType r)
                 (as_containment (operation !!! "newContainment"))
                 (EReference.lowerBound r) (EReference.upperBound r))) ;;
  when (defined (operation !!! "newLowerBound"))
    (set (λ r, EReference.mk (EReference.name r) (EReference.eType r)
                 (EReference.containment r) (operation !!! "newLowerBound")
                 (EReference.upperBound r))) ;;
  when (defined (operation !!! "newUpperBound"))
    (set (λ r, EReference.mk (EReference.name r) (EReference.eType r)
                 (EReference.containment r) (EReference.lowerBound r)
                 (operation !!! "newUpperBound"))).

(** The nine cases of the [switch] on [metamodelOp.action]. *)
Definition appliers : list (string * (object → M unit)) := [
  ("addClass", _applyAddClass);
  ("addAttribute", _applyAddAttribute);
  ("addReference", _applyAddReference);
  ("removeClass", _applyRemoveClass);
  ("removeAttribute", _applyRemoveAttribute);
  ("removeReference", _applyRemoveReference);
  ("modifyClass", _applyModifyClass);
  ("modifyAttribute", _applyModifyAttribute);
  ("modifyReference", _applyModifyReference) ].

(** [_applyOperation(operation)].  Reading [action] of the [null] that an
    operation of unknown kind has for its metamodel operation raises the
    [TypeError] whose V8 message is given. *)
Definition _applyOperation (operation : Operation.t) : M unit :=
  match Operation.metamodelOperation operation with
  | None => throw "Cannot read properties of null (reading 'action')"
  | Some metamodelOp =>
      let case :=
        match metamodelOp !!! "action" with
        | VStr action => switch action appliers
        | _ => None
        end in
      match case with
      | Some apply => apply metamodelOp
      | None =>
          throw ("Unknown operation action: " ++ to_String (metamodelOp !!! "action"))
      end
  end.

(** The body of the loop of [applyPendingChanges], for one pending
    operation: [None] when the reference is not one of the ledger or when
    the call on the loader is [IllTyped]. *)
Definition apply_one (ref : nat) (state : ApplyResult * Manager)
    : option (ApplyResult * Manager) :=
  let '(result, m) := state in
  operation ← evolutionOperations m !! ref;
  match _applyOperation operation (loader m) with
  | Returns _ s =>
      Some (mkApplyResult (success result) (appliedChanges result ++ [ref])%list
              (failedChanges result) (errors result),
            mkManager s
              (<[ref := set_status "applied" (Operation.error operation) operation]>
                 (evolutionOperations m))
              (ambiguities m) (pendingChanges m))
  | Throws message s =>
      Some (mkApplyResult false (appliedChanges result)
              (failedChanges result ++ [ref])%list
              (errors result ++ [("Failed to apply operation: " ++ message)%string])%list,
            mkManager s
              (<[ref := set_status "failed" (Some message) operation]>
                 (evolutionOperations m))
              (ambiguities m) (pendingChanges m))
  | IllTyped => None
  end.

Fixpoint apply_each (pending : list nat) (state : ApplyResult * Manager)
    : option (ApplyResult * Manager) :=
  match pending with
  | [] => Some state
  | ref :: rest => state' ← apply_one ref state; apply_each rest state'
  end.

(** [applyPendingChanges()]. *)
Definition applyPendingChanges (m : Manager) : option (ApplyResult * Manager) :=
  let result := mkApplyResult true [] [] [] in
  if (0 <? length (ambiguities m))%nat then
    Some (mkApplyResult false [] [] [
            "There are " ++ pretty (length (ambiguities m))
            ++ " unresolved ambiguities. Please resolve them before applying changes." ],
          m)
  else
    '(result, m') ← apply_each (pendingChanges m) (result, m);
    Some (result, mkManager (loader m') (evolutionOperations m') (ambiguities m') []).

End Apply.

(** The loader after [eStructuralFeatures.add(feature)] on a class. *)
Definition with_feature (s : MetamodelLoader) (id : nat) (feature : EStructuralFeature)
    : MetamodelLoader :=
  mkLoader (alter (add_feature feature) id (heap s)) (rootPackage s).

(** The operation that [interpretModelChange] records for a change of a
    recognized kind: as created when its metamodel operation is not
    ambiguous, and with the flag and the reason copied from its metamodel
    operation when that one is ambiguous. *)
Definition pending_operation (modelChange : ModelChange.t) (metamodelOperation : object)
    : Operation.t :=
  Operation.mk (ModelChange.type modelChange) (ModelChange.element modelChange)
    (ModelChange.details modelChange) "pending" false VNull
    (Some metamodelOperation) None.

Definition ambiguous_operation (modelChange : ModelChange.t) (metamodelOperation : object)
    : Operation.t :=
  Operation.mk (ModelChange.type modelChange) (ModelChange.element modelChange)
    (ModelChange.details modelChange) "pending" true
    (metamodelOperation !!! "ambiguityReason") (Some metamodelOperation) None.

(** The loader after [createClass(className)] has added the new class. *)
Definition with_class (s : MetamodelLoader) (className : value) : MetamodelLoader :=
  mkLoader (heap s ++ [EClass.mk (as_created className) (VBool false) (VBool false)
                         [] []])%list
           ((λ eClassifiers, eClassifiers ++ [AClass (length (heap s))])%list
              <$> rootPackage s).

(** ** The round trip of a new class and its features *)

(** [{ type: "add", element: "class", details: { name } }]. *)
Definition add_class (name : string) : ModelChange.t :=
  ModelChange.mk (VStr "add") (VStr "class") {[ "name" := VStr name ]}.

(** [{ type: "add", element: "attribute",
       details: { className, name, type, lowerBound, upperBound } }]. *)
Definition add_attribute (className name type : string) (lowerBound upperBound : Z)
    : ModelChange.t :=
  ModelChange.mk (VStr "add") (VStr "attribute")
    (list_to_map [ ("className", VStr className); ("name", VStr name);
                   ("type", VStr type); ("lowerBound", VNum lowerBound);
                   ("upperBound", VNum upperBound) ]).

(** [{ type: "add", element: "reference",
       details: { sourceClassName, targetClassName, name, containment,
                  lowerBound, upperBound } }]. *)
Definition add_reference (sourceClassName targetClassName name : string)
    (containment : bool) (lowerBound upperBound : Z) : ModelChange.t :=
  ModelChange.mk (VStr "add") (VStr "reference")
    (list_to_map [ ("sourceClassName", VStr sourceClassName);
                   ("targetClassName", VStr targetClassName);
                   ("name", VStr name); ("containment", VBool containment);
                   ("lowerBound", VNum lowerBound);
                   ("upperBound", VNum upperBound) ]).

(** Changes interpreted one after the other. *)
Definition interpret_all (changes : list ModelChange.t) (m : Manager) : Manager :=
  fold_left (λ m change, (interpretModelChange change m).2) changes m.

(** The session of the round trip on a fresh manager: the change that adds
    the class is interpreted and applied, then the changes that add its
    features are interpreted and applied. *)
Definition round_trip (Ecore : string → option string) (s : MetamodelLoader)
    (addClass : ModelChange.t) (features : list ModelChange.t) : option Manager :=
  '(_, m) ← applyPendingChanges Ecore
              (interpretModelChange addClass (newManager s)).2;
  '(_, m) ← applyPendingChanges Ecore (interpret_all features m);
  Some m.

(** What the round trip is to yield: every operation was applied, and the
    class of the given name has exactly the given attributes and
    references. *)
Definition round_trip_yields (Ecore : string → option string) (s : MetamodelLoader)
    (addClass : ModelChange.t) (features : list ModelChange.t) (className : string)
    (attributes : list AttributeInfo) (references : list ReferenceInfo) : Prop :=
  ∃ m cls,
    round_trip Ecore s addClass features = Some m ∧
    Forall (λ operation, Operation.ambiguous operation = false
                         ∧ Operation.status operation = "applied")
           (evolutionOperations m) ∧
    findClassByName (loader m) (VStr className) = Some cls ∧
    getClassAttributes (loader m) cls = attributes ∧
    getClassReferences (loader m) cls = references.

(** The classes of the package all have their object on the heap. *)
Definition classes_on_heap (s : MetamodelLoader) : Prop :=
  ∀ id, In id (getAllClasses s) → (id < length (heap s))%nat.

(** A call that, when it throws, throws a message that is not empty. *)
Definition throws_populated {A} (call : M A) : Prop :=
  ∀ s message s', call s = Throws message s' → message ≠ "".

(** Every reference of the two queues is a position of the ledger. *)
Definition references_in_ledger (m : Manager) : Prop :=
  Forall (λ ref, ref < length (evolutionOperations m))%nat (ambiguities m) ∧
  Forall (λ ref, ref < length (evolutionOperations m))%nat (pendingChanges m).

(** ** Sample schemas and changes *)

(** The change [{ type: "rename", element: "class", details: {} }]. *)
Definition rename_class_change : ModelChange.t :=
  ModelChange.mk (VStr "rename") (VStr "class") ∅.

(** A loader with an empty package. *)
Definition empty_package : MetamodelLoader := mkLoader [] (Some []).

(** [{ type: "add", element: "class", details: { name: "Customer" } }]. *)
Definition add_Customer : ModelChange.t :=
  ModelChange.mk (VStr "add") (VStr "class") {[ "name" := VStr "Customer" ]}.

(** [{ type: "add", element: "class", details: {} }]: the name is missing. *)
Definition add_unnamed_class : ModelChange.t :=
  ModelChange.mk (VStr "add") (VStr "class") ∅.

(** A table for the Ecore library with two of its data types. *)
Definition two_data_types (t : string) : option string :=
  if String.eqb t "EString" then Some "EString"
  else if String.eqb t "EInt" then Some "EInt"
  else None.

(** The details of an attribute [tags] of [Person] with both bounds 0. *)
Definition tags_with_zero_bounds : object :=
  list_to_map [ ("className", VStr "Person"); ("name", VStr "tags");
                ("lowerBound", VNum 0); ("upperBound", VNum 0) ].

(** A schema with the single class [Node], whose reference [next] has the
    class itself for type. *)
Definition linked_list : MetamodelLoader :=
  mkLoader
    [ EClass.mk (VStr "Node") (VBool false) (VBool false) []
        [ Reference (EReference.mk (VStr "next") 0 (VBool false) (VNum 0) (VNum 1)) ] ]
    (Some [AClass 0]).

(** [{ name: "Node" }], the details of the removal of [Node]. *)
Definition remove_Node : object := {[ "name" := VStr "Node" ]}.

(** A schema with the classes [Person], which has an attribute [name] and a
    reference [address] to [Address], and [Address]. *)
Definition people : MetamodelLoader :=
  mkLoader
    [ EClass.mk (VStr "Person") (VBool false) (VBool false) []
        [ Attribute (EAttribute.mk (VStr "name") "EString" (VNum 0) (VNum 1));
          Reference (EReference.mk (VStr "address") 1 (VBool true) (VNum 0) (VNum 1)) ];
      EClass.mk (VStr "Address") (VBool false) (VBool false) []
        [ Attribute (EAttribute.mk (VStr "city") "EString" (VNum 0) (VNum 1)) ] ]
    (Some [AClass 0; NotAClass (VStr "RoleType"); AClass 1]).

(** The details of a change to the reference [boss] of [Person], which
    [Person] does not have, towards the class [Manager], which does not
    exist. *)
Definition retarget_boss : object :=
  list_to_map [ ("className", VStr "Person"); ("name", VStr "boss");
                ("newTargetClassName", VStr "Manager") ].

(** The details of an attribute [age] of [Person], type and bounds left
    out. *)
Definition age_of_Person : object :=
  list_to_map [ ("className", VStr "Person"); ("name", VStr "age") ].

(** A session on [people]: an attribute of a type that Ecore does not have
    is added to [Person], then the class [Customer] is added. *)
Definition untyped_age_then_Customer : Manager :=
  interpret_all [ add_attribute "Person" "age" "EFoo" 0 1; add_class "Customer" ]
                (newManager people).

(** The features given to [Customer] in the round trips below: [tags] is
    given the upper bound 0, [contacts] and [parent] the upper bound -1;
    [parent] is a reference of the class to itself. *)
Definition Customer_tags : ModelChange.t :=
  add_attribute "Customer" "tags" "EString" 0 0.
Definition Customer_name : ModelChange.t :=
  add_attribute "Customer" "name" "EString" 1 1.
Definition Customer_id : ModelChange.t :=
  add_attribute "Customer" "id" "EInt" 1 1.
Definition Customer_contacts : ModelChange.t :=
  add_reference "Customer" "Person" "contacts" false 0 (-1).
Definition Customer_parent : ModelChange.t :=
  add_reference "Customer" "Customer" "parent" false 0 (-1).

(** ** MetamodelEvolutionManager.js: the report *)

(** One entry of the [operations] of a report. *)
Record ReportEntry := mkReportEntry {
  entry_type : value;
  entry_element : value;
  entry_details : object;
  entry_status : string;
  entry_ambiguous : bool;
  entry_ambiguityReason : value
}.

(** The object [generateEvolutionReport] returns. *)
Record EvolutionReport := mkEvolutionReport {
  totalOperations : nat;
  report_pendingChanges : nat;
  report_ambiguities : nat;
  operations : list ReportEntry
}.

(** [generateEvolutionReport()]. *)
Definition generateEvolutionReport (m : Manager) : EvolutionReport :=
  mkEvolutionReport
    (length (evolutionOperations m))
    (length (pendingChanges m))
    (length (ambiguities m))
    (List.map (λ op, mkReportEntry (Operation.type op) (Operation.element op)
                       (Operation.details op) (Operation.status op)
                       (Operation.ambiguous op) (Operation.ambiguityReason op))
              (evolutionOperations m)).

(** ** The ledger and its two queues *)

(** The status and the failure detail of an operation of the ledger. *)
Definition status_of (m : Manager) (ref : nat) : option string :=
  Operation.status <$> evolutionOperations m !! ref.

Definition error_of (m : Manager) (ref : nat) : option (option string) :=
  Operation.error <$> evolutionOperations m !! ref.

(** The operation [interpretModelChange] records for a change whose kind it
    does not know. *)
Definition unknown_operation (modelChange : ModelChange.t) : Operation.t :=
  Operation.mk (ModelChange.type modelChange) (ModelChange.element modelChange)
    (ModelChange.details modelChange) "error" true
    (VStr "Unknown change type or element") None None.

(** Two states of one operation that differ at most in [status] and [error]. *)
Definition same_but_status (before after : Operation.t) : Prop :=
  Operation.type after = Operation.type before ∧
  Operation.element after = Operation.element before ∧
  Operation.details after = Operation.details before ∧
  Operation.ambiguous after = Operation.ambiguous before ∧
  Operation.ambiguityReason after = Operation.ambiguityReason before ∧
  Operation.metamodelOperation after = Operation.metamodelOperation before.

(** An operation that has a metamodel operation carries the flag
    [ambiguous] exactly when it is in the ambiguity set. *)
Definition flags_match_queue (m : Manager) : Prop :=
  ∀ ref operation,
    evolutionOperations m !! ref = Some operation →
    is_Some (Operation.metamodelOperation operation) →
    (Operation.ambiguous operation = true ↔ ref ∈ ambiguities m).

(** The ledger and its two queues agree. *)
Definition ledger_consistent (m : Manager) : Prop :=
  references_in_ledger m ∧
  NoDup (ambiguities m) ∧
  NoDup (pendingChanges m) ∧
  (∀ ref, ref ∈ ambiguities m → ref ∉ pendingChanges m) ∧
  flags_match_queue m.

(** The managers a session reaches: a new manager on whatever was loaded,
    then calls of [interpretModelChange], of [resolveAmbiguity] that return,
    and of [applyPendingChanges]. *)
Inductive reachable (Ecore : string → option string) : Manager → Prop :=
  | reach_new s : reachable Ecore (newManager s)
  | reach_interpret m modelChange :
      reachable Ecore m →
      reachable Ecore (interpretModelChange modelChange m).2
  | reach_resolve m operationIndex resolution operation m' :
      reachable Ecore m →
      resolveAmbiguity operationIndex resolution m = inr (operation, m') →
      reachable Ecore m'
  | reach_apply m result m' :
      reachable Ecore m →
      applyPendingChanges Ecore m = Some (result, m') →
      reachable Ecore m'.

(** ** What a call leaves of the loader *)

(** A call that leaves the loader as it found it whenever it throws. *)
Definition throws_unchanged {A} (call : M A) : Prop :=
  ∀ s message s', call s = Throws message s' → s' = s.

(** A call that leaves the loader as it found it, however it ends. *)
Definition quiet {A} (call : M A) : Prop :=
  ∀ s, match call s with
       | Returns _ s' | Throws _ s' => s' = s
       | IllTyped => True
       end.

(** A call that gives no feature a value of the descriptor for its type. *)
Definition well_typed {A} (call : M A) : Prop := ∀ s, call s ≠ IllTyped.

Definition is_attribute (feature : EStructuralFeature) : bool :=
  match feature with
  | Attribute _ => true
  | Reference _ => false
  end.

(** Two loaders with the same package, whose classes have features of the
    same kinds in the same order. *)
Definition same_shape (s s' : MetamodelLoader) : Prop :=
  rootPackage s' = rootPackage s ∧
  ∀ id, is_attribute <$> features_of s' id = is_attribute <$> features_of s id.

(** A call that leaves a loader of the same shape, however it ends. *)
Definition keeps_shape {A} (call : M A) : Prop :=
  ∀ s, match call s with
       | Returns _ s' | Throws _ s' => same_shape s s'
       | IllTyped => True
       end.

(** The loader a call leaves, when it returns and when it throws. *)
Definition leaves {A} (o : outcome A) (s' : MetamodelLoader) : Prop :=
  match o with
  | Returns _ s | Throws _ s => s = s'
  | IllTyped => False
  end.

(** The loader after [cls.set("name", newName)]. *)
Definition with_name (s : MetamodelLoader) (id : nat) (newName : value)
    : MetamodelLoader :=
  mkLoader (alter (λ c, EClass.mk newName (EClass.abstract c) (EClass.interface c)
                          (EClass.eSuperTypes c) (EClass.eStructuralFeatures c))
                  id (heap s))
           (rootPackage s).

(** ** More changes, operations and schemas *)

(** [{ type: "modify", element: "class",
       details: { name, newName, newSuperTypes } }]. *)
Definition rename_class (name newName : string) (newSuperTypes : list string)
    : ModelChange.t :=
  ModelChange.mk (VStr "modify") (VStr "class")
    (list_to_map [ ("name", VStr name); ("newName", VStr newName);
                   ("newSuperTypes", VArr (VStr <$> newSuperTypes)) ]).

(** [{ type: "remove", element: "class", details: { name } }]. *)
Definition remove_class_named (name : string) : ModelChange.t :=
  ModelChange.mk (VStr "remove") (VStr "class") {[ "name" := VStr name ]}.

(** A loader into which nothing was loaded. *)
Definition unloaded : MetamodelLoader := mkLoader [] None.

(** A schema with two classes that bear the same name, as two renamings
    leave it. *)
Definition twins : MetamodelLoader :=
  mkLoader
    [ EClass.mk (VStr "Twin") (VBool false) (VBool false) [] [];
      EClass.mk (VStr "Twin") (VBool false) (VBool false) []
        [ Attribute (EAttribute.mk (VStr "name") "EString" (VNum 0) (VNum 1)) ] ]
    (Some [AClass 0; AClass 1]).

(** The operations on an attribute [age] of [Person]. *)
Definition add_age : object :=
  list_to_map [ ("action", VStr "addAttribute"); ("className", VStr "Person");
                ("attributeName", VStr "age"); ("attributeType", VStr "EInt");
                ("lowerBound", VNum 0); ("upperBound", VNum 1) ].
Definition remove_age : object :=
  list_to_map [ ("action", VStr "removeAttribute"); ("className", VStr "Person");
                ("attributeName", VStr "age") ].

(** The operations on a reference [resident] of [Address] to [Person]. *)
Definition add_resident : object :=
  list_to_map [ ("action", VStr "addReference"); ("sourceClassName", VStr "Address");
                ("targetClassName", VStr "Person"); ("referenceName", VStr "resident");
                ("containment", VBool false); ("lowerBound", VNum 0);
                ("upperBound", VNum 1) ].
Definition remove_resident : object :=
  list_to_map [ ("action", VStr "removeReference"); ("className", VStr "Address");
                ("referenceName", VStr "resident") ].

(** The operation that renames [Address] to [Location]. *)
Definition Address_to_Location : object :=
  list_to_map [ ("action", VStr "modifyClass"); ("className", VStr "Address");
                ("newName", VStr "Location") ].

(** [{ name: "Person" }], the details of the removal of [Person]. *)
Definition remove_Person : object := {[ "name" := VStr "Person" ]}.

(** The resolution that names the class [Customer]. *)
Definition name_Customer : object := {[ "className" := VStr "Customer" ]}.

(** The removal of the attribute [name] of [Person]. *)
Definition remove_name_of_Person : ModelChange.t :=
  ModelChange.mk (VStr "remove") (VStr "attribute")
    (list_to_map [ ("className", VStr "Person"); ("name", VStr "name") ]).

(** The renaming of [Person] to [Human] with the super type [Being], which
    no class of [people] is. *)
Definition Person_to_Human : ModelChange.t := rename_class "Person" "Human" ["Being"].

(** * Properties *)

(** ** Reading the fields of a built operation *)

Lemma flag_other reason (o : object) k :
  k ≠ "ambiguous" → k ≠ "ambiguityReason" → flag reason o !!! k = o !!! k.
Proof.
  intros Hk1 Hk2. unfold flag.
  by rewrite !lookup_total_insert_ne.
Qed.

Lemma flag_ambiguous reason (o : object) :
  flag reason o !!! "ambiguous" = VBool true.
Proof.
  unfold flag. rewrite lookup_total_insert_ne by done.
  apply lookup_total_insert_eq.
Qed.

Lemma flag_reason reason (o : object) :
  flag reason o !!! "ambiguityReason" = VStr reason.
Proof. unfold flag. apply lookup_total_insert_eq. Qed.

Lemma snoc_lookup_length {A} (l : list A) x : (l ++ [x])%list !! length l = Some x.
Proof. by apply list_lookup_middle. Qed.

(** Every branch of a builder, one goal each. *)
Ltac builder_branches :=
  repeat match goal with
    | |- context [if ?b then _ else _] => destruct b eqn:?
    | |- context [match ?o with Some _ => _ | None => _ end] => destruct o eqn:?
    end.

(** ** The interpreter and the two queues *)

(** A change of a recognized kind is filed by the flag of the operation that
    was built for it: into the ambiguity set when it is ambiguous, into the
    pending queue when it is not, and never into both. *)
Lemma interpret_recognized_kind modelChange m build :
  switch (kind_of modelChange) builders = Some build →
  let metamodelOperation := build (loader m) (ModelChange.details modelChange) in
  let ref := length (evolutionOperations m) in
  let m' := (interpretModelChange modelChange m).2 in
  (interpretModelChange modelChange m).1 = ref ∧
  loader m' = loader m ∧
  ∃ operation,
    evolutionOperations m' = (evolutionOperations m ++ [operation])%list ∧
    Operation.metamodelOperation operation = Some metamodelOperation ∧
    Operation.status operation = "pending" ∧
    Operation.ambiguous operation = truthy (metamodelOperation !!! "ambiguous") ∧
    if Operation.ambiguous operation then
      Operation.ambiguityReason operation = metamodelOperation !!! "ambiguityReason" ∧
      ambiguities m' = (ambiguities m ++ [ref])%list ∧
      pendingChanges m' = pendingChanges m
    else
      Operation.ambiguityReason operation = VNull ∧
      ambiguities m' = ambiguities m ∧
      pendingChanges m' = (pendingChanges m ++ [ref])%list.
Proof.
  intros Hkind. unfold interpretModelChange, kind_of in *. rewrite Hkind. cbn.
  destruct (truthy _) eqn:Hflag; cbn; (split; [done|]); (split; [done|]);
    eexists; (split; [done|]); cbn; rewrite ?Hflag; done.
Qed.

Lemma interpret_files_pending modelChange m build :
  switch (kind_of modelChange) builders = Some build →
  truthy (build (loader m) (ModelChange.details modelChange) !!! "ambiguous") = false →
  interpretModelChange modelChange m =
    (length (evolutionOperations m),
     mkManager (loader m)
       (evolutionOperations m ++
        [pending_operation modelChange
           (build (loader m) (ModelChange.details modelChange))])%list
       (ambiguities m)
       (pendingChanges m ++ [length (evolutionOperations m)])%list).
Proof.
  intros Hkind Hflag. unfold interpretModelChange. rewrite Hkind. cbn.
  by rewrite Hflag.
Qed.

Lemma interpret_files_ambiguous modelChange m build :
  switch (kind_of modelChange) builders = Some build →
  truthy (build (loader m) (ModelChange.details modelChange) !!! "ambiguous") = true →
  interpretModelChange modelChange m =
    (length (evolutionOperations m),
     mkManager (loader m)
       (evolutionOperations m ++
        [ambiguous_operation modelChange
           (build (loader m) (ModelChange.details modelChange))])%list
       (ambiguities m ++ [length (evolutionOperations m)])%list
       (pendingChanges m)).
Proof.
  intros Hkind Hflag. unfold interpretModelChange. rewrite Hkind. cbn.
  by rewrite Hflag.
Qed.

(** The references of the queues stay within the ledger. *)
Lemma newManager_references s : references_in_ledger (newManager s).
Proof. split; constructor. Qed.

Lemma interpret_ledger_grows modelChange m :
  let m' := (interpretModelChange modelChange m).2 in
  length (evolutionOperations m') = S (length (evolutionOperations m)) ∧
  ((ambiguities m' = (ambiguities m ++ [length (evolutionOperations m)])%list ∧
    pendingChanges m' = pendingChanges m) ∨
   (ambiguities m' = ambiguities m ∧
    pendingChanges m' = (pendingChanges m ++ [length (evolutionOperations m)])%list)).
Proof.
  unfold interpretModelChange.
  destruct (switch _ _); cbn; [destruct (truthy _); cbn|];
    rewrite length_app; cbn; (split; [lia|]); auto.
Qed.

Lemma interpret_keeps_references modelChange m :
  references_in_ledger m →
  references_in_ledger (interpretModelChange modelChange m).2.
Proof.
  intros [Hambiguities Hpending].
  destruct (interpret_ledger_grows modelChange m) as (Hlength & Hqueues).
  unfold references_in_ledger. rewrite Hlength.
  assert (∀ l, Forall (λ ref, ref < length (evolutionOperations m))%nat l →
               Forall (λ ref, ref < S (length (evolutionOperations m)))%nat l)
    as Hweaken by (intros l Hl; eapply Forall_impl; [exact Hl | cbn; lia]).
  destruct Hqueues as [[-> ->] | [-> ->]]; split; auto;
    apply Forall_app; split; auto; repeat constructor.
Qed.

Lemma resolve_keeps_references operationIndex resolution m ref m' :
  references_in_ledger m →
  resolveAmbiguity operationIndex resolution m = inr (ref, m') →
  references_in_ledger m'.
Proof.
  intros [Hambiguities Hpending]. unfold resolveAmbiguity.
  destruct (evolutionOperations m !! operationIndex) as [operation|] eqn:Hop;
    [|discriminate].
  apply lookup_lt_Some in Hop.
  destruct (Operation.ambiguous operation); cbn.
  - destruct (findIndex _ _); intros [= <- <-]; split; cbn;
      rewrite length_insert; try done.
    + by apply Forall_delete.
    + case_bool_decide; [done|]. apply Forall_app. split; [done|].
      by repeat constructor.
  - intros [= <- <-]. by split.
Qed.

(** C1: a change whose (type, element) pair is none of the nine recognized
    ones yields an operation without metamodel operation, flagged ambiguous
    with the reason 'Unknown change type or element'; the interpreter files
    it into the pending queue and leaves the ambiguity set as it was, so
    that the operation is not in the ambiguity set. *)
Theorem interpret_unknown_kind_is_filed_pending modelChange m :
  switch (kind_of modelChange) builders = None →
  let ref := length (evolutionOperations m) in
  let m' := (interpretModelChange modelChange m).2 in
  (interpretModelChange modelChange m).1 = ref ∧
  (∃ operation,
     evolutionOperations m' !! ref = Some operation ∧
     Operation.metamodelOperation operation = None ∧
     Operation.ambiguous operation = true ∧
     Operation.ambiguityReason operation = VStr "Unknown change type or element") ∧
  pendingChanges m' = (pendingChanges m ++ [ref])%list ∧
  ambiguities m' = ambiguities m ∧
  (references_in_ledger m → ref ∉ ambiguities m').
Proof.
  intros Hkind. unfold interpretModelChange, kind_of in *. rewrite Hkind. cbn.
  split; [done|]. split; [|split; [done|split; [done|]]].
  - eexists. split; [apply snoc_lookup_length|]. done.
  - intros [Hambiguities _] Hin. rewrite Forall_forall in Hambiguities.
    apply Hambiguities in Hin. lia.
Qed.

Lemma interpret_unknown_kind_is_filed_pending_witness :
  let m' := (interpretModelChange rename_class_change (newManager empty_package)).2 in
  (Operation.ambiguous <$> evolutionOperations m' !! 0%nat) = Some true ∧
  pendingChanges m' = [0%nat] ∧
  ambiguities m' = [].
Proof.
  destruct (interpret_unknown_kind_is_filed_pending rename_class_change
              (newManager empty_package) eq_refl)
    as (_ & (operation & Hop & _ & Hflag & _) & Hpending & Hamb & _).
  cbn in Hop. split; [|split].
  - cbn. rewrite Hop. cbn. by rewrite Hflag.
  - exact Hpending.
  - exact Hamb.
Defined.

(** ** The resolver *)

(** C7: resolving an operation of the ledger that is not ambiguous returns
    that operation and leaves the manager as it was: the operation (its
    metamodel operation, status and reason), every other operation, the
    ambiguity set and the pending queue are all unchanged. *)
Theorem resolve_not_ambiguous_is_noop operationIndex resolution m operation :
  evolutionOperations m !! operationIndex = Some operation →
  Operation.ambiguous operation = false →
  resolveAmbiguity operationIndex resolution m = inr (operationIndex, m).
Proof.
  intros Hop Hflag. unfold resolveAmbiguity. by rewrite Hop, Hflag.
Qed.

Lemma resolve_not_ambiguous_is_noop_witness :
  let m := (interpretModelChange add_Customer (newManager empty_package)).2 in
  resolveAmbiguity 0 {[ "className" := VStr "Client" ]} m = inr (0%nat, m).
Proof.
  cbv zeta.
  eapply resolve_not_ambiguous_is_noop; [vm_compute; reflexivity | reflexivity].
Defined.

(** What [Object.assign] leaves in a property of its target. *)
Lemma Object_assign_lookup (target source : object) k :
  Object_assign target source !! k =
  match source !! k with
  | Some v => Some v
  | None => target !! k
  end.
Proof.
  unfold Object_assign. rewrite lookup_union.
  destruct (source !! k), (target !! k); done.
Qed.

(** C10: resolving an ambiguous operation writes the properties of the
    resolution into the metamodel operation of that operation (when it has
    one) and nowhere else.  Afterwards every property that the resolution
    has is read from the metamodel operation with the value the resolution
    gives it, and every other property with the value it had; the type, the
    element and the details recorded from the change stay as they were,
    and so do the loader and every other operation of the ledger. *)
Theorem resolve_keeps_audit_fields operationIndex resolution m operation :
  evolutionOperations m !! operationIndex = Some operation →
  Operation.ambiguous operation = true →
  ∃ m' operation',
    resolveAmbiguity operationIndex resolution m = inr (operationIndex, m') ∧
    evolutionOperations m' !! operationIndex = Some operation' ∧
    Operation.type operation' = Operation.type operation ∧
    Operation.element operation' = Operation.element operation ∧
    Operation.details operation' = Operation.details operation ∧
    match Operation.metamodelOperation operation with
    | Some intent =>
        ∃ intent',
          Operation.metamodelOperation operation' = Some intent' ∧
          ∀ k, intent' !! k = match resolution !! k with
                              | Some v => Some v
                              | None => intent !! k
                              end
    | None => Operation.metamodelOperation operation' = None
    end ∧
    loader m' = loader m ∧
    ∀ other, other ≠ operationIndex →
      evolutionOperations m' !! other = evolutionOperations m !! other.
Proof.
  intros Hop Hflag. unfold resolveAmbiguity. rewrite Hop, Hflag. cbn.
  assert (operationIndex < length (evolutionOperations m))%nat as Hlt
    by (by eapply lookup_lt_Some).
  destruct (findIndex _ _); do 2 eexists; (split; [reflexivity|]); cbn;
    (split; [by apply list_lookup_insert_eq|]); repeat (split; [done|]);
    (split;
     [ destruct (Operation.metamodelOperation operation) as [intent|]; cbn;
       [eexists; split; [reflexivity|]; intros k; apply Object_assign_lookup
       |reflexivity]
     | split; [done|];
       intros other Hother; by apply list_lookup_insert_ne ]).
Qed.

Lemma resolve_keeps_audit_fields_witness :
  let m := (interpretModelChange add_unnamed_class (newManager empty_package)).2 in
  ∃ m' operation' intent',
    resolveAmbiguity 0 {[ "className" := VStr "Client" ]} m = inr (0%nat, m') ∧
    evolutionOperations m' !! 0%nat = Some operation' ∧
    Operation.type operation' = VStr "add" ∧
    Operation.element operation' = VStr "class" ∧
    Operation.details operation' = ∅ ∧
    Operation.metamodelOperation operation' = Some intent' ∧
    intent' !! "className" = Some (VStr "Client") ∧
    intent' !! "action" = Some (VStr "addClass").
Proof.
  cbv zeta.
  destruct (resolve_keeps_audit_fields 0 {[ "className" := VStr "Client" ]}
              (interpretModelChange add_unnamed_class (newManager empty_package)).2
              (ambiguous_operation add_unnamed_class
                 (_createAddClassOperation empty_package
                    (ModelChange.details add_unnamed_class)))
              eq_refl eq_refl)
    as (m' & operation' & Hres & Hop & Htype & Helement & Hdetails & Hintent & _).
  destruct Hintent as (intent' & Hintent & Hkeys).
  exists m', operation', intent'.
  split; [exact Hres|]. split; [exact Hop|]. split; [exact Htype|].
  split; [exact Helement|]. split; [exact Hdetails|]. split; [exact Hintent|].
  split; [exact (Hkeys "className") | exact (Hkeys "action")].
Defined.

(** ** The intent builders *)

(** C9: when the details give a falsy upper bound, 0 in particular, the
    operation built for an added attribute or reference carries the upper
    bound 1; a lower bound given as 0 is carried as 0. *)
Theorem falsy_upper_bound_takes_default s details :
  truthy (details !!! "upperBound") = false →
  _createAddAttributeOperation s details !!! "upperBound" = VNum 1 ∧
  _createAddReferenceOperation s details !!! "upperBound" = VNum 1 ∧
  (details !!! "lowerBound" = VNum 0 →
   _createAddAttributeOperation s details !!! "lowerBound" = VNum 0 ∧
   _createAddReferenceOperation s details !!! "lowerBound" = VNum 0).
Proof.
  intros Hupper.
  assert (or_else (details !!! "upperBound") (VNum 1) = VNum 1) as Hdefault
    by (unfold or_else; by rewrite Hupper).
  split; [|split; [|intros Hlower; split]].
  - unfold _createAddAttributeOperation. rewrite Hdefault.
    builder_branches; rewrite ?flag_other by done; reflexivity.
  - unfold _createAddReferenceOperation. rewrite Hdefault.
    builder_branches; rewrite ?flag_other by done; reflexivity.
  - unfold _createAddAttributeOperation. rewrite Hlower.
    builder_branches; rewrite ?flag_other by done; reflexivity.
  - unfold _createAddReferenceOperation. rewrite Hlower.
    builder_branches; rewrite ?flag_other by done; reflexivity.
Qed.

Lemma falsy_upper_bound_takes_default_witness :
  tags_with_zero_bounds !!! "upperBound" = VNum 0 ∧
  _createAddAttributeOperation empty_package tags_with_zero_bounds !!! "upperBound"
    = VNum 1 ∧
  _createAddAttributeOperation empty_package tags_with_zero_bounds !!! "lowerBound"
    = VNum 0.
Proof.
  destruct (falsy_upper_bound_takes_default empty_package tags_with_zero_bounds
              eq_refl) as (Hattribute & _ & Hlower).
  split; [reflexivity|]. split; [exact Hattribute|].
  exact (proj1 (Hlower eq_refl)).
Defined.

(** What the operation built for an added attribute carries. *)
Lemma add_attribute_fields s details :
  let operation := _createAddAttributeOperation s details in
  operation !!! "action" = VStr "addAttribute" ∧
  operation !!! "className" = details !!! "className" ∧
  operation !!! "attributeName" = details !!! "name" ∧
  operation !!! "attributeType" = or_else (details !!! "type") (VStr "EString") ∧
  operation !!! "lowerBound" = or_else (details !!! "lowerBound") (VNum 0) ∧
  operation !!! "upperBound" = or_else (details !!! "upperBound") (VNum 1).
Proof.
  cbv zeta. unfold _createAddAttributeOperation.
  builder_branches; rewrite ?flag_other by done; repeat split; reflexivity.
Qed.

Lemma add_reference_fields s details :
  let operation := _createAddReferenceOperation s details in
  operation !!! "action" = VStr "addReference" ∧
  operation !!! "sourceClassName" = details !!! "sourceClassName" ∧
  operation !!! "targetClassName" = details !!! "targetClassName" ∧
  operation !!! "referenceName" = details !!! "name" ∧
  operation !!! "containment" = or_else (details !!! "containment") (VBool false) ∧
  operation !!! "lowerBound" = or_else (details !!! "lowerBound") (VNum 0) ∧
  operation !!! "upperBound" = or_else (details !!! "upperBound") (VNum 1).
Proof.
  cbv zeta. unfold _createAddReferenceOperation.
  builder_branches; rewrite ?flag_other by done; repeat split; reflexivity.
Qed.

Lemma add_class_fields s details :
  let operation := _createAddClassOperation s details in
  operation !!! "action" = VStr "addClass" ∧
  operation !!! "className" = details !!! "name".
Proof.
  cbv zeta. unfold _createAddClassOperation.
  builder_branches; rewrite ?flag_other by done; repeat split; reflexivity.
Qed.

(** The three checks that pass and the one that decides, for an added
    attribute. *)
Lemma add_attribute_flag s details targetClass :
  truthy (details !!! "className") = true →
  truthy (details !!! "name") = true →
  findClassByName s (details !!! "className") = Some targetClass →
  let operation := _createAddAttributeOperation s details in
  if some_attribute (details !!! "name") (getClassAttributes s targetClass) then
    operation !!! "ambiguous" = VBool true ∧
    operation !!! "ambiguityReason" =
      VStr ("Attribute " ++ to_String (details !!! "name")
            ++ " already exists in class " ++ to_String (details !!! "className"))
  else operation !!! "ambiguous" = VBool false.
Proof.
  intros HclassName Hname Hclass. cbv zeta. unfold _createAddAttributeOperation.
  rewrite HclassName, Hname, Hclass. cbn.
  destruct (some_attribute _ _).
  - split; [apply flag_ambiguous | apply flag_reason].
  - reflexivity.
Qed.

Lemma add_reference_flag s details sourceClass targetClass :
  truthy (details !!! "sourceClassName") = true →
  truthy (details !!! "targetClassName") = true →
  truthy (details !!! "name") = true →
  findClassByName s (details !!! "sourceClassName") = Some sourceClass →
  findClassByName s (details !!! "targetClassName") = Some targetClass →
  some_reference (details !!! "name") (getClassReferences s sourceClass) = false →
  _createAddReferenceOperation s details !!! "ambiguous" = VBool false.
Proof.
  intros Hsource Htarget Hname HsourceClass HtargetClass Hreference.
  unfold _createAddReferenceOperation.
  rewrite Hsource, Htarget, Hname, HsourceClass, HtargetClass, Hreference.
  reflexivity.
Qed.

Lemma add_class_flag s details :
  truthy (details !!! "name") = true →
  findClassByName s (details !!! "name") = None →
  _createAddClassOperation s details !!! "ambiguous" = VBool false.
Proof.
  intros Hname Hclass. unfold _createAddClassOperation.
  rewrite Hname, Hclass. reflexivity.
Qed.

(** C5: in the builder for a modified reference the first three checks
    stop at the first violation, but the check of the new target class does
    not wait for the checks on the reference: when the class exists, the
    reference is missing and the new target class is missing too, the
    recorded reason is the missing target class. *)
Theorem modify_reference_reports_missing_target s details targetClass :
  truthy (details !!! "className") = true →
  truthy (details !!! "name") = true →
  findClassByName s (details !!! "className") = Some targetClass →
  some_reference (details !!! "name") (getClassReferences s targetClass) = false →
  truthy (details !!! "newTargetClassName") = true →
  findClassByName s (details !!! "newTargetClassName") = None →
  let operation := _createModifyReferenceOperation s details in
  operation !!! "ambiguous" = VBool true ∧
  operation !!! "ambiguityReason" =
    VStr ("Target class " ++ to_String (details !!! "newTargetClassName")
          ++ " does not exist").
Proof.
  intros HclassName Hname Hclass Hreference HnewTarget Htarget.
  unfold _createModifyReferenceOperation.
  rewrite HclassName, Hname, Hclass, Hreference, HnewTarget, Htarget. cbn.
  split; [apply flag_ambiguous | apply flag_reason].
Qed.

Lemma modify_reference_reports_missing_target_witness :
  some_reference (VStr "boss") (getClassReferences people 0) = false ∧
  findClassByName people (VStr "Manager") = None ∧
  _createModifyReferenceOperation people retarget_boss !!! "ambiguityReason"
    = VStr "Target class Manager does not exist".
Proof.
  split; [reflexivity|]. split; [reflexivity|].
  exact (proj2 (modify_reference_reports_missing_target people retarget_boss 0
                  eq_refl eq_refl eq_refl eq_refl eq_refl eq_refl)).
Defined.

(** The classes [_findClassesReferencingClass] lists are those of the
    package that hold a reference whose type has the name; the class that
    bears the name is one of the classes searched. *)
Lemma referencing_classes_nonempty s className :
  _findClassesReferencingClass s className ≠ [] ↔
  ∃ cls ref, In cls (getAllClasses s) ∧ In ref (getClassReferences s cls) ∧
             strict_eq (ref_type ref) className = true.
Proof.
  unfold _findClassesReferencingClass. split.
  - intros Hne.
    destruct (flat_map _ _) as [|name names] eqn:Hlist; [done|].
    assert (In name (name :: names)) as Hin by (by left).
    rewrite <- Hlist in Hin. apply in_flat_map in Hin as (cls & Hcls & Hin).
    apply in_flat_map in Hin as (ref & Href & Hin).
    exists cls, ref. destruct (strict_eq _ _); [done|]. destruct Hin.
  - intros (cls & ref & Hcls & Href & Heq) Hnil.
    assert (In (className_of s cls) []) as []. rewrite <- Hnil.
    apply in_flat_map. exists cls. split; [done|].
    apply in_flat_map. exists ref. split; [done|]. rewrite Heq. by left.
Qed.

(** C2: the removal of a class that exists is ambiguous exactly when some
    class of the package, the class to remove included, holds a reference
    whose type has its name; the reason then lists the names of the
    referencing classes. *)
Theorem remove_class_ambiguous_iff_referenced s details targetClass :
  truthy (details !!! "name") = true →
  findClassByName s (details !!! "name") = Some targetClass →
  let operation := _createRemoveClassOperation s details in
  (operation !!! "ambiguous" = VBool true ↔
   ∃ cls ref, In cls (getAllClasses s) ∧ In ref (getClassReferences s cls) ∧
              strict_eq (ref_type ref) (details !!! "name") = true) ∧
  (operation !!! "ambiguous" = VBool false ∨
   operation !!! "ambiguityReason" =
     VStr ("Class " ++ to_String (details !!! "name") ++ " is referenced by: "
           ++ join ", " (_findClassesReferencingClass s (details !!! "name")))).
Proof.
  intros Hname Hclass. cbv zeta. unfold _createRemoveClassOperation.
  rewrite Hname, Hclass. cbn.
  rewrite <- referencing_classes_nonempty.
  destruct (_findClassesReferencingClass s (details !!! "name")) as [|name names];
    cbn.
  - split; [|by left]. split; [|done]. intros Hflag. by vm_compute in Hflag.
  - split; [|right; apply flag_reason]. split; [done|]. intros _. apply flag_ambiguous.
Qed.

Lemma remove_class_ambiguous_iff_referenced_witness :
  getAllClasses linked_list = [0%nat] ∧
  findClassByName linked_list (VStr "Node") = Some 0%nat ∧
  _createRemoveClassOperation linked_list remove_Node !!! "ambiguous" = VBool true ∧
  _createRemoveClassOperation linked_list remove_Node !!! "ambiguityReason"
    = VStr "Class Node is referenced by: Node".
Proof.
  destruct (remove_class_ambiguous_iff_referenced linked_list remove_Node 0
              eq_refl eq_refl) as [Hiff Hreason].
  assert (_createRemoveClassOperation linked_list remove_Node !!! "ambiguous"
          = VBool true) as Hflag.
  { apply Hiff. exists 0%nat. eexists. split; [by left|]. split; [by left|].
    reflexivity. }
  split; [reflexivity|]. split; [reflexivity|]. split; [exact Hflag|].
  destruct Hreason as [Hpending | Hreason].
  - rewrite Hflag in Hpending. discriminate Hpending.
  - exact Hreason.
Defined.

(** ** The schema after a feature is added *)

Lemma strict_eq_string v n : strict_eq v (VStr n) = true → v = VStr n.
Proof.
  destruct v; cbn; try done. intros Heq. by apply String.eqb_eq in Heq as ->.
Qed.

Lemma strict_eq_string_refl n : strict_eq (VStr n) (VStr n) = true.
Proof. cbn. apply String.eqb_refl. Qed.

Lemma truthy_string n : n ≠ "" → truthy (VStr n) = true.
Proof. intros Hn. cbn. by destruct n. Qed.

(** The loop that keeps the last match, one element at a time from the
    end of the list. *)
Lemma keep_last_snoc {A} (test : A → bool) l x :
  keep_last test (l ++ [x])%list = if test x then Some x else keep_last test l.
Proof. unfold keep_last. by rewrite fold_left_app. Qed.

Lemma keep_last_some {A} (test : A → bool) l x :
  keep_last test l = Some x → In x l ∧ test x = true.
Proof.
  induction l as [|y l IH] using rev_ind; [done|].
  rewrite keep_last_snoc. destruct (test y) eqn:Hy.
  - intros [= <-]. split; [apply in_or_app; right; by left|done].
  - intros [Hin Hx]%IH. split; [apply in_or_app; by left|done].
Qed.

Lemma keep_last_none {A} (test : A → bool) l :
  keep_last test l = None → ∀ x, In x l → test x = false.
Proof.
  induction l as [|y l IH] using rev_ind; [by intros _ x []|].
  rewrite keep_last_snoc. destruct (test y) eqn:Hy; [done|].
  intros Hnone x [Hx|[<-|[]]]%in_app_or; [by apply IH|done].
Qed.

Lemma keep_last_agree {A} (f g : A → bool) l :
  (∀ x, In x l → f x = g x) → keep_last f l = keep_last g l.
Proof.
  induction l as [|y l IH] using rev_ind; intros Hfg; [done|].
  rewrite !keep_last_snoc, (Hfg y) by (apply in_or_app; right; by left).
  rewrite IH; [done|]. intros x Hx. apply Hfg. apply in_or_app. by left.
Qed.

Lemma keep_last_all_false {A} (test : A → bool) l :
  (∀ x, In x l → test x = false) → keep_last test l = None.
Proof.
  intros Hall. destruct (keep_last test l) as [x|] eqn:Hkept; [|done].
  apply keep_last_some in Hkept as [Hin Hx]. apply Hall in Hin. congruence.
Qed.

Lemma keep_last_only {A} (test : A → bool) l x :
  In x l → test x = true → (∀ y, In y l → test y = true → y = x) →
  keep_last test l = Some x.
Proof.
  intros Hin Hx Honly. destruct (keep_last test l) as [y|] eqn:Hkept.
  - apply keep_last_some in Hkept as [Hy Hpasses]. f_equal. by apply Honly.
  - eapply keep_last_none in Hkept; [|exact Hin]. congruence.
Qed.

Lemma last_index_snoc {A} (test : A → bool) l x :
  last_index test (l ++ [x])%list =
  if test x then Some (length l) else last_index test l.
Proof.
  unfold last_index. rewrite imap_app. cbn. rewrite keep_last_snoc. cbn.
  rewrite Nat.add_0_r. by destruct (test x).
Qed.

Lemma last_index_is_Some {A} (test : A → bool) l :
  existsb test l = true → is_Some (last_index test l).
Proof.
  induction l as [|y l IH] using rev_ind; [done|].
  rewrite existsb_app, last_index_snoc. cbn. rewrite orb_false_r.
  destruct (test y); [by eexists|]. rewrite orb_false_r. apply IH.
Qed.

(** A class found by name is a class of the package, has an object on the
    heap and bears the name. *)
Lemma findClassByName_found s n id :
  findClassByName s (VStr n) = Some id →
  In id (getAllClasses s) ∧ className_of s id = VStr n ∧ is_Some (heap s !! id).
Proof.
  intros Hfind. apply keep_last_some in Hfind as [Hin Hname].
  apply strict_eq_string in Hname. repeat split; [done..|].
  unfold className_of in Hname. by destruct (heap s !! id).
Qed.

Lemma className_of_with_feature s id feature j :
  className_of (with_feature s id feature) j = className_of s j.
Proof.
  unfold className_of, with_feature. cbn.
  destruct (decide (id = j)) as [->|Hne].
  - rewrite list_lookup_alter_eq. by destruct (heap s !! j).
  - by rewrite list_lookup_alter_ne.
Qed.

Lemma findClassByName_with_feature s id feature n :
  findClassByName (with_feature s id feature) n = findClassByName s n.
Proof.
  unfold findClassByName. change (getAllClasses (with_feature s id feature))
    with (getAllClasses s).
  apply keep_last_agree. intros j _. by rewrite className_of_with_feature.
Qed.

Lemma features_of_with_feature s id feature :
  is_Some (heap s !! id) →
  features_of (with_feature s id feature) id = (features_of s id ++ [feature])%list.
Proof.
  intros [c Hc]. unfold features_of, with_feature. cbn.
  rewrite list_lookup_alter_eq, Hc. done.
Qed.

Lemma getClassAttributes_with_attribute s id a :
  is_Some (heap s !! id) →
  getClassAttributes (with_feature s id (Attribute a)) id =
    (getClassAttributes s id ++
     [ mkAttributeInfo (EAttribute.name a) (VStr (EAttribute.eType a))
         (EAttribute.lowerBound a) (EAttribute.upperBound a) ])%list.
Proof.
  intros Hid. unfold getClassAttributes.
  rewrite features_of_with_feature by done. by rewrite omap_app.
Qed.

Lemma getClassAttributes_with_reference s id r :
  is_Some (heap s !! id) →
  getClassAttributes (with_feature s id (Reference r)) id = getClassAttributes s id.
Proof.
  intros Hid. unfold getClassAttributes.
  rewrite features_of_with_feature by done. rewrite omap_app. cbn.
  by rewrite app_nil_r.
Qed.

Lemma getClassReferences_agree s s' (l : list EStructuralFeature) :
  (∀ j, className_of s' j = className_of s j) →
  omap (λ feature, match feature with
                   | Reference r =>
                       Some (mkReferenceInfo (EReference.name r)
                               (className_of s' (EReference.eType r))
                               (EReference.containment r) (EReference.lowerBound r)
                               (EReference.upperBound r))
                   | Attribute _ => None
                   end) l =
  omap (λ feature, match feature with
                   | Reference r =>
                       Some (mkReferenceInfo (EReference.name r)
                               (className_of s (EReference.eType r))
                               (EReference.containment r) (EReference.lowerBound r)
                               (EReference.upperBound r))
                   | Attribute _ => None
                   end) l.
Proof.
  intros Hnames. induction l as [|[a|r] l IH]; cbn; [done..|].
  by rewrite Hnames, IH.
Qed.

Lemma getClassReferences_with_attribute s id a :
  is_Some (heap s !! id) →
  getClassReferences (with_feature s id (Attribute a)) id = getClassReferences s id.
Proof.
  intros Hid. unfold getClassReferences.
  rewrite features_of_with_feature by done. rewrite omap_app. cbn.
  rewrite app_nil_r. apply getClassReferences_agree.
  intros j. apply className_of_with_feature.
Qed.

Lemma getClassReferences_with_reference s id r :
  is_Some (heap s !! id) →
  getClassReferences (with_feature s id (Reference r)) id =
    (getClassReferences s id ++
     [ mkReferenceInfo (EReference.name r) (className_of s (EReference.eType r))
         (EReference.containment r) (EReference.lowerBound r)
         (EReference.upperBound r) ])%list.
Proof.
  intros Hid. unfold getClassReferences.
  rewrite features_of_with_feature by done. rewrite omap_app. cbn.
  rewrite className_of_with_feature. f_equal.
  apply getClassReferences_agree. intros j. apply className_of_with_feature.
Qed.

(** ** The schema after a class is created *)

Lemma createClass_returns s className :
  is_Some (rootPackage s) →
  findClassByName s className = None →
  createClass className s = Returns (length (heap s)) (with_class s className).
Proof.
  intros [eClassifiers Hpackage] Hfresh. unfold createClass, with_class.
  by rewrite Hpackage, Hfresh.
Qed.

Lemma getAllClasses_with_class s className :
  is_Some (rootPackage s) →
  getAllClasses (with_class s className) = (getAllClasses s ++ [length (heap s)])%list.
Proof.
  intros [eClassifiers Hpackage]. unfold getAllClasses, with_class. cbn.
  rewrite Hpackage. cbn. by rewrite omap_app.
Qed.

Lemma className_of_with_class_old s className id :
  (id < length (heap s))%nat →
  className_of (with_class s className) id = className_of s id.
Proof.
  intros Hid. unfold className_of, with_class. cbn. by rewrite lookup_app_l.
Qed.

Lemma className_of_with_class_new s className :
  className_of (with_class s className) (length (heap s)) = as_created className.
Proof.
  unfold className_of, with_class. cbn. by rewrite snoc_lookup_length.
Qed.

(** A class found before a class of a free name is created is the class
    found after: the new class comes last and bears another name. *)
Lemma findClassByName_with_class_old s C n id :
  is_Some (rootPackage s) → classes_on_heap s →
  findClassByName s (VStr C) = None →
  findClassByName s n = Some id →
  findClassByName (with_class s (VStr C)) n = Some id.
Proof.
  intros Hpackage Hheap Hfresh Hfind. unfold findClassByName in *.
  rewrite getAllClasses_with_class, keep_last_snoc by done.
  rewrite className_of_with_class_new. cbn [as_created].
  destruct (strict_eq (VStr C) n) eqn:Hname.
  - destruct n; try done. cbn in Hname. apply String.eqb_eq in Hname as <-.
    congruence.
  - rewrite <- Hfind. apply keep_last_agree.
    intros j Hj. by rewrite className_of_with_class_old by (by apply Hheap).
Qed.

Lemma findClassByName_with_class_new s C :
  is_Some (rootPackage s) →
  findClassByName (with_class s (VStr C)) (VStr C) = Some (length (heap s)).
Proof.
  intros Hpackage. unfold findClassByName.
  rewrite getAllClasses_with_class, keep_last_snoc by done.
  rewrite className_of_with_class_new. cbn [as_created].
  by rewrite strict_eq_string_refl.
Qed.

Lemma features_of_with_class_new s className :
  features_of (with_class s className) (length (heap s)) = [].
Proof. unfold features_of, with_class. cbn. by rewrite snoc_lookup_length. Qed.

Lemma heap_with_class_new s className :
  is_Some (heap (with_class s className) !! length (heap s)).
Proof. unfold with_class. cbn. rewrite snoc_lookup_length. by eexists. Qed.

Lemma heap_with_feature s id feature j :
  is_Some (heap s !! j) → is_Some (heap (with_feature s id feature) !! j).
Proof.
  intros [c Hc]. unfold with_feature. cbn.
  destruct (decide (id = j)) as [->|Hne].
  - rewrite list_lookup_alter_eq, Hc. by eexists.
  - rewrite list_lookup_alter_ne by done. by eexists.
Qed.

(** ** The messages of the errors *)

Lemma populated_ret {A} (a : A) : throws_populated (mret a).
Proof. intros s message s' Hcall. discriminate Hcall. Qed.

Lemma populated_throw {A} message : message ≠ "" → throws_populated (@throw A message).
Proof. intros Hne s message' s' Hcall. injection Hcall as <- _. exact Hne. Qed.

Lemma populated_ill_typed {A} : throws_populated (@ill_typed A).
Proof. intros s message s' Hcall. discriminate Hcall. Qed.

Lemma populated_read {A} (f : MetamodelLoader → A) : throws_populated (read f).
Proof. intros s message s' Hcall. discriminate Hcall. Qed.

Lemma populated_update f : throws_populated (update f).
Proof. intros s message s' Hcall. discriminate Hcall. Qed.

Lemma populated_bind {A B} (call : M A) (rest : A → M B) :
  throws_populated call → (∀ a, throws_populated (rest a)) →
  throws_populated (call ≫= rest).
Proof.
  intros Hcall Hrest s message s' Hthrows. unfold mbind, M_bind in Hthrows.
  destruct (call s) as [a s1|message1 s1|] eqn:Hfirst.
  - by eapply Hrest.
  - injection Hthrows as <- _. by eapply Hcall.
  - discriminate Hthrows.
Qed.

Lemma populated_forEach {A} (l : list A) body :
  (∀ x, throws_populated (body x)) → throws_populated (forEach l body).
Proof.
  intros Hbody. induction l as [|x l IH]; cbn.
  - apply populated_ret.
  - apply populated_bind; [apply Hbody | intros _; apply IH].
Qed.

Lemma append_populated a b : a ≠ "" → (a ++ b) ≠ "".
Proof. by destruct a. Qed.

Lemma TypeError_get_populated what v : TypeError_get what v ≠ "".
Proof.
  destruct v; cbn; try discriminate; destruct what; discriminate.
Qed.

Ltac populated :=
  repeat first
    [ apply populated_ret
    | apply populated_read
    | apply populated_update
    | apply populated_ill_typed
    | apply populated_throw; first [ discriminate | apply TypeError_get_populated ]
    | apply populated_forEach; intros ?
    | apply populated_bind; [| intros ?]
    | match goal with
      | |- throws_populated (match ?x with _ => _ end) => destruct x
      end ].

(** ** The batch applier *)

Section ApplyFacts.

Variable Ecore : string → option string.

Lemma apply_one_keeps_queues ref result m result' m' :
  apply_one Ecore ref (result, m) = Some (result', m') →
  length (evolutionOperations m') = length (evolutionOperations m) ∧
  ambiguities m' = ambiguities m ∧ pendingChanges m' = pendingChanges m.
Proof.
  unfold apply_one. destruct (evolutionOperations m !! ref); [|discriminate]. cbn.
  destruct (_applyOperation _ _ _); intros [= <- <-]; cbn;
    by rewrite length_insert.
Qed.

Lemma apply_each_keeps_queues pending result m result' m' :
  apply_each Ecore pending (result, m) = Some (result', m') →
  length (evolutionOperations m') = length (evolutionOperations m) ∧
  ambiguities m' = ambiguities m ∧ pendingChanges m' = pendingChanges m.
Proof.
  revert result m.
  induction pending as [|ref pending IH]; intros result m; cbn [apply_each].
  - by intros [= <- <-].
  - destruct (apply_one Ecore ref (result, m)) as [[result1 m1]|] eqn:Hone;
      cbn; [|discriminate]. intros Hrest.
    apply apply_one_keeps_queues in Hone as (Hlength & Hambiguities & Hpending).
    apply IH in Hrest. by rewrite <- Hlength, <- Hambiguities, <- Hpending.
Qed.

Lemma apply_keeps_references m result m' :
  references_in_ledger m →
  applyPendingChanges Ecore m = Some (result, m') →
  references_in_ledger m'.
Proof.
  intros [Hambiguities Hpending]. unfold applyPendingChanges.
  destruct (0 <? length (ambiguities m))%nat; [by intros [= <- <-]|].
  destruct (apply_each _ _ _) as [[result1 m1]|] eqn:Heach; cbn; [|discriminate].
  intros [= <- <-].
  apply apply_each_keeps_queues in Heach as (Hlength & Hsame & _).
  split; cbn; [|constructor]. by rewrite Hlength, Hsame.
Qed.

(** C4: while the ambiguity set is not empty, [applyPendingChanges] returns
    a failure whose only error cites the number of unresolved ambiguities,
    and the manager is left as it was: nothing is applied to the loader, no
    operation changes status, the pending queue is untouched. *)
Theorem apply_refused_while_ambiguous m :
  ambiguities m ≠ [] →
  applyPendingChanges Ecore m =
    Some (mkApplyResult false [] []
            [ "There are " ++ pretty (length (ambiguities m))
              ++ " unresolved ambiguities. Please resolve them before applying changes." ],
          m).
Proof.
  intros Hambiguities. unfold applyPendingChanges.
  destruct (ambiguities m); [done|]. reflexivity.
Qed.

(** One turn of the loop on an operation that applies. *)
Lemma apply_one_returns ref result m operation s :
  evolutionOperations m !! ref = Some operation →
  _applyOperation Ecore operation (loader m) = Returns () s →
  apply_one Ecore ref (result, m) =
    Some (mkApplyResult (success result) (appliedChanges result ++ [ref])%list
            (failedChanges result) (errors result),
          mkManager s
            (<[ref := set_status "applied" (Operation.error operation) operation]>
               (evolutionOperations m))
            (ambiguities m) (pendingChanges m)).
Proof. intros Hop Happly. unfold apply_one. rewrite Hop. cbn. by rewrite Happly. Qed.

(** One turn of the loop on an operation whose application throws. *)
Lemma apply_one_throws ref result m operation message s :
  evolutionOperations m !! ref = Some operation →
  _applyOperation Ecore operation (loader m) = Throws message s →
  apply_one Ecore ref (result, m) =
    Some (mkApplyResult false (appliedChanges result)
            (failedChanges result ++ [ref])%list
            (errors result ++ [("Failed to apply operation: " ++ message)%string])%list,
          mkManager s
            (<[ref := set_status "failed" (Some message) operation]>
               (evolutionOperations m))
            (ambiguities m) (pendingChanges m)).
Proof. intros Hop Happly. unfold apply_one. rewrite Hop. cbn. by rewrite Happly. Qed.

(** Whatever makes the application of an operation throw, the message is
    not empty. *)
Lemma createClass_populated className : throws_populated (createClass className).
Proof.
  intros s message s' Hcall. unfold createClass in Hcall.
  destruct (rootPackage s); [|by injection Hcall as <- _].
  destruct (findClassByName s className); [|discriminate Hcall].
  by injection Hcall as <- _.
Qed.

Lemma addAttribute_populated eClass attributeName attributeType lowerBound upperBound :
  throws_populated
    (addAttribute Ecore eClass attributeName attributeType lowerBound upperBound).
Proof. unfold addAttribute, set_class. populated. Qed.

Lemma addReference_populated sourceClass targetClass referenceName containment
    lowerBound upperBound :
  throws_populated
    (addReference sourceClass targetClass referenceName containment lowerBound
       upperBound).
Proof. unfold addReference, set_class. populated. Qed.

Lemma applyOperation_populated operation :
  throws_populated (_applyOperation Ecore operation).
Proof.
  unfold _applyOperation.
  destruct (Operation.metamodelOperation operation) as [metamodelOp|];
    [|by apply populated_throw].
  destruct (metamodelOp !!! "action") as [| | | |action|];
    try (by apply populated_throw).
  unfold appliers. cbn [switch].
  repeat match goal with
    | |- context [if String.eqb action ?label then _ else _] =>
        destruct (String.eqb action label)
    end;
    try (by apply populated_throw).
  - unfold _applyAddClass. apply populated_bind; [apply createClass_populated|].
    intros _. apply populated_ret.
  - apply addAttribute_populated.
  - apply addReference_populated.
  - unfold _applyRemoveClass, find_or_throw. populated.
  - unfold _applyRemoveAttribute, find_or_throw, find_feature_or_throw, set_class.
    populated.
  - unfold _applyRemoveReference, find_or_throw, find_feature_or_throw, set_class.
    populated.
  - unfold _applyModifyClass, find_or_throw, set_class, when. populated.
  - unfold _applyModifyAttribute, find_or_throw, find_feature_or_throw, set_class, when.
    populated.
  - unfold _applyModifyReference, find_or_throw, find_feature_or_throw, set_class, when.
    populated.
Qed.
(** C3: with no ambiguity left and a pending queue of two operations, one
    that applies and one whose application throws, in either order,
    [applyPendingChanges] reports the first as applied and the second as
    failed, with [success] false and one error; the valid operation gets the
    status applied, the invalid one the status failed and the message of the
    error, which is not empty, and the loader is the one reached by applying
    both in turn. *)
Theorem apply_isolates_a_failure m first second valid invalid
    operation_v operation_i s1 s2 message :
  ambiguities m = [] →
  pendingChanges m = [first; second] →
  valid ≠ invalid →
  evolutionOperations m !! valid = Some operation_v →
  evolutionOperations m !! invalid = Some operation_i →
  (first = valid ∧ second = invalid ∧
   _applyOperation Ecore operation_v (loader m) = Returns () s1 ∧
   _applyOperation Ecore operation_i s1 = Throws message s2) ∨
  (first = invalid ∧ second = valid ∧
   _applyOperation Ecore operation_i (loader m) = Throws message s1 ∧
   _applyOperation Ecore operation_v s1 = Returns () s2) →
  ∃ m',
    applyPendingChanges Ecore m =
      Some (mkApplyResult false [valid] [invalid]
              [("Failed to apply operation: " ++ message)%string], m') ∧
    loader m' = s2 ∧
    evolutionOperations m' !! valid =
      Some (set_status "applied" (Operation.error operation_v) operation_v) ∧
    evolutionOperations m' !! invalid =
      Some (set_status "failed" (Some message) operation_i) ∧
    message ≠ "" ∧
    pendingChanges m' = [] ∧
    ambiguities m' = [].
Proof.
  intros Hambiguities Hpending Hne Hvalid Hinvalid Horder.
  assert (message ≠ "") as Hmessage
    by (destruct Horder as [(_ & _ & _ & Hthrows) | (_ & _ & Hthrows & _)];
        by eapply applyOperation_populated).
  assert (valid < length (evolutionOperations m))%nat as Hlt_v
    by (by eapply lookup_lt_Some).
  assert (invalid < length (evolutionOperations m))%nat as Hlt_i
    by (by eapply lookup_lt_Some).
  unfold applyPendingChanges. rewrite Hambiguities, Hpending. cbn [length Nat.ltb Nat.leb].
  destruct Horder as [(-> & -> & Hfirst & Hsecond) | (-> & -> & Hfirst & Hsecond)].
  - cbn [apply_each]. erewrite apply_one_returns by eassumption. cbn [mbind option_bind].
    erewrite apply_one_throws; cycle 1.
    { cbn. rewrite list_lookup_insert_ne by done. eassumption. }
    { eassumption. }
    cbn. eexists. split; [reflexivity|]. cbn.
    split; [done|]. split; [|split; [|done]].
    + rewrite list_lookup_insert_ne by done. apply list_lookup_insert_eq. done.
    + apply list_lookup_insert_eq. by rewrite length_insert.
  - cbn [apply_each]. erewrite apply_one_throws by eassumption. cbn [mbind option_bind].
    erewrite apply_one_returns; cycle 1.
    { cbn. rewrite list_lookup_insert_ne by done. eassumption. }
    { eassumption. }
    cbn. eexists. split; [reflexivity|]. cbn.
    split; [done|]. split; [|split; [|done]].
    + apply list_lookup_insert_eq. by rewrite length_insert.
    + rewrite list_lookup_insert_ne by done. apply list_lookup_insert_eq. done.
Qed.

Lemma applyOperation_case operation metamodelOp action apply :
  Operation.metamodelOperation operation = Some metamodelOp →
  metamodelOp !!! "action" = VStr action →
  switch action (appliers Ecore) = Some apply →
  _applyOperation Ecore operation = apply metamodelOp.
Proof.
  intros Hmo Haction Hcase. unfold _applyOperation. by rewrite Hmo, Haction, Hcase.
Qed.

Lemma default_param_or_else a d d' :
  defined d = true → default_param (or_else a d) d' = or_else a d.
Proof.
  intros Hd. unfold default_param, or_else.
  destruct (truthy a) eqn:Ha; [|by rewrite Hd]. by destruct a.
Qed.

Lemma addAttribute_returns s C name t dataType lowerBound upperBound targetClass :
  findClassByName s (VStr C) = Some targetClass →
  Ecore t = Some dataType →
  addAttribute Ecore (VStr C) name (VStr t) lowerBound upperBound s =
    Returns () (with_feature s targetClass
                  (Attribute (EAttribute.mk (as_created name) dataType
                                (default_param lowerBound (VNum 0))
                                (default_param upperBound (VNum 1))))).
Proof.
  intros Hclass Htype. unfold addAttribute. cbn.
  unfold mbind, M_bind, read. rewrite Hclass. cbn. rewrite Htype. reflexivity.
Qed.

Lemma addReference_returns s C T name containment lowerBound upperBound
    sourceClass targetClass :
  findClassByName s (VStr C) = Some sourceClass →
  findClassByName s (VStr T) = Some targetClass →
  addReference (VStr C) (VStr T) name containment lowerBound upperBound s =
    Returns () (with_feature s sourceClass
                  (Reference (EReference.mk (as_created name) targetClass
                                (as_containment
                                   (default_param containment (VBool false)))
                                (default_param lowerBound (VNum 0))
                                (default_param upperBound (VNum 1))))).
Proof.
  intros Hsource Htarget. unfold addReference. cbn.
  unfold mbind, M_bind, read. rewrite Hsource. cbn. rewrite Htarget. reflexivity.
Qed.

(** The application of the operation built for an added attribute. *)
Lemma apply_added_attribute s s' details C t dataType targetClass modelChange :
  details !!! "className" = VStr C →
  or_else (details !!! "type") (VStr "EString") = VStr t →
  Ecore t = Some dataType →
  findClassByName s' (VStr C) = Some targetClass →
  _applyOperation Ecore
    (pending_operation modelChange (_createAddAttributeOperation s details)) s' =
  Returns () (with_feature s' targetClass
                (Attribute (EAttribute.mk (as_created (details !!! "name")) dataType
                              (or_else (details !!! "lowerBound") (VNum 0))
                              (or_else (details !!! "upperBound") (VNum 1))))).
Proof.
  intros HclassName Htype Hdata Hclass.
  destruct (add_attribute_fields s details)
    as (Haction & Hf1 & Hf2 & Hf3 & Hf4 & Hf5).
  erewrite applyOperation_case; [|reflexivity|exact Haction|reflexivity].
  unfold _applyAddAttribute. rewrite Hf1, Hf2, Hf3, Hf4, Hf5, HclassName, Htype.
  erewrite addAttribute_returns by eassumption.
  by rewrite !default_param_or_else.
Qed.

Lemma snoc_lookup_at {A} (l : list A) x n : n = length l → (l ++ [x])%list !! n = Some x.
Proof. intros ->. apply snoc_lookup_length. Qed.

Lemma some_attribute_snoc name l info :
  some_attribute name (l ++ [info])%list =
  some_attribute name l || strict_eq (attr_name info) name.
Proof. unfold some_attribute. rewrite existsb_app. cbn. by rewrite orb_false_r. Qed.

(** The flag of the operation built for an added attribute follows what
    the class holds. *)
Lemma add_attribute_interpreted s details C A targetClass :
  details !!! "className" = VStr C → C ≠ "" →
  details !!! "name" = VStr A → A ≠ "" →
  findClassByName s (VStr C) = Some targetClass →
  let operation := _createAddAttributeOperation s details in
  if some_attribute (VStr A) (getClassAttributes s targetClass) then
    truthy (operation !!! "ambiguous") = true ∧
    operation !!! "ambiguityReason" =
      VStr ("Attribute " ++ A ++ " already exists in class " ++ C)
  else truthy (operation !!! "ambiguous") = false.
Proof.
  intros HclassName HC Hname HA Hclass. cbv zeta.
  pose proof (add_attribute_flag s details targetClass) as Hflag.
  cbv zeta in Hflag. rewrite HclassName, Hname in Hflag.
  destruct (some_attribute _ _).
  - destruct Hflag as [-> ->]; [by apply truthy_string..|done|done].
  - rewrite Hflag; [done|by apply truthy_string..|done].
Qed.

(** The class after the attribute was added to it. *)
Lemma added_attribute_is_found s targetClass A dataType lowerBound upperBound :
  is_Some (heap s !! targetClass) →
  some_attribute (VStr A)
    (getClassAttributes
       (with_feature s targetClass
          (Attribute (EAttribute.mk (VStr A) dataType lowerBound upperBound)))
       targetClass) = true.
Proof.
  intros Hheap. rewrite getClassAttributes_with_attribute by done.
  rewrite some_attribute_snoc. cbn [attr_name EAttribute.name].
  rewrite strict_eq_string_refl. apply orb_true_r.
Qed.

(** C8: the check of an added attribute reads the schema and nothing of the
    ledger.  For a class that has no attribute of the name, and whatever
    the ledger and its two queues hold, the change that adds the attribute
    is interpreted as pending, and interpreted a second time before
    anything is applied it is pending again.  Once the first operation has
    been applied to the schema, the same change is interpreted as
    ambiguous by every manager on that schema, whatever its ledger holds.
    In the session that starts from empty queues, [applyPendingChanges]
    applies the two operations and the third interpretation is the one
    ambiguity. *)
Theorem add_attribute_ambiguity_follows_the_store m details C A targetClass :
  details !!! "className" = VStr C → C ≠ "" →
  details !!! "name" = VStr A → A ≠ "" →
  findClassByName (loader m) (VStr C) = Some targetClass →
  some_attribute (VStr A) (getClassAttributes (loader m) targetClass) = false →
  let change := ModelChange.mk (VStr "add") (VStr "attribute") details in
  let first := length (evolutionOperations m) in
  let second := S first in
  let m1 := (interpretModelChange change m).2 in
  let m2 := (interpretModelChange change m1).2 in
  (∃ operation1 operation2,
     evolutionOperations m2 !! first = Some operation1 ∧
     evolutionOperations m2 !! second = Some operation2 ∧
     Operation.ambiguous operation1 = false ∧
     Operation.ambiguous operation2 = false ∧
     Operation.status operation1 = "pending" ∧
     Operation.status operation2 = "pending" ∧
     pendingChanges m2 = (pendingChanges m ++ [first; second])%list ∧
     ambiguities m2 = ambiguities m ∧
     ∀ t dataType,
       or_else (details !!! "type") (VStr "EString") = VStr t →
       Ecore t = Some dataType →
       ∃ s',
         _applyOperation Ecore operation1 (loader m) = Returns () s' ∧
         ∀ m3, loader m3 = s' →
           let third := length (evolutionOperations m3) in
           let m4 := (interpretModelChange change m3).2 in
           ∃ operation3,
             evolutionOperations m4 !! third = Some operation3 ∧
             Operation.ambiguous operation3 = true ∧
             Operation.ambiguityReason operation3 =
               VStr ("Attribute " ++ A ++ " already exists in class " ++ C) ∧
             ambiguities m4 = (ambiguities m3 ++ [third])%list ∧
             pendingChanges m4 = pendingChanges m3) ∧
  (ambiguities m = [] → pendingChanges m = [] →
   ∀ t dataType,
     or_else (details !!! "type") (VStr "EString") = VStr t →
     Ecore t = Some dataType →
     ∃ result m3,
       applyPendingChanges Ecore m2 = Some (result, m3) ∧
       appliedChanges result = [first; second] ∧
       (Operation.status <$> evolutionOperations m3 !! first) = Some "applied" ∧
       let third := S second in
       let m4 := (interpretModelChange change m3).2 in
       ∃ operation3,
         evolutionOperations m4 !! third = Some operation3 ∧
         Operation.ambiguous operation3 = true ∧
         Operation.ambiguityReason operation3 =
           VStr ("Attribute " ++ A ++ " already exists in class " ++ C) ∧
         ambiguities m4 = [third] ∧
         pendingChanges m4 = []).
Proof.
  intros HclassName HC Hname HA Hclass Hlacks. cbv zeta.
  set (change := ModelChange.mk (VStr "add") (VStr "attribute") details).
  destruct (findClassByName_found _ _ _ Hclass) as (_ & _ & Hheap).
  assert (∀ m', loader m' = loader m →
    truthy (_createAddAttributeOperation (loader m') details !!! "ambiguous") = false)
    as Hfirst.
  { intros m' ->.
    pose proof (add_attribute_interpreted (loader m) details C A targetClass
                  HclassName HC Hname HA Hclass) as Hflag.
    cbv zeta in Hflag. by rewrite Hlacks in Hflag. }
  assert (∀ m3,
    findClassByName (loader m3) (VStr C) = Some targetClass →
    some_attribute (VStr A) (getClassAttributes (loader m3) targetClass) = true →
    ∃ operation3,
      evolutionOperations (interpretModelChange change m3).2
        !! length (evolutionOperations m3) = Some operation3 ∧
      Operation.ambiguous operation3 = true ∧
      Operation.ambiguityReason operation3 =
        VStr ("Attribute " ++ A ++ " already exists in class " ++ C) ∧
      ambiguities (interpretModelChange change m3).2
        = (ambiguities m3 ++ [length (evolutionOperations m3)])%list ∧
      pendingChanges (interpretModelChange change m3).2 = pendingChanges m3)
    as Hthird.
  { intros m3 Hclass3 Hsome.
    pose proof (add_attribute_interpreted (loader m3) details C A targetClass
                  HclassName HC Hname HA Hclass3) as Hflag.
    cbv zeta in Hflag. rewrite Hsome in Hflag. destruct Hflag as [Hflag Hreason].
    erewrite (interpret_files_ambiguous change _ _ eq_refl) by exact Hflag.
    cbn [snd loader evolutionOperations ambiguities pendingChanges].
    eexists. split; [apply snoc_lookup_length|].
    cbn. split; [done|]. split; [exact Hreason|]. by split. }
  rewrite (interpret_files_pending change m _ eq_refl) by (by apply Hfirst).
  cbn [snd fst].
  rewrite (interpret_files_pending change _ _ eq_refl) by (by apply Hfirst).
  cbn [snd fst loader evolutionOperations ambiguities pendingChanges
       ModelChange.details change].
  rewrite length_app. cbn [length]. rewrite Nat.add_1_r.
  set (L := evolutionOperations m).
  set (o1 := pending_operation change (_createAddAttributeOperation (loader m) details)).
  split.
  { exists o1, o1. split_and!; [| |done..| |done|].
    - rewrite lookup_app_l by (rewrite length_app; cbn; lia). apply snoc_lookup_length.
    - apply snoc_lookup_at. rewrite length_app. cbn. lia.
    - by rewrite <- app_assoc.
    - intros t dataType Htype Hdata. eexists. split.
      { eapply apply_added_attribute; eassumption. }
      intros m3 Hloader. cbv zeta. rewrite Hname in Hloader.
      cbn [as_created] in Hloader. apply Hthird; rewrite Hloader.
      + by rewrite findClassByName_with_feature.
      + by apply added_attribute_is_found. }
  intros Hambiguities Hpending t dataType Htype Hdata.
  rewrite Hambiguities, Hpending. cbn [app].
  unfold applyPendingChanges.
  cbn [ambiguities pendingChanges length Nat.ltb Nat.leb apply_each].
  erewrite apply_one_returns; cycle 1.
  { cbn [evolutionOperations].
    rewrite lookup_app_l by (rewrite length_app; cbn; lia). apply snoc_lookup_length. }
  { cbn [loader]. eapply apply_added_attribute; eassumption. }
  cbn [mbind option_bind].
  erewrite apply_one_returns; cycle 1.
  { cbn [evolutionOperations]. rewrite list_lookup_insert_ne by lia.
    apply snoc_lookup_at. rewrite length_app. cbn. lia. }
  { cbn [loader]. eapply apply_added_attribute; try eassumption.
    by rewrite findClassByName_with_feature. }
  cbn [mbind option_bind]. do 2 eexists. split; [reflexivity|].
  cbn [appliedChanges app loader evolutionOperations ambiguities pendingChanges
       Operation.error o1 pending_operation].
  split; [done|]. split.
  { rewrite list_lookup_insert_ne by lia. rewrite list_lookup_insert_eq; [done|].
    rewrite !length_app. cbn. lia. }
  rewrite Hname. cbn [as_created].
  set (s2 := with_feature (with_feature _ _ _) _ _).
  match goal with
  | |- context [interpretModelChange change ?after] =>
      destruct (Hthird after) as (operation3 & Hop3 & Hflag3 & Hreason3 & Hamb3 & Hpend3)
  end.
  { unfold s2. cbn [loader]. by rewrite !findClassByName_with_feature. }
  { unfold s2. cbn [loader]. apply added_attribute_is_found.
    by apply heap_with_feature. }
  exists operation3.
  cbn [evolutionOperations ambiguities pendingChanges] in Hop3, Hamb3, Hpend3.
  rewrite !length_insert, !length_app in Hop3, Hamb3. cbn [length] in Hop3, Hamb3.
  rewrite !Nat.add_1_r in Hop3, Hamb3.
  by split_and!.
Qed.

Lemma apply_added_class s s' details modelChange :
  is_Some (rootPackage s') →
  findClassByName s' (details !!! "name") = None →
  _applyOperation Ecore
    (pending_operation modelChange (_createAddClassOperation s details)) s' =
  Returns () (with_class s' (details !!! "name")).
Proof.
  intros Hpackage Hfresh.
  destruct (add_class_fields s details) as (Haction & Hf1).
  erewrite applyOperation_case; [|reflexivity|exact Haction|reflexivity].
  unfold _applyAddClass. rewrite Hf1. unfold mbind, M_bind.
  by rewrite createClass_returns.
Qed.

Lemma apply_added_reference s s' details C T sourceClass targetClass modelChange :
  details !!! "sourceClassName" = VStr C →
  details !!! "targetClassName" = VStr T →
  findClassByName s' (VStr C) = Some sourceClass →
  findClassByName s' (VStr T) = Some targetClass →
  _applyOperation Ecore
    (pending_operation modelChange (_createAddReferenceOperation s details)) s' =
  Returns () (with_feature s' sourceClass
                (Reference (EReference.mk (as_created (details !!! "name")) targetClass
                              (as_containment
                                 (or_else (details !!! "containment") (VBool false)))
                              (or_else (details !!! "lowerBound") (VNum 0))
                              (or_else (details !!! "upperBound") (VNum 1))))).
Proof.
  intros Hsource Htarget HsourceClass HtargetClass.
  destruct (add_reference_fields s details)
    as (Haction & Hf1 & Hf2 & Hf3 & Hf4 & Hf5 & Hf6).
  erewrite applyOperation_case; [|reflexivity|exact Haction|reflexivity].
  unfold _applyAddReference.
  rewrite Hf1, Hf2, Hf3, Hf4, Hf5, Hf6, Hsource, Htarget.
  erewrite addReference_returns by eassumption.
  by rewrite !default_param_or_else.
Qed.

Lemma applyPendingChanges_unresolved_none m :
  ambiguities m = [] →
  applyPendingChanges Ecore m =
    '(result, m') ← apply_each Ecore (pendingChanges m)
                      (mkApplyResult true [] [] [], m);
    Some (result,
          mkManager (loader m') (evolutionOperations m') (ambiguities m') []).
Proof. intros Hnone. unfold applyPendingChanges. by rewrite Hnone. Qed.

(** A lower bound that is a number is kept, 0 included. *)
Lemma or_else_bound n : or_else (VNum n) (VNum 0) = VNum n.
Proof. unfold or_else. cbn. destruct (Z.eqb_spec n 0) as [->|]; done. Qed.

Lemma or_else_flag b : or_else (VBool b) (VBool false) = VBool b.
Proof. by destruct b. Qed.

(** An upper bound that is a number is kept unless it is 0, which the
    default 1 replaces. *)
Lemma or_else_upper n :
  or_else (VNum n) (VNum 1) = VNum (if (n =? 0)%Z then 1 else n).
Proof. unfold or_else. cbn. by destruct (n =? 0)%Z. Qed.

(** C6: on a loaded schema where the class name is free, adding the class
    and applying, then adding two attributes and a reference, to a class
    that exists or to the new class itself, and applying, leaves four
    applied operations and a class whose attributes and references are
    exactly those three features, each with the lower bound of its change,
    and with the upper bound of its change when that is not 0 (so with -1
    when -1 was given) and with the upper bound 1 when it is 0. *)
Theorem round_trip_keeps_bounds_but_zero_upper s C T
    A1 t1 dataType1 l1 u1 A2 t2 dataType2 l2 u2 R containment l3 u3 :
  is_Some (rootPackage s) →
  classes_on_heap s →
  C ≠ "" → findClassByName s (VStr C) = None →
  T ≠ "" → T = C ∨ is_Some (findClassByName s (VStr T)) →
  A1 ≠ "" → t1 ≠ "" → Ecore t1 = Some dataType1 →
  A2 ≠ "" → t2 ≠ "" → Ecore t2 = Some dataType2 →
  R ≠ "" →
  round_trip_yields Ecore s (add_class C)
    [ add_attribute C A1 t1 l1 u1; add_attribute C A2 t2 l2 u2;
      add_reference C T R containment l3 u3 ]
    C
    [ mkAttributeInfo (VStr A1) (VStr dataType1) (VNum l1)
        (VNum (if (u1 =? 0)%Z then 1 else u1));
      mkAttributeInfo (VStr A2) (VStr dataType2) (VNum l2)
        (VNum (if (u2 =? 0)%Z then 1 else u2)) ]
    [ mkReferenceInfo (VStr R) (VStr T) (VBool containment) (VNum l3)
        (VNum (if (u3 =? 0)%Z then 1 else u3)) ].
Proof.
  intros Hpackage Hheap HC Hfresh HT Htarget HA1 Hn1 Ht1 HA2 Hn2 Ht2 HR.
  unfold round_trip_yields, round_trip.
  (* the class *)
  rewrite (interpret_files_pending (add_class C) _ _ eq_refl); cycle 1.
  { cbn [loader newManager ModelChange.details add_class].
    rewrite add_class_flag; [done|by apply truthy_string|done]. }
  cbn [snd newManager loader evolutionOperations ambiguities pendingChanges app length].
  rewrite applyPendingChanges_unresolved_none by reflexivity.
  cbn [pendingChanges apply_each].
  erewrite apply_one_returns; cycle 1.
  { reflexivity. }
  { cbn [loader]. apply apply_added_class; [done|]. exact Hfresh. }
  cbn [mbind option_bind loader evolutionOperations ambiguities pendingChanges
       ModelChange.details add_class].
  change ((({[ "name" := VStr C ]} : object) !!! "name")) with (VStr C).
  set (s1 := with_class s (VStr C)).
  set (id := length (heap s)).
  assert (findClassByName s1 (VStr C) = Some id) as Hclass1
    by (by apply findClassByName_with_class_new).
  assert (∃ target, findClassByName s1 (VStr T) = Some target)
    as [target Htarget1].
  { destruct Htarget as [->|[target Htarget]]; [by exists id|].
    exists target. by apply findClassByName_with_class_old. }
  assert (is_Some (heap s1 !! id)) as Hid1 by apply heap_with_class_new.
  assert (getClassAttributes s1 id = []) as Hattributes1.
  { unfold getClassAttributes, s1, id. by rewrite features_of_with_class_new. }
  assert (getClassReferences s1 id = []) as Hreferences1.
  { unfold getClassReferences, s1, id. by rewrite features_of_with_class_new. }
  (* its features are interpreted *)
  cbn [interpret_all fold_left].
  rewrite (interpret_files_pending (add_attribute C A1 t1 l1 u1) _ _ eq_refl); cycle 1.
  { cbn [loader].
    pose proof (add_attribute_flag s1
                  (ModelChange.details (add_attribute C A1 t1 l1 u1)) id) as Hflag.
    cbv zeta in Hflag. change (ModelChange.details (add_attribute C A1 t1 l1 u1) !!! "className") with (VStr C) in Hflag.
    change (ModelChange.details (add_attribute C A1 t1 l1 u1) !!! "name") with (VStr A1) in Hflag.
    rewrite Hattributes1 in Hflag. cbn [some_attribute existsb] in Hflag.
    rewrite Hflag; [done|by apply truthy_string..|done]. }
  cbn [snd loader evolutionOperations ambiguities pendingChanges app length].
  rewrite (interpret_files_pending (add_attribute C A2 t2 l2 u2) _ _ eq_refl); cycle 1.
  { cbn [loader].
    pose proof (add_attribute_flag s1
                  (ModelChange.details (add_attribute C A2 t2 l2 u2)) id) as Hflag.
    cbv zeta in Hflag. change (ModelChange.details (add_attribute C A2 t2 l2 u2) !!! "className") with (VStr C) in Hflag.
    change (ModelChange.details (add_attribute C A2 t2 l2 u2) !!! "name") with (VStr A2) in Hflag.
    rewrite Hattributes1 in Hflag. cbn [some_attribute existsb] in Hflag.
    rewrite Hflag; [done|by apply truthy_string..|done]. }
  cbn [snd loader evolutionOperations ambiguities pendingChanges app length].
  rewrite (interpret_files_pending (add_reference C T R containment l3 u3) _ _ eq_refl);
    cycle 1.
  { cbn [loader].
    rewrite (add_reference_flag s1 _ id target); [done|..].
    - by apply truthy_string.
    - by apply truthy_string.
    - by apply truthy_string.
    - exact Hclass1.
    - exact Htarget1.
    - by rewrite Hreferences1. }
  cbn [snd loader evolutionOperations ambiguities pendingChanges app length].
  (* and applied *)
  rewrite applyPendingChanges_unresolved_none by reflexivity.
  cbn [pendingChanges apply_each].
  erewrite apply_one_returns; cycle 1.
  { reflexivity. }
  { cbn [loader]. eapply (apply_added_attribute s1 s1 _ C t1); [reflexivity| |exact Ht1|exact Hclass1].
    change (_ !!! "type") with (VStr t1).
    unfold or_else. by rewrite truthy_string. }
  cbn [mbind option_bind loader evolutionOperations].
  erewrite apply_one_returns; cycle 1.
  { reflexivity. }
  { cbn [loader]. eapply (apply_added_attribute s1 _ _ C t2); [reflexivity| |exact Ht2|].
    - change (_ !!! "type") with (VStr t2).
      unfold or_else. by rewrite truthy_string.
    - by rewrite findClassByName_with_feature. }
  cbn [mbind option_bind loader evolutionOperations].
  erewrite apply_one_returns; cycle 1.
  { reflexivity. }
  { cbn [loader]. eapply (apply_added_reference s1 _ _ C T); [reflexivity|reflexivity| |].
    - by rewrite !findClassByName_with_feature.
    - by rewrite !findClassByName_with_feature. }
  cbn [mbind option_bind loader evolutionOperations].
  eexists. exists id. split; [reflexivity|]. cbn [loader evolutionOperations].
  split; [|split; [|split]].
  - cbn -[_createAddClassOperation _createAddAttributeOperation
          _createAddReferenceOperation].
    repeat constructor.
  - rewrite !findClassByName_with_feature. exact Hclass1.
  - rewrite getClassAttributes_with_reference by (by do 2 apply heap_with_feature).
    rewrite getClassAttributes_with_attribute by (by apply heap_with_feature).
    rewrite getClassAttributes_with_attribute by done.
    rewrite Hattributes1. cbn [app EAttribute.name EAttribute.eType
      EAttribute.lowerBound EAttribute.upperBound].
    change (ModelChange.details (add_attribute C A1 t1 l1 u1) !!! "name")
      with (VStr A1).
    change (ModelChange.details (add_attribute C A1 t1 l1 u1) !!! "lowerBound")
      with (VNum l1).
    change (ModelChange.details (add_attribute C A1 t1 l1 u1) !!! "upperBound")
      with (VNum u1).
    change (ModelChange.details (add_attribute C A2 t2 l2 u2) !!! "name")
      with (VStr A2).
    change (ModelChange.details (add_attribute C A2 t2 l2 u2) !!! "lowerBound")
      with (VNum l2).
    change (ModelChange.details (add_attribute C A2 t2 l2 u2) !!! "upperBound")
      with (VNum u2).
    by rewrite !or_else_bound, !or_else_upper.
  - rewrite getClassReferences_with_reference by (by do 2 apply heap_with_feature).
    rewrite getClassReferences_with_attribute by (by apply heap_with_feature).
    rewrite getClassReferences_with_attribute by done.
    rewrite Hreferences1. cbn [app EReference.name EReference.eType
      EReference.containment EReference.lowerBound EReference.upperBound].
    rewrite !className_of_with_feature.
    destruct (findClassByName_found _ _ _ Htarget1) as (_ & -> & _).
    change (ModelChange.details (add_reference C T R containment l3 u3) !!! "name")
      with (VStr R).
    change (ModelChange.details (add_reference C T R containment l3 u3)
            !!! "containment") with (VBool containment).
    change (ModelChange.details (add_reference C T R containment l3 u3)
            !!! "lowerBound") with (VNum l3).
    change (ModelChange.details (add_reference C T R containment l3 u3)
            !!! "upperBound") with (VNum u3).
    by rewrite or_else_flag, or_else_bound, or_else_upper.
Qed.
End ApplyFacts.

(** ** The batch applier on the sample schemas *)

Lemma apply_refused_while_ambiguous_witness :
  let m := (interpretModelChange add_unnamed_class (newManager empty_package)).2 in
  ambiguities m = [0%nat] ∧
  applyPendingChanges two_data_types m =
    Some (mkApplyResult false [] []
            [ "There are 1 unresolved ambiguities. Please resolve them before applying changes." ],
          m).
Proof.
  split; [reflexivity|].
  exact (apply_refused_while_ambiguous two_data_types
           (interpretModelChange add_unnamed_class (newManager empty_package)).2
           ltac:(discriminate)).
Defined.

Lemma apply_isolates_a_failure_witness :
  pendingChanges untyped_age_then_Customer = [0%nat; 1%nat] ∧
  ∃ m',
    applyPendingChanges two_data_types untyped_age_then_Customer =
      Some (mkApplyResult false [1%nat] [0%nat]
              [ "Failed to apply operation: DataType EFoo not found" ], m') ∧
    (Operation.status <$> evolutionOperations m' !! 1%nat) = Some "applied" ∧
    (Operation.error <$> evolutionOperations m' !! 0%nat)
      = Some (Some "DataType EFoo not found").
Proof.
  split; [reflexivity|].
  edestruct (apply_isolates_a_failure two_data_types untyped_age_then_Customer
               0 1 1 0) as (m' & Hresult & _ & Hvalid & Hinvalid & _);
    [reflexivity | reflexivity | discriminate
    | vm_compute; reflexivity | vm_compute; reflexivity
    | right; repeat split; vm_compute; reflexivity |].
  exists m'. split; [exact Hresult|].
  rewrite Hvalid, Hinvalid. split; reflexivity.
Defined.

Lemma add_attribute_ambiguity_follows_the_store_witness :
  let change := ModelChange.mk (VStr "add") (VStr "attribute") age_of_Person in
  pendingChanges (interpret_all [change; change] untyped_age_then_Customer)
    = [0; 1; 2; 3]%nat ∧
  let m2 := interpret_all [change; change] (newManager people) in
  pendingChanges m2 = [0%nat; 1%nat] ∧
  ambiguities m2 = [] ∧
  ∃ result m3,
    applyPendingChanges two_data_types m2 = Some (result, m3) ∧
    ambiguities (interpretModelChange change m3).2 = [2%nat].
Proof.
  cbv zeta. split.
  - destruct (add_attribute_ambiguity_follows_the_store two_data_types
                untyped_age_then_Customer age_of_Person "Person" "age" 0
                eq_refl ltac:(discriminate) eq_refl ltac:(discriminate)
                eq_refl eq_refl)
      as [(_ & _ & _ & _ & _ & _ & _ & _ & Hpending & _) _].
    exact Hpending.
  - destruct (add_attribute_ambiguity_follows_the_store two_data_types
                (newManager people) age_of_Person "Person" "age" 0
                eq_refl ltac:(discriminate) eq_refl ltac:(discriminate)
                eq_refl eq_refl)
      as [(_ & _ & _ & _ & _ & _ & _ & _ & Hpending & Hambiguities & _) Hsession].
    split; [exact Hpending|]. split; [exact Hambiguities|].
    destruct (Hsession eq_refl eq_refl "EString" "EString" eq_refl eq_refl)
      as (result & m3 & Happly & _ & _ & operation3 & _ & _ & _ & Hthird & _).
    exists result, m3. split; [exact Happly | exact Hthird].
Defined.

Lemma people_classes_on_heap : classes_on_heap people.
Proof.
  intros id [<-|[<-|[]]]; cbn; lia.
Qed.

Lemma round_trip_keeps_bounds_but_zero_upper_witness :
  round_trip_yields two_data_types people (add_class "Customer")
    [ Customer_tags; Customer_name; Customer_parent ] "Customer"
    [ mkAttributeInfo (VStr "tags") (VStr "EString") (VNum 0) (VNum 1);
      mkAttributeInfo (VStr "name") (VStr "EString") (VNum 1) (VNum 1) ]
    [ mkReferenceInfo (VStr "parent") (VStr "Customer") (VBool false)
        (VNum 0) (VNum (-1)) ].
Proof.
  apply (round_trip_keeps_bounds_but_zero_upper two_data_types people
           "Customer" "Customer" "tags" "EString" "EString" 0 0
           "name" "EString" "EString" 1 1 "parent" false 0 (-1));
    try discriminate; try reflexivity.
  - by eexists.
  - exact people_classes_on_heap.
  - by left.
Defined.

(** The claim C6 as it is worded fails on [tags]: the round trip on
    [people] goes through, every operation pending and then applied, and
    [getClassAttributes] returns [tags] with the upper bound 1 where the
    change gave 0. *)
Lemma round_trip_resets_zero_upper_bound :
  round_trip_yields two_data_types people (add_class "Customer")
    [ Customer_tags; Customer_id; Customer_contacts ] "Customer"
    [ mkAttributeInfo (VStr "tags") (VStr "EString") (VNum 0) (VNum 1);
      mkAttributeInfo (VStr "id") (VStr "EInt") (VNum 1) (VNum 1) ]
    [ mkReferenceInfo (VStr "contacts") (VStr "Person") (VBool false)
        (VNum 0) (VNum (-1)) ] ∧
  ¬ round_trip_yields two_data_types people (add_class "Customer")
      [ Customer_tags; Customer_id; Customer_contacts ] "Customer"
      [ mkAttributeInfo (VStr "tags") (VStr "EString") (VNum 0) (VNum 0);
        mkAttributeInfo (VStr "id") (VStr "EInt") (VNum 1) (VNum 1) ]
      [ mkReferenceInfo (VStr "contacts") (VStr "Person") (VBool false)
          (VNum 0) (VNum (-1)) ].
Proof.
  assert (∃ m, round_trip two_data_types people (add_class "Customer")
                 [ Customer_tags; Customer_id; Customer_contacts ] = Some m ∧
               Forall (λ operation, Operation.ambiguous operation = false
                                    ∧ Operation.status operation = "applied")
                      (evolutionOperations m) ∧
               findClassByName (loader m) (VStr "Customer") = Some 2%nat ∧
               getClassAttributes (loader m) 2 =
                 [ mkAttributeInfo (VStr "tags") (VStr "EString") (VNum 0) (VNum 1);
                   mkAttributeInfo (VStr "id") (VStr "EInt") (VNum 1) (VNum 1) ] ∧
               getClassReferences (loader m) 2 =
                 [ mkReferenceInfo (VStr "contacts") (VStr "Person") (VBool false)
                     (VNum 0) (VNum (-1)) ])
    as (m & Htrip & Hall & Hclass & Hattributes & Hreferences).
  { eexists. split; [vm_compute; reflexivity|].
    split; [repeat constructor|]. repeat split; reflexivity. }
  split.
  - exists m, 2%nat. repeat split; assumption.
  - intros (m' & cls & Htrip' & _ & Hclass' & Hattributes' & _).
    rewrite Htrip in Htrip'. injection Htrip' as <-.
    rewrite Hclass in Hclass'. injection Hclass' as <-.
    rewrite Hattributes in Hattributes'. discriminate Hattributes'.
Qed.

(** * Further properties of the loader and of the manager *)

(** ** The queries of the loader *)

Lemma keep_last_split {A} (test : A → bool) l x :
  keep_last test l = Some x →
  ∃ before after, l = (before ++ x :: after)%list ∧ test x = true ∧
                  ∀ y, In y after → test y = false.
Proof.
  induction l as [|y l IH] using rev_ind; [done|].
  rewrite keep_last_snoc. destruct (test y) eqn:Hy.
  - intros [= <-]. exists l, []. split; [done|]. split; [done|]. by intros z [].
  - intros (before & after & -> & Hx & Hafter)%IH.
    exists before, (after ++ [y])%list.
    split; [by rewrite <- app_assoc|]. split; [done|].
    intros z [Hz|[<-|[]]]%in_app_or; [by apply Hafter|done].
Qed.

Lemma strict_eq_string_false v n : strict_eq v (VStr n) = false ↔ v ≠ VStr n.
Proof.
  split.
  - intros Hne ->. by rewrite strict_eq_string_refl in Hne.
  - intros Hne. destruct (strict_eq v (VStr n)) eqn:Heq; [|done].
    by apply strict_eq_string in Heq.
Qed.

(** X1: [findClassByName] returns the last class of the package that bears
    the name: the class it returns bears the name and no class after it in
    [getAllClasses] does; it returns nothing exactly when no class of the
    package bears the name. *)
Theorem findClassByName_last_of_that_name s n :
  (∀ id, findClassByName s (VStr n) = Some id →
     ∃ before after,
       getAllClasses s = (before ++ id :: after)%list ∧
       className_of s id = VStr n ∧
       ∀ other, In other after → className_of s other ≠ VStr n) ∧
  (findClassByName s (VStr n) = None ↔
   ∀ id, In id (getAllClasses s) → className_of s id ≠ VStr n).
Proof.
  split.
  - intros id Hfind. apply keep_last_split in Hfind
      as (before & after & Hclasses & Hname & Hafter).
    exists before, after. split; [done|]. split; [by apply strict_eq_string|].
    intros other Hother. apply strict_eq_string_false. by apply Hafter.
  - unfold findClassByName. split.
    + intros Hnone id Hid. apply strict_eq_string_false.
      by eapply keep_last_none in Hnone.
    + intros Hno. apply keep_last_all_false. intros id Hid.
      apply strict_eq_string_false. by apply Hno.
Qed.

(** X2: every feature of a class is an entry of exactly one of
    [getClassAttributes] and [getClassReferences]: the two results together
    have as many entries as the class has features. *)
Theorem every_feature_is_reported_by_one_query s eClass :
  (length (getClassAttributes s eClass) + length (getClassReferences s eClass))%nat
  = length (features_of s eClass).
Proof.
  unfold getClassAttributes, getClassReferences.
  induction (features_of s eClass) as [|[a|r] l IH]; cbn; [done|lia|lia].
Qed.

(** X3: with a package loaded and no class of the name, [createClass]
    returns a new class that [findClassByName] then finds under the name,
    that comes last in [getAllClasses] and has no attribute and no
    reference; every class found before is still found under its name,
    with the attributes it had. *)
Theorem createClass_then_findClassByName s C :
  is_Some (rootPackage s) →
  classes_on_heap s →
  findClassByName s (VStr C) = None →
  ∃ s',
    createClass (VStr C) s = Returns (length (heap s)) s' ∧
    findClassByName s' (VStr C) = Some (length (heap s)) ∧
    getAllClasses s' = (getAllClasses s ++ [length (heap s)])%list ∧
    getClassAttributes s' (length (heap s)) = [] ∧
    getClassReferences s' (length (heap s)) = [] ∧
    classes_on_heap s' ∧
    ∀ name id, findClassByName s name = Some id →
               findClassByName s' name = Some id ∧
               getClassAttributes s' id = getClassAttributes s id.
Proof.
  intros Hpackage Hheap Hfresh. exists (with_class s (VStr C)).
  split; [by apply createClass_returns|].
  split; [by apply findClassByName_with_class_new|].
  split; [by apply getAllClasses_with_class|].
  split; [unfold getClassAttributes; by rewrite features_of_with_class_new|].
  split; [unfold getClassReferences; by rewrite features_of_with_class_new|].
  split.
  - intros id. rewrite getAllClasses_with_class by done.
    unfold with_class. cbn. rewrite length_app. cbn.
    intros Hid. apply in_app_or in Hid as [Hid|[<-|[]]]; [|lia].
    apply Hheap in Hid. lia.
  - intros name id Hfind. split; [by apply findClassByName_with_class_old|].
    apply keep_last_some in Hfind as [Hid _]. apply Hheap in Hid.
    unfold getClassAttributes, features_of, with_class. cbn.
    by rewrite lookup_app_l.
Qed.


Lemma reference_is_reported s cls r :
  In (Reference r) (features_of s cls) →
  In (mkReferenceInfo (EReference.name r) (className_of s (EReference.eType r))
        (EReference.containment r) (EReference.lowerBound r)
        (EReference.upperBound r))
     (getClassReferences s cls).
Proof.
  unfold getClassReferences.
  induction (features_of s cls) as [|[a|r'] l IH]; cbn; [done| |].
  - intros [?|Hin]; [done|auto].
  - intros [[= ->]|Hin]; [by left|right; auto].
Qed.

(** ** The builders and the interpreter *)

(** X4: each of the nine builders leaves its operation either not flagged,
    with [ambiguous] false and [ambiguityReason] null, or flagged, with
    [ambiguous] true and a reason that is a string and is not empty. *)
Theorem a_flagged_operation_carries_its_reason kind build s details :
  In (kind, build) builders →
  let operation := build s details in
  (operation !!! "ambiguous" = VBool false ∧
   operation !!! "ambiguityReason" = VNull) ∨
  (operation !!! "ambiguous" = VBool true ∧
   ∃ reason, operation !!! "ambiguityReason" = VStr reason ∧ reason ≠ "").
Proof.
  intros Hbuild. cbv zeta. unfold builders in Hbuild. cbn in Hbuild.
  repeat (destruct Hbuild as [[= <- <-]|Hbuild]); [..|done].
  all: unfold _createAddClassOperation, _createAddAttributeOperation,
         _createAddReferenceOperation, _createRemoveClassOperation,
         _createRemoveAttributeOperation, _createRemoveReferenceOperation,
         _createModifyClassOperation, _createModifyAttributeOperation,
         _createModifyReferenceOperation.
  all: builder_branches.
  all: first
    [ left; split; reflexivity
    | right; rewrite flag_ambiguous, flag_reason; split; [reflexivity|];
      eexists; split; [reflexivity|]; cbn; discriminate ].
Qed.

Lemma interpret_appends modelChange m :
  ∃ operation ambiguities' pendingChanges',
    interpretModelChange modelChange m =
      (length (evolutionOperations m),
       mkManager (loader m) (evolutionOperations m ++ [operation])%list
         ambiguities' pendingChanges') ∧
    Operation.details operation = ModelChange.details modelChange ∧
    Operation.metamodelOperation operation =
      (λ build, build (loader m) (ModelChange.details modelChange))
        <$> switch (kind_of modelChange) builders.
Proof.
  unfold interpretModelChange.
  destruct (switch _ _) as [build|]; cbn; [destruct (truthy _)|];
    do 3 eexists; split; try reflexivity; by split.
Qed.

(** X5: interpreting a batch of changes leaves the loader and the
    operations already in the ledger as they were and appends one
    operation per change, in order; the metamodel operation of each is the
    one its builder makes from the loader as it was before the batch, so
    that no change of the batch is checked against the effect of another,
    and a change of an unknown kind has none. *)
Theorem a_batch_is_validated_against_the_schema_before_it changes m :
  let m' := interpret_all changes m in
  loader m' = loader m ∧
  length (evolutionOperations m')
    = (length (evolutionOperations m) + length changes)%nat ∧
  (∀ ref operation, evolutionOperations m !! ref = Some operation →
                    evolutionOperations m' !! ref = Some operation) ∧
  ∀ k modelChange,
    changes !! k = Some modelChange →
    ∃ operation,
      evolutionOperations m' !! (length (evolutionOperations m) + k)%nat
        = Some operation ∧
      Operation.details operation = ModelChange.details modelChange ∧
      Operation.metamodelOperation operation =
        (λ build, build (loader m) (ModelChange.details modelChange))
          <$> switch (kind_of modelChange) builders.
Proof.
  cbv zeta. revert m. induction changes as [|change changes IH]; intros m.
  - cbn. split_and!; [done|lia|done|]. intros k modelChange Hk. done.
  - cbn [interpret_all fold_left].
    fold (interpret_all changes (interpretModelChange change m).2).
    destruct (interpret_appends change m)
      as (operation & ambiguities' & pendingChanges' & -> & Hdetails & Hbuilt).
    cbn [snd].
    destruct (IH (mkManager (loader m) (evolutionOperations m ++ [operation])%list
                    ambiguities' pendingChanges'))
      as (Hloader & Hlength & Hkept & Hbatch).
    cbn [loader evolutionOperations] in *. rewrite length_app in *. cbn [length] in *.
    split_and!; [done|lia| |].
    + intros ref operation' Href. apply Hkept.
      rewrite lookup_app_l; [done|by eapply lookup_lt_Some].
    + intros [|k] modelChange Hk; cbn in Hk.
      * injection Hk as <-. exists operation. split; [|by split].
        apply Hkept. rewrite Nat.add_0_r. apply snoc_lookup_length.
      * destruct (Hbatch k modelChange Hk) as (operation' & Hop & Hrest).
        exists operation'. split; [|done].
        by replace (length (evolutionOperations m) + S k)%nat
          with (length (evolutionOperations m) + 1 + k)%nat by lia.
Qed.

(** ** The ledger and its two queues *)

Lemma findIndex_Some {A} (test : A → bool) l k :
  findIndex test l = Some k → ∃ x, l !! k = Some x ∧ test x = true.
Proof.
  revert k. induction l as [|y l IH]; intros k; cbn; [done|].
  destruct (test y) eqn:Hy.
  - intros [= <-]. by exists y.
  - destruct (findIndex test l) as [k'|]; cbn; [|done].
    intros [= <-]. by apply IH.
Qed.

Lemma findIndex_None {A} (test : A → bool) l :
  findIndex test l = None → ∀ x, x ∈ l → test x = false.
Proof.
  induction l as [|y l IH]; cbn; [by intros _ x Hx; apply not_elem_of_nil in Hx|].
  destruct (test y) eqn:Hy; [done|].
  destruct (findIndex test l); cbn; [done|].
  intros _ x Hx. apply elem_of_cons in Hx as [->|Hx]; [done|by apply IH].
Qed.

(** In a list without repetition, deleting the position of an element
    removes the element and nothing else. *)
Lemma elem_of_delete_NoDup (l : list nat) k x y :
  NoDup l → l !! k = Some x → (y ∈ delete k l ↔ y ∈ l ∧ y ≠ x).
Proof.
  intros Hnodup Hk. rewrite delete_take_drop.
  rewrite <- (take_drop_middle l k x Hk) in Hnodup.
  rewrite <- (take_drop_middle l k x Hk) at 3.
  apply NoDup_app in Hnodup as (_ & Hleft & Hright).
  apply NoDup_cons in Hright as [Hright _].
  rewrite !elem_of_app, elem_of_cons. split.
  - intros [Hy|Hy]; (split; [tauto|]); intros ->; [|done].
    apply Hleft in Hy. apply Hy. by left.
  - intros [[Hy|[->|Hy]] Hne]; [by left|done|by right].
Qed.

Lemma same_but_status_refl operation : same_but_status operation operation.
Proof. by repeat split. Qed.

Lemma same_but_status_set status error operation :
  same_but_status operation (set_status status error operation).
Proof. by repeat split. Qed.

Lemma same_but_status_trans a b c :
  same_but_status a b → same_but_status b c → same_but_status a c.
Proof.
  intros (H1 & H2 & H3 & H4 & H5 & H6) (K1 & K2 & K3 & K4 & K5 & K6).
  repeat split; congruence.
Qed.

Lemma newManager_consistent s : ledger_consistent (newManager s).
Proof.
  split; [apply newManager_references|].
  split; [constructor|]. split; [constructor|]. split.
  - intros ref Href. by apply not_elem_of_nil in Href.
  - intros ref operation Hop. done.
Qed.

Lemma interpret_consistent modelChange m :
  ledger_consistent m → ledger_consistent (interpretModelChange modelChange m).2.
Proof.
  intros (Hrefs & Hnodup_a & Hnodup_p & Hapart & Hflags).
  split; [by apply interpret_keeps_references|].
  destruct Hrefs as [Hrefs_a Hrefs_p].
  rewrite Forall_forall in Hrefs_a, Hrefs_p.
  set (n := length (evolutionOperations m)) in *.
  assert (n ∉ ambiguities m) as Hfresh_a by (intros Hn; apply Hrefs_a in Hn; lia).
  assert (n ∉ pendingChanges m) as Hfresh_p by (intros Hn; apply Hrefs_p in Hn; lia).
  assert (∀ l, NoDup l → n ∉ l → NoDup (l ++ [n])) as Hsnoc.
  { intros l Hl Hn. apply NoDup_app. repeat split; [done| |apply NoDup_singleton].
    intros x Hx Hx'. apply list_elem_of_singleton in Hx' as ->. done. }
  unfold interpretModelChange. fold n.
  destruct (switch _ _) as [build|]; cbn;
    [destruct (truthy _) eqn:Hflag; cbn|].
  - (* recognized, ambiguous *)
    split; [by apply Hsnoc|]. split; [done|]. split.
    + intros ref Href Hpending. apply elem_of_app in Href as [Href|Href].
      * by eapply Hapart.
      * apply list_elem_of_singleton in Href as ->. done.
    + intros ref operation Hop Hmo. cbn in Hop.
      destruct (decide (ref = n)) as [->|Hne].
      * unfold n in Hop. rewrite snoc_lookup_length in Hop.
        injection Hop as <-. cbn. split; [|done].
        intros _. apply elem_of_app. right. by apply list_elem_of_singleton.
      * assert (ref < n)%nat.
        { apply lookup_lt_Some in Hop. rewrite length_app in Hop. cbn in Hop.
          unfold n. lia. }
        rewrite lookup_app_l in Hop by done. cbn [ambiguities].
        rewrite (Hflags ref operation Hop Hmo), elem_of_app, list_elem_of_singleton.
        split; [by left|]. intros [?|?]; [done|lia].
  - (* recognized, not ambiguous *)
    split; [done|]. split; [by apply Hsnoc|]. split.
    + intros ref Href Hpending. apply elem_of_app in Hpending as [Hpending|Hpending].
      * by eapply Hapart.
      * apply list_elem_of_singleton in Hpending as ->. done.
    + intros ref operation Hop Hmo. cbn in Hop.
      destruct (decide (ref = n)) as [->|Hne].
      * unfold n in Hop. rewrite snoc_lookup_length in Hop.
        injection Hop as <-. cbn. split; [done|]. intros Hn. done.
      * assert (ref < n)%nat.
        { apply lookup_lt_Some in Hop. rewrite length_app in Hop. cbn in Hop.
          unfold n. lia. }
        rewrite lookup_app_l in Hop by done. by apply Hflags.
  - (* unknown kind *)
    split; [done|]. split; [by apply Hsnoc|]. split.
    + intros ref Href Hpending. apply elem_of_app in Hpending as [Hpending|Hpending].
      * by eapply Hapart.
      * apply list_elem_of_singleton in Hpending as ->. done.
    + intros ref operation Hop Hmo. cbn in Hop.
      destruct (decide (ref = n)) as [->|Hne].
      * unfold n in Hop. rewrite snoc_lookup_length in Hop.
        injection Hop as <-. cbn in Hmo. by destruct Hmo.
      * assert (ref < n)%nat.
        { apply lookup_lt_Some in Hop. rewrite length_app in Hop. cbn in Hop.
          unfold n. lia. }
        rewrite lookup_app_l in Hop by done. by apply Hflags.
Qed.

Lemma resolve_consistent operationIndex resolution m operation m' :
  ledger_consistent m →
  resolveAmbiguity operationIndex resolution m = inr (operation, m') →
  ledger_consistent m'.
Proof.
  intros Hm Hresolve.
  pose proof Hm as (Hrefs & Hnodup_a & Hnodup_p & Hapart & Hflags).
  split; [by eapply resolve_keeps_references|].
  unfold resolveAmbiguity in Hresolve.
  destruct (evolutionOperations m !! operationIndex) as [resolved|] eqn:Hop;
    [|done].
  assert (operationIndex < length (evolutionOperations m))%nat as Hlt
    by (by eapply lookup_lt_Some).
  destruct (Operation.ambiguous resolved) eqn:Hflag; cbn in Hresolve;
    [|by injection Hresolve as _ <-].
  destruct (findIndex _ _) as [k|] eqn:Hindex; injection Hresolve as _ <-; cbn.
  - apply findIndex_Some in Hindex as (x & Hk & Hx).
    apply Nat.eqb_eq in Hx as ->.
    assert (operationIndex ∈ ambiguities m) as Hin
      by (by eapply list_elem_of_lookup_2).
    assert (operationIndex ∉ pendingChanges m) as Hout by (by apply Hapart).
    rewrite bool_decide_eq_false_2 by done.
    split; [eapply sublist_NoDup; [exact Hnodup_a|apply sublist_delete]|]. split; [|split].
    + apply NoDup_app. repeat split; [done| |apply NoDup_singleton].
      intros y Hy Hy'. apply list_elem_of_singleton in Hy' as ->. done.
    + intros ref Href Hpending.
      apply (elem_of_delete_NoDup _ _ _ _ Hnodup_a Hk) in Href as [Href Hne].
      apply elem_of_app in Hpending as [Hpending|Hpending].
      * by eapply Hapart.
      * by apply list_elem_of_singleton in Hpending.
    + intros ref operation' Hop' Hmo. cbn in Hop'.
      rewrite (elem_of_delete_NoDup _ _ _ _ Hnodup_a Hk).
      destruct (decide (ref = operationIndex)) as [->|Hne].
      * rewrite list_lookup_insert_eq in Hop' by done. injection Hop' as <-. cbn.
        split; [done|]. by intros [_ ?].
      * rewrite list_lookup_insert_ne in Hop' by done.
        rewrite (Hflags ref operation' Hop' Hmo). split; [done|by intros [? _]].
  - split; [done|]. split; [done|]. split; [done|].
    intros ref operation' Hop' Hmo. cbn in Hop'.
    destruct (decide (ref = operationIndex)) as [->|Hne].
    + rewrite list_lookup_insert_eq in Hop' by done. injection Hop' as <-.
      cbn in Hmo. apply fmap_is_Some in Hmo.
      apply (Hflags _ _ Hop Hmo) in Hflag.
      apply list_elem_of_lookup in Hflag as [k Hk].
      assert (k < length (ambiguities m))%nat by (by eapply lookup_lt_Some).
      eapply findIndex_None in Hindex; [|by eapply list_elem_of_lookup_2].
      by rewrite Nat.eqb_refl in Hindex.
    + rewrite list_lookup_insert_ne in Hop' by done. by apply Hflags.
Qed.

(** X6: on a consistent ledger, [resolveAmbiguity] on an operation that is
    flagged and has a metamodel operation returns that operation, takes it
    out of the ambiguity set and nothing else, appends it to the pending
    queue, and leaves it not flagged, without reason and with the status
    pending. *)
Theorem resolve_moves_to_the_end_of_pending operationIndex resolution m operation :
  ledger_consistent m →
  evolutionOperations m !! operationIndex = Some operation →
  Operation.ambiguous operation = true →
  is_Some (Operation.metamodelOperation operation) →
  ∃ m' operation',
    resolveAmbiguity operationIndex resolution m = inr (operationIndex, m') ∧
    pendingChanges m' = (pendingChanges m ++ [operationIndex])%list ∧
    (∀ ref, ref ∈ ambiguities m' ↔ ref ∈ ambiguities m ∧ ref ≠ operationIndex) ∧
    evolutionOperations m' !! operationIndex = Some operation' ∧
    Operation.ambiguous operation' = false ∧
    Operation.ambiguityReason operation' = VNull ∧
    Operation.status operation' = "pending".
Proof.
  intros (Hrefs & Hnodup_a & Hnodup_p & Hapart & Hflags) Hop Hflag Hmo.
  assert (operationIndex < length (evolutionOperations m))%nat as Hlt
    by (by eapply lookup_lt_Some).
  assert (operationIndex ∈ ambiguities m) as Hin by (by eapply Hflags).
  assert (operationIndex ∉ pendingChanges m) as Hout by (by apply Hapart).
  unfold resolveAmbiguity. rewrite Hop, Hflag. cbn.
  destruct (findIndex _ _) as [k|] eqn:Hindex.
  - apply findIndex_Some in Hindex as (x & Hk & Hx).
    apply Nat.eqb_eq in Hx as ->.
    rewrite bool_decide_eq_false_2 by done.
    do 2 eexists. split; [reflexivity|]. cbn. split; [done|]. split.
    + intros ref. by apply elem_of_delete_NoDup.
    + split; [by apply list_lookup_insert_eq|done].
  - eapply findIndex_None in Hindex; [|exact Hin].
    by rewrite Nat.eqb_refl in Hindex.
Qed.

(** X7: in the report of [generateEvolutionReport], [operations] has
    [totalOperations] entries; each interpreted change adds one to
    [totalOperations] and one to the sum of [pendingChanges] and
    [ambiguities]. *)
Theorem report_counts_every_interpreted_change changes m :
  let before := generateEvolutionReport m in
  let after := generateEvolutionReport (interpret_all changes m) in
  totalOperations after = (totalOperations before + length changes)%nat ∧
  length (operations after) = totalOperations after ∧
  (report_pendingChanges after + report_ambiguities after =
   report_pendingChanges before + report_ambiguities before + length changes)%nat.
Proof.
  cbv zeta. revert m. induction changes as [|change changes IH]; intros m.
  - cbn. rewrite length_map. lia.
  - cbn [interpret_all fold_left length].
    destruct (IH (interpretModelChange change m).2) as (Htotal & Hlength & Hqueues).
    fold (interpret_all changes (interpretModelChange change m).2).
    rewrite Htotal, Hlength, Htotal, Hqueues.
    destruct (interpret_ledger_grows change m) as (Hgrow & Hfiled).
    cbn [generateEvolutionReport totalOperations report_pendingChanges
         report_ambiguities]. rewrite Hgrow.
    destruct Hfiled as [[-> ->]|[-> ->]]; rewrite length_app; cbn; lia.
Qed.

Section LedgerFacts.

Variable Ecore : string → option string.

Lemma apply_one_same_but_status ref result m result' m' i operation :
  apply_one Ecore ref (result, m) = Some (result', m') →
  evolutionOperations m !! i = Some operation →
  ∃ operation', evolutionOperations m' !! i = Some operation' ∧
                same_but_status operation operation'.
Proof.
  unfold apply_one.
  destruct (evolutionOperations m !! ref) as [applied|] eqn:Href; [|done]. cbn.
  intros Hone Hi.
  assert (ref < length (evolutionOperations m))%nat by (by eapply lookup_lt_Some).
  destruct (_applyOperation _ _ _); try discriminate Hone;
    injection Hone as <- <-; cbn;
    (destruct (decide (ref = i)) as [->|Hne];
     [ rewrite list_lookup_insert_eq by done; eexists; split; [done|];
       assert (applied = operation) as -> by congruence;
       apply same_but_status_set
     | rewrite list_lookup_insert_ne by done; eexists; split; [done|];
       apply same_but_status_refl ]).
Qed.

Lemma apply_each_same_but_status pending result m result' m' i operation :
  apply_each Ecore pending (result, m) = Some (result', m') →
  evolutionOperations m !! i = Some operation →
  ∃ operation', evolutionOperations m' !! i = Some operation' ∧
                same_but_status operation operation'.
Proof.
  revert result m operation.
  induction pending as [|ref pending IH]; intros result m operation;
    cbn [apply_each].
  - intros [= <- <-] Hi. exists operation. split; [done|apply same_but_status_refl].
  - destruct (apply_one Ecore ref (result, m)) as [[result1 m1]|] eqn:Hone;
      cbn; [|done].
    intros Hrest Hi.
    destruct (apply_one_same_but_status _ _ _ _ _ _ _ Hone Hi)
      as (operation1 & Hi1 & Hsame1).
    destruct (IH _ _ _ Hrest Hi1) as (operation' & Hi' & Hsame').
    exists operation'. split; [done|]. by eapply same_but_status_trans.
Qed.

Lemma apply_same_but_status m result m' i operation :
  applyPendingChanges Ecore m = Some (result, m') →
  evolutionOperations m !! i = Some operation →
  ∃ operation', evolutionOperations m' !! i = Some operation' ∧
                same_but_status operation operation'.
Proof.
  unfold applyPendingChanges.
  destruct (0 <? length (ambiguities m))%nat.
  - intros [= <- <-] Hi. exists operation. split; [done|apply same_but_status_refl].
  - destruct (apply_each _ _ _) as [[result1 m1]|] eqn:Heach; cbn; [|done].
    intros [= <- <-]. cbn. by eapply apply_each_same_but_status.
Qed.

Lemma apply_consistent m result m' :
  ledger_consistent m →
  applyPendingChanges Ecore m = Some (result, m') →
  ledger_consistent m'.
Proof.
  intros Hm Happly.
  pose proof Hm as (Hrefs & Hnodup_a & Hnodup_p & Hapart & Hflags).
  split; [by eapply apply_keeps_references|].
  assert (ambiguities m' = ambiguities m ∧
          (m' = m ∨ pendingChanges m' = [])) as [Hsame Hpending].
  { unfold applyPendingChanges in Happly.
    destruct (0 <? length (ambiguities m))%nat;
      [injection Happly as _ <-; by split; [|left]|].
    destruct (apply_each _ _ _) as [[result1 m1]|] eqn:Heach; cbn in Happly;
      [|done].
    injection Happly as _ <-. cbn.
    apply apply_each_keeps_queues in Heach as (_ & Hsame & _). by split; [|right]. }
  rewrite Hsame. split; [done|]. split; [|split].
  - destruct Hpending as [->| ->]; [done|constructor].
  - intros ref Href. destruct Hpending as [->| ->]; [by apply Hapart|].
    apply not_elem_of_nil.
  - intros ref operation' Hop' Hmo. rewrite Hsame.
    assert (ref < length (evolutionOperations m))%nat as Hlt.
    { apply lookup_lt_Some in Hop'.
      destruct Hpending as [->|_]; [done|].
      unfold applyPendingChanges in Happly.
      destruct (0 <? length (ambiguities m))%nat;
        [by injection Happly as _ <-|].
      destruct (apply_each _ _ _) as [[result1 m1]|] eqn:Heach; cbn in Happly;
        [|done].
      injection Happly as _ <-. cbn in Hop'.
      apply apply_each_keeps_queues in Heach as (Hlength & _). lia. }
    apply lookup_lt_is_Some_2 in Hlt as [operation Hop].
    destruct (apply_same_but_status _ _ _ _ _ Happly Hop)
      as (operation'' & Hop'' & Hsame_op).
    assert (operation'' = operation') as -> by congruence.
    destruct Hsame_op as (_ & _ & _ & Hsame_flag & _ & Hsame_mo).
    rewrite Hsame_flag. rewrite Hsame_mo in Hmo. by apply Hflags.
Qed.

(** X8: every manager a session reaches from a new manager by
    [interpretModelChange], [resolveAmbiguity] and [applyPendingChanges] is
    consistent: the references of the two queues are positions of the
    ledger, neither queue holds a reference twice, no reference is in both,
    and an operation with a metamodel operation is flagged ambiguous
    exactly when it is in the ambiguity set. *)
Theorem reachable_managers_are_consistent m :
  reachable Ecore m → ledger_consistent m.
Proof.
  induction 1 as [s|m modelChange _ IH|m operationIndex resolution operation m' _ IH Hresolve
                 |m result m' _ IH Happly].
  - apply newManager_consistent.
  - by apply interpret_consistent.
  - by eapply resolve_consistent.
  - by eapply apply_consistent.
Qed.

(** X9: [applyPendingChanges] leaves the ledger at its length and the
    ambiguity set as it was, and changes of an operation at most [status]
    and [error]: type, element, details, flag, reason and metamodel
    operation are those from before. *)
Theorem apply_rewrites_only_status_and_error m result m' :
  applyPendingChanges Ecore m = Some (result, m') →
  length (evolutionOperations m') = length (evolutionOperations m) ∧
  ambiguities m' = ambiguities m ∧
  ∀ ref operation,
    evolutionOperations m !! ref = Some operation →
    ∃ operation',
      evolutionOperations m' !! ref = Some operation' ∧
      same_but_status operation operation'.
Proof.
  intros Happly. split; [|split].
  - unfold applyPendingChanges in Happly.
    destruct (0 <? length (ambiguities m))%nat; [by injection Happly as _ <-|].
    destruct (apply_each _ _ _) as [[result1 m1]|] eqn:Heach; cbn in Happly; [|done].
    injection Happly as _ <-. cbn. by apply apply_each_keeps_queues in Heach as (? & _).
  - unfold applyPendingChanges in Happly.
    destruct (0 <? length (ambiguities m))%nat; [by injection Happly as _ <-|].
    destruct (apply_each _ _ _) as [[result1 m1]|] eqn:Heach; cbn in Happly; [|done].
    injection Happly as _ <-. cbn. by apply apply_each_keeps_queues in Heach as (_ & ? & _).
  - intros ref operation Hop. by eapply apply_same_but_status.
Qed.

(** X10: a second [applyPendingChanges] right after a first one applies
    nothing and fails nothing and leaves the manager as it is; when no
    ambiguity is left it reports success with no change applied. *)
Theorem apply_again_applies_nothing m result m' :
  applyPendingChanges Ecore m = Some (result, m') →
  ∃ result',
    applyPendingChanges Ecore m' = Some (result', m') ∧
    appliedChanges result' = [] ∧
    failedChanges result' = [] ∧
    (ambiguities m = [] → result' = mkApplyResult true [] [] []).
Proof.
  unfold applyPendingChanges at 1.
  destruct (0 <? length (ambiguities m))%nat eqn:Hambiguous.
  - intros [= <- <-]. unfold applyPendingChanges. eexists. rewrite Hambiguous.
    repeat split. intros Hnone. by rewrite Hnone in Hambiguous.
  - destruct (apply_each _ _ _) as [[result1 m1]|] eqn:Heach; cbn; [|done].
    intros [= <- <-].
    apply apply_each_keeps_queues in Heach as (_ & Hsame & _).
    unfold applyPendingChanges. eexists.
    cbn [ambiguities pendingChanges]. rewrite Hsame, Hambiguous. cbn.
    by repeat split.
Qed.

Lemma apply_each_sorts pending result m result' m' :
  NoDup pending →
  apply_each Ecore pending (result, m) = Some (result', m') →
  ∃ applied failed messages,
    appliedChanges result' = (appliedChanges result ++ applied)%list ∧
    failedChanges result' = (failedChanges result ++ failed)%list ∧
    errors result' = (errors result ++ messages)%list ∧
    length messages = length failed ∧
    (applied ++ failed)%list ≡ₚ pending ∧
    success result' = success result && bool_decide (failed = []) ∧
    (∀ ref, ref ∈ applied → status_of m' ref = Some "applied") ∧
    (∀ ref, ref ∈ failed →
       status_of m' ref = Some "failed" ∧
       ∃ message, error_of m' ref = Some (Some message) ∧ message ≠ "") ∧
    (∀ ref, ref ∉ pending →
       evolutionOperations m' !! ref = evolutionOperations m !! ref).
Proof.
  revert result m. induction pending as [|ref pending IH]; intros result m Hnodup;
    cbn [apply_each].
  - intros [= <- <-]. exists [], [], []. rewrite !app_nil_r, andb_true_r.
    split_and!; try done; intros other Hother; by apply not_elem_of_nil in Hother.
  - apply NoDup_cons in Hnodup as [Hfresh Hnodup].
    unfold apply_one at 1.
    destruct (evolutionOperations m !! ref) as [operation|] eqn:Hop; cbn; [|done].
    assert (ref < length (evolutionOperations m))%nat as Hlt
      by (by eapply lookup_lt_Some).
    destruct (_applyOperation Ecore operation (loader m)) as [[] s|message s|]
      eqn:Happly; cbn; [| |done]; intros Hrest;
      destruct (IH _ _ Hnodup Hrest)
        as (applied & failed & messages & Happlied & Hfailed & Herrors & Hlength
            & Hperm & Hsuccess & Hstatus_a & Hstatus_f & Hframe);
      cbn in Happlied, Hfailed, Herrors, Hsuccess, Hframe.
    + exists (ref :: applied), failed, messages.
      rewrite Happlied, Hfailed, Herrors, <- !app_assoc.
      split_and!; try done.
      * cbn. by constructor.
      * intros ref' Href'. apply elem_of_cons in Href' as [->|Href'];
          [|by apply Hstatus_a].
        unfold status_of. rewrite Hframe by done.
        by rewrite list_lookup_insert_eq.
      * intros ref' Href'. rewrite Hframe by (intros ?; apply Href'; by right).
        apply list_lookup_insert_ne. intros ->. apply Href'. by left.
    + exists applied, (ref :: failed), (("Failed to apply operation: " ++ message) :: messages).
      rewrite Happlied, Hfailed, Herrors, <- !app_assoc.
      split_and!; try done.
      * cbn. by rewrite Hlength.
      * by rewrite <- Permutation_middle, Hperm.
      * rewrite Hsuccess. cbn. by rewrite andb_false_r.
      * intros ref' Href'. apply elem_of_cons in Href' as [->|Href'];
          [|by apply Hstatus_f].
        split.
        -- unfold status_of. rewrite Hframe by done.
           by rewrite list_lookup_insert_eq.
        -- exists message. unfold error_of. rewrite Hframe by done.
           rewrite list_lookup_insert_eq by done. split; [done|].
           by eapply applyOperation_populated.
      * intros ref' Href'. rewrite Hframe by (intros ?; apply Href'; by right).
        apply list_lookup_insert_ne. intros ->. apply Href'. by left.
Qed.

(** X11: with no ambiguity left and no reference twice in the pending
    queue, [applyPendingChanges] empties the queue and sorts its references
    into [appliedChanges] and [failedChanges]: together they are a
    permutation of the queue, there is one error per failed change,
    [success] holds exactly when no change failed, an applied operation has
    the status applied, a failed one the status failed and an error that
    is not empty, and the operations outside the queue are untouched. *)
Theorem apply_sorts_the_pending_queue m result m' :
  ambiguities m = [] →
  NoDup (pendingChanges m) →
  applyPendingChanges Ecore m = Some (result, m') →
  pendingChanges m' = [] ∧
  (appliedChanges result ++ failedChanges result)%list ≡ₚ pendingChanges m ∧
  length (errors result) = length (failedChanges result) ∧
  success result = bool_decide (failedChanges result = []) ∧
  (∀ ref, ref ∈ appliedChanges result → status_of m' ref = Some "applied") ∧
  (∀ ref, ref ∈ failedChanges result →
     status_of m' ref = Some "failed" ∧
     ∃ message, error_of m' ref = Some (Some message) ∧ message ≠ "") ∧
  (∀ ref, ref ∉ pendingChanges m →
     evolutionOperations m' !! ref = evolutionOperations m !! ref).
Proof.
  intros Hnone Hnodup. unfold applyPendingChanges. rewrite Hnone. cbn [length Nat.ltb Nat.leb].
  destruct (apply_each _ _ _) as [[result1 m1]|] eqn:Heach; cbn; [|done].
  intros [= <- <-].
  destruct (apply_each_sorts _ _ _ _ _ Hnodup Heach)
    as (applied & failed & messages & Happlied & Hfailed & Herrors & Hlength
        & Hperm & Hsuccess & Hstatus_a & Hstatus_f & Hframe).
  cbn in Happlied, Hfailed, Herrors, Hsuccess.
  rewrite Happlied, Hfailed, Herrors, Hsuccess.
  by split_and!.
Qed.

End LedgerFacts.

(** ** What a failed operation leaves of the schema *)

Lemma quiet_ret {A} (a : A) : quiet (mret a).
Proof. by intros s. Qed.

Lemma quiet_read {A} (f : MetamodelLoader → A) : quiet (read f).
Proof. by intros s. Qed.

Lemma quiet_throw {A} message : quiet (@throw A message).
Proof. by intros s. Qed.

Lemma quiet_ill_typed {A} : quiet (@ill_typed A).
Proof. by intros s. Qed.

Lemma quiet_bind {A B} (call : M A) (rest : A → M B) :
  quiet call → (∀ a, quiet (rest a)) → quiet (call ≫= rest).
Proof.
  intros Hcall Hrest s. unfold mbind, M_bind. specialize (Hcall s).
  destruct (call s) as [a s1|message s1|]; [|done..].
  subst s1. apply Hrest.
Qed.

Lemma unchanged_quiet {A} (call : M A) : quiet call → throws_unchanged call.
Proof.
  intros Hcall s message s' Hthrows. specialize (Hcall s). by rewrite Hthrows in Hcall.
Qed.

Lemma unchanged_update f : throws_unchanged (update f).
Proof. intros s message s' Hthrows. discriminate Hthrows. Qed.

Lemma unchanged_bind {A B} (call : M A) (rest : A → M B) :
  quiet call → (∀ a, throws_unchanged (rest a)) → throws_unchanged (call ≫= rest).
Proof.
  intros Hcall Hrest s message s' Hthrows. unfold mbind, M_bind in Hthrows.
  specialize (Hcall s). destruct (call s) as [a s1|message1 s1|]; [| |done].
  - subst s1. by eapply Hrest.
  - by injection Hthrows as _ <-.
Qed.

Lemma typed_ret {A} (a : A) : well_typed (mret a).
Proof. by intros s. Qed.

Lemma typed_read {A} (f : MetamodelLoader → A) : well_typed (read f).
Proof. by intros s. Qed.

Lemma typed_throw {A} message : well_typed (@throw A message).
Proof. by intros s. Qed.

Lemma typed_update f : well_typed (update f).
Proof. by intros s. Qed.

Lemma typed_bind {A B} (call : M A) (rest : A → M B) :
  well_typed call → (∀ a, well_typed (rest a)) → well_typed (call ≫= rest).
Proof.
  intros Hcall Hrest s. unfold mbind, M_bind. specialize (Hcall s).
  destruct (call s) as [a s1|message s1|]; [apply Hrest|done..].
Qed.

Ltac typed :=
  repeat first
    [ apply typed_ret | apply typed_read | apply typed_throw | apply typed_update
    | apply typed_bind; [| intros ?]
    | match goal with
      | |- well_typed (match ?x with _ => _ end) => destruct x
      end ].

Ltac quiet :=
  repeat first
    [ apply quiet_ret | apply quiet_read | apply quiet_throw | apply quiet_ill_typed
    | apply quiet_bind; [| intros ?]
    | match goal with
      | |- quiet (match ?x with _ => _ end) => destruct x
      end ].

Ltac unchanged :=
  repeat first
    [ apply unchanged_update
    | apply unchanged_quiet; solve [quiet]
    | apply unchanged_bind; [solve [quiet] | intros ?]
    | match goal with
      | |- throws_unchanged (match ?x with _ => _ end) => destruct x
      end ].

Lemma same_shape_refl s : same_shape s s.
Proof. by split. Qed.

Lemma same_shape_trans s1 s2 s3 :
  same_shape s1 s2 → same_shape s2 s3 → same_shape s1 s3.
Proof.
  intros [Hpackage1 Hkinds1] [Hpackage2 Hkinds2]. split; [congruence|].
  intros id. by rewrite Hkinds2, Hkinds1.
Qed.

Lemma keeps_shape_quiet {A} (call : M A) : quiet call → keeps_shape call.
Proof.
  intros Hquiet s. specialize (Hquiet s).
  destruct (call s); [subst; apply same_shape_refl..|done].
Qed.

Lemma keeps_shape_bind {A B} (call : M A) (rest : A → M B) :
  keeps_shape call → (∀ a, keeps_shape (rest a)) → keeps_shape (call ≫= rest).
Proof.
  intros Hcall Hrest s. unfold mbind, M_bind. specialize (Hcall s).
  destruct (call s) as [a s1|message s1|]; [|done..].
  specialize (Hrest a s1). destruct (rest a s1); [..|done];
    by eapply same_shape_trans.
Qed.

Lemma keeps_shape_when b (body : M unit) : keeps_shape body → keeps_shape (when b body).
Proof.
  intros Hbody. destruct b; [done|]. apply keeps_shape_quiet, quiet_ret.
Qed.

Lemma keeps_shape_forEach {A} (l : list A) body :
  (∀ x, keeps_shape (body x)) → keeps_shape (forEach l body).
Proof.
  intros Hbody. induction l as [|x l IH].
  - apply keeps_shape_quiet, quiet_ret.
  - cbn [forEach]. apply keeps_shape_bind; [apply Hbody|by intros _].
Qed.

Lemma keeps_shape_set_class id (f : EClass.t → EClass.t) :
  (∀ c, is_attribute <$> EClass.eStructuralFeatures (f c)
        = is_attribute <$> EClass.eStructuralFeatures c) →
  keeps_shape (set_class id f).
Proof.
  intros Hf s. split; [done|]. intros j. unfold features_of. cbn.
  destruct (decide (id = j)) as [->|Hne].
  - rewrite list_lookup_alter_eq. destruct (heap s !! j); [apply Hf|done].
  - by rewrite list_lookup_alter_ne.
Qed.

Lemma kinds_on_attribute f k (l : list EStructuralFeature) :
  is_attribute <$> alter (on_attribute f) k l = is_attribute <$> l.
Proof.
  revert k. induction l as [|[a|r] l IH]; intros [|k]; cbn; try done;
    f_equal; apply IH.
Qed.

Lemma kinds_on_reference f k (l : list EStructuralFeature) :
  is_attribute <$> alter (on_reference f) k l = is_attribute <$> l.
Proof.
  revert k. induction l as [|[a|r] l IH]; intros [|k]; cbn; try done;
    f_equal; apply IH.
Qed.

Lemma attributes_by_kind s id :
  length (getClassAttributes s id)
  = length (List.filter (λ b, b) (is_attribute <$> features_of s id)).
Proof.
  unfold getClassAttributes.
  induction (features_of s id) as [|[a|r] l IH]; cbn; [done| |done]. by f_equal.
Qed.

Lemma references_by_kind s id :
  length (getClassReferences s id)
  = length (List.filter negb (is_attribute <$> features_of s id)).
Proof.
  unfold getClassReferences.
  induction (features_of s id) as [|[a|r] l IH]; cbn; [done|done|]. by f_equal.
Qed.

Ltac keeps_shape :=
  repeat first
    [ apply keeps_shape_quiet; solve [quiet]
    | apply keeps_shape_when
    | apply keeps_shape_forEach; intros ?
    | apply keeps_shape_bind; [|intros ?]
    | apply keeps_shape_set_class; intros ?; cbn;
      first [reflexivity | apply kinds_on_attribute | apply kinds_on_reference]
    | match goal with
      | |- keeps_shape (match ?x with _ => _ end) => destruct x
      end ].

Section LoaderFacts.

Variable Ecore : string → option string.

Lemma createClass_unchanged className : throws_unchanged (createClass className).
Proof.
  intros s message s' Hcall. unfold createClass in Hcall.
  destruct (rootPackage s); [|by injection Hcall as _ <-].
  destruct (findClassByName s className); [|discriminate Hcall].
  by injection Hcall as _ <-.
Qed.

(** The additions and the removals make all their checks before their
    first change. *)
Lemma applyOperation_throws_unchanged operation s message s' :
  (∀ metamodelOp, Operation.metamodelOperation operation = Some metamodelOp →
     metamodelOp !!! "action" ≠ VStr "modifyClass" ∧
     metamodelOp !!! "action" ≠ VStr "modifyAttribute" ∧
     metamodelOp !!! "action" ≠ VStr "modifyReference") →
  _applyOperation Ecore operation s = Throws message s' →
  s' = s.
Proof.
  intros Hkind. unfold _applyOperation.
  destruct (Operation.metamodelOperation operation) as [metamodelOp|];
    [|by intros [= _ <-]].
  destruct (Hkind metamodelOp eq_refl) as (Hclass & Hattribute & Hreference).
  destruct (metamodelOp !!! "action") as [| | | |action|];
    try (by intros [= _ <-]).
  unfold appliers. cbn [switch].
  repeat match goal with
    | |- context [if String.eqb action ?label then _ else _] =>
        destruct (String.eqb_spec action label) as [->|]
    end;
    try done; try (by intros [= _ <-]); revert s message s';
    match goal with |- ∀ s message s', ?call s = _ → _ =>
      change (throws_unchanged call) end.
  - unfold _applyAddClass. intros s message s' Hthrows.
    unfold mbind, M_bind in Hthrows.
    destruct (createClass _ s) as [id s1|message1 s1|] eqn:Hcreate; [done| |done].
    injection Hthrows as _ <-. by eapply createClass_unchanged.
  - unfold _applyAddAttribute, addAttribute, set_class. unchanged.
  - unfold _applyAddReference, addReference, set_class. unchanged.
  - unfold _applyRemoveClass, find_or_throw. unchanged.
  - unfold _applyRemoveAttribute, find_or_throw, find_feature_or_throw, set_class.
    unchanged.
  - unfold _applyRemoveReference, find_or_throw, find_feature_or_throw, set_class.
    unchanged.
Qed.

Lemma createClass_typed className : well_typed (createClass className).
Proof.
  intros s. unfold createClass.
  destruct (rootPackage s); [|done]. by destruct (findClassByName s className).
Qed.

Lemma addAttribute_typed eClass attributeName t lowerBound upperBound :
  well_typed (addAttribute Ecore eClass attributeName (VStr t) lowerBound upperBound).
Proof.
  intros s. unfold addAttribute, mbind, M_bind, read, mret, M_ret, throw, set_class,
    update.
  destruct (is_string eClass); [destruct (findClassByName s eClass)|];
    destruct (Ecore t); done.
Qed.

Lemma addReference_typed sourceClass targetClass referenceName containment
    lowerBound upperBound :
  is_string targetClass = true →
  well_typed (addReference sourceClass targetClass referenceName containment
                lowerBound upperBound).
Proof.
  intros Htarget s. unfold addReference. rewrite Htarget.
  unfold mbind, M_bind, read, mret, M_ret, throw, set_class, update.
  destruct (is_string sourceClass); [destruct (findClassByName s sourceClass)|];
    destruct (findClassByName s targetClass); done.
Qed.

(** The additions and the removals give a feature a value of the descriptor
    for its type only as the type of an added attribute or as the target of
    an added reference. *)
Lemma applyOperation_typed operation s :
  (∀ metamodelOp, Operation.metamodelOperation operation = Some metamodelOp →
     metamodelOp !!! "action" ≠ VStr "modifyClass" ∧
     metamodelOp !!! "action" ≠ VStr "modifyAttribute" ∧
     metamodelOp !!! "action" ≠ VStr "modifyReference" ∧
     (metamodelOp !!! "action" = VStr "addAttribute" →
      is_string (metamodelOp !!! "attributeType") = true) ∧
     (metamodelOp !!! "action" = VStr "addReference" →
      is_string (metamodelOp !!! "targetClassName") = true)) →
  _applyOperation Ecore operation s ≠ IllTyped.
Proof.
  intros Hkind. unfold _applyOperation.
  destruct (Operation.metamodelOperation operation) as [metamodelOp|]; [|done].
  destruct (Hkind metamodelOp eq_refl)
    as (Hclass & Hattribute & Hreference & Htype & Htarget).
  destruct (metamodelOp !!! "action") as [| | | |action|]; try done.
  unfold appliers. cbn [switch].
  repeat match goal with
    | |- context [if String.eqb action ?label then _ else _] =>
        destruct (String.eqb_spec action label) as [->|]
    end;
    try done; revert s;
    match goal with |- ∀ s, ?call s ≠ IllTyped => change (well_typed call) end.
  - unfold _applyAddClass. apply typed_bind; [apply createClass_typed|].
    intros _. apply typed_ret.
  - unfold _applyAddAttribute.
    destruct (metamodelOp !!! "attributeType");
      try (by specialize (Htype eq_refl)). apply addAttribute_typed.
  - unfold _applyAddReference. apply addReference_typed. by apply Htarget.
  - unfold _applyRemoveClass, find_or_throw. typed.
  - unfold _applyRemoveAttribute, find_or_throw, find_feature_or_throw, set_class.
    typed.
  - unfold _applyRemoveReference, find_or_throw, find_feature_or_throw, set_class.
    typed.
Qed.

(** X12: an addition or a removal either returns, or throws and leaves the
    loader exactly as it found it: all its checks come before its first
    change.  This is so for every operation that is not one of the three
    modifications, provided that the type of an added attribute and the
    target class of an added reference are given as strings.  (A reference
    whose target is no string is added by [addReference] before the line
    that logs it throws, and an attribute whose type is no string is added
    with that value for type; these two calls are [ill_typed].) *)
Theorem failed_add_or_remove_changes_nothing operation s :
  (∀ metamodelOp, Operation.metamodelOperation operation = Some metamodelOp →
     metamodelOp !!! "action" ≠ VStr "modifyClass" ∧
     metamodelOp !!! "action" ≠ VStr "modifyAttribute" ∧
     metamodelOp !!! "action" ≠ VStr "modifyReference" ∧
     (metamodelOp !!! "action" = VStr "addAttribute" →
      is_string (metamodelOp !!! "attributeType") = true) ∧
     (metamodelOp !!! "action" = VStr "addReference" →
      is_string (metamodelOp !!! "targetClassName") = true)) →
  (∃ s', _applyOperation Ecore operation s = Returns () s') ∨
  (∃ message, _applyOperation Ecore operation s = Throws message s).
Proof.
  intros Hkind.
  pose proof (applyOperation_typed operation s Hkind) as Htyped.
  destruct (_applyOperation Ecore operation s) as [[] s'|message s'|] eqn:Happly;
    [left; by exists s'| |done].
  right. exists message. f_equal. eapply applyOperation_throws_unchanged; [|exact Happly].
  intros metamodelOp Hmo. destruct (Hkind metamodelOp Hmo) as (? & ? & ? & _).
  by split_and!.
Qed.

Lemma modify_class_fields s details :
  let operation := _createModifyClassOperation s details in
  operation !!! "action" = VStr "modifyClass" ∧
  operation !!! "className" = details !!! "name" ∧
  operation !!! "newName" = details !!! "newName" ∧
  operation !!! "newSuperTypes" = details !!! "newSuperTypes" ∧
  operation !!! "newAbstract" = details !!! "newAbstract" ∧
  operation !!! "newInterface" = details !!! "newInterface".
Proof.
  cbv zeta. unfold _createModifyClassOperation.
  builder_branches; rewrite ?flag_other by done; repeat split; reflexivity.
Qed.

(** X13: a modification that fails is not undone.  The renaming of a class
    to a free name with a super type that no class is, is interpreted as
    pending; applying it fails with the message that the super type is not
    found, and the class bears the new name all the same. *)
Theorem a_failed_modification_keeps_the_rename s C N S targetClass :
  C ≠ "" → N ≠ "" → S ≠ N →
  findClassByName s (VStr C) = Some targetClass →
  findClassByName s (VStr N) = None →
  findClassByName s (VStr S) = None →
  let m1 := (interpretModelChange (rename_class C N [S]) (newManager s)).2 in
  pendingChanges m1 = [0%nat] ∧
  ambiguities m1 = [] ∧
  ∃ m2,
    applyPendingChanges Ecore m1 =
      Some (mkApplyResult false [] [0%nat]
              [ ("Failed to apply operation: Super type " ++ S ++ " not found")%string ],
            m2) ∧
    status_of m2 0 = Some "failed" ∧
    className_of s targetClass = VStr C ∧
    className_of (loader m2) targetClass = VStr N.
Proof.
  intros HC HN HSN Hclass HfreeN HfreeS. cbv zeta.
  set (details := ModelChange.details (rename_class C N [S])).
  destruct (findClassByName_found _ _ _ Hclass) as (_ & HnameC & [c Hc]).
  assert (truthy (_createModifyClassOperation s details !!! "ambiguous") = false)
    as Hflag.
  { unfold _createModifyClassOperation.
    change (details !!! "name") with (VStr C).
    change (details !!! "newName") with (VStr N).
    rewrite !truthy_string by done. rewrite Hclass, HfreeN. reflexivity. }
  rewrite (interpret_files_pending (rename_class C N [S]) _ _ eq_refl) by exact Hflag.
  cbn [snd newManager loader evolutionOperations ambiguities pendingChanges app length].
  split; [done|]. split; [done|].
  rewrite applyPendingChanges_unresolved_none by reflexivity.
  cbn [pendingChanges apply_each].
  set (s2 := mkLoader
               (alter (λ c, EClass.mk (EClass.name c) (EClass.abstract c)
                              (EClass.interface c) [] (EClass.eStructuralFeatures c))
                      targetClass
                      (alter (λ c, EClass.mk (VStr N) (EClass.abstract c)
                                     (EClass.interface c) (EClass.eSuperTypes c)
                                     (EClass.eStructuralFeatures c))
                             targetClass (heap s)))
               (rootPackage s)).
  assert (∀ j, className_of s2 j =
               if decide (j = targetClass) then VStr N else className_of s j)
    as Hnames.
  { intros j. unfold className_of, s2. cbn. case_decide as Hj.
    - subst j. rewrite !list_lookup_alter_eq, Hc. done.
    - by rewrite !list_lookup_alter_ne. }
  assert (findClassByName s2 (VStr S) = None) as HfreeS2.
  { unfold findClassByName. change (getAllClasses s2) with (getAllClasses s).
    apply keep_last_all_false. intros j Hj. rewrite Hnames. case_decide.
    - cbn. apply String.eqb_neq. congruence.
    - by eapply keep_last_none in HfreeS. }
  erewrite apply_one_throws; cycle 1.
  { reflexivity. }
  { cbn [loader].
    destruct (modify_class_fields s details)
      as (Haction & Hf1 & Hf2 & Hf3 & Hf4 & Hf5).
    erewrite (applyOperation_case Ecore _ _ "modifyClass");
      [|reflexivity|exact Haction|reflexivity].
    unfold _applyModifyClass. subst details. rewrite Hf1, Hf2, Hf3, Hf4, Hf5.
    set (details := ModelChange.details (rename_class C N [S])).
    change (details !!! "name") with (VStr C).
    change (details !!! "newName") with (VStr N).
    change (details !!! "newSuperTypes") with (VArr [VStr S]).
    change (details !!! "newAbstract") with VUndefined.
    change (details !!! "newInterface") with VUndefined.
    rewrite truthy_string by done.
    unfold find_or_throw, when, mbind, M_bind, read, mret, M_ret. rewrite Hclass.
    cbn [defined truthy forEach set_class update heap rootPackage].
    unfold mbind, M_bind, read, mret, M_ret, find_or_throw. cbn beta iota.
    unfold mbind, M_bind, read. cbn [heap rootPackage]. fold s2.
    rewrite HfreeS2. reflexivity. }
  cbn [mbind option_bind]. eexists. split; [reflexivity|]. cbn [loader].
  split; [reflexivity|]. split; [done|].
  rewrite Hnames. by rewrite decide_True.
Qed.

Lemma modifyClass_keeps_shape operation : keeps_shape (_applyModifyClass operation).
Proof. unfold _applyModifyClass. keeps_shape. Qed.

Lemma modifyAttribute_keeps_shape operation :
  keeps_shape (_applyModifyAttribute Ecore operation).
Proof. unfold _applyModifyAttribute. keeps_shape. Qed.

Lemma modifyReference_keeps_shape operation :
  keeps_shape (_applyModifyReference operation).
Proof. unfold _applyModifyReference. keeps_shape. Qed.

(** X14: whether it returns or throws, a modification of a class, of an
    attribute or of a reference leaves the classes of the package as they
    were, and every class with as many attributes and as many references
    as it had. *)
Theorem a_modification_adds_and_removes_nothing operation metamodelOp s s' :
  Operation.metamodelOperation operation = Some metamodelOp →
  metamodelOp !!! "action" = VStr "modifyClass" ∨
  metamodelOp !!! "action" = VStr "modifyAttribute" ∨
  metamodelOp !!! "action" = VStr "modifyReference" →
  leaves (_applyOperation Ecore operation s) s' →
  getAllClasses s' = getAllClasses s ∧
  ∀ eClass,
    length (getClassAttributes s' eClass) = length (getClassAttributes s eClass) ∧
    length (getClassReferences s' eClass) = length (getClassReferences s eClass).
Proof.
  intros Hmo Haction Hleaves.
  assert (same_shape s s') as [Hpackage Hkinds].
  { destruct Haction as [Haction|[Haction|Haction]];
      (erewrite applyOperation_case in Hleaves;
         [|exact Hmo|exact Haction|reflexivity]);
      [ pose proof (modifyClass_keeps_shape metamodelOp s) as Hshape
      | pose proof (modifyAttribute_keeps_shape metamodelOp s) as Hshape
      | pose proof (modifyReference_keeps_shape metamodelOp s) as Hshape ];
      match type of Hleaves with leaves ?o _ => destruct o end;
      cbn in Hleaves; by subst. }
  split; [unfold getAllClasses; by rewrite Hpackage|].
  intros eClass. by rewrite !attributes_by_kind, !references_by_kind, Hkinds.
Qed.

Lemma className_of_with_name s id newName j :
  is_Some (heap s !! id) →
  className_of (with_name s id newName) j =
    if decide (j = id) then newName else className_of s j.
Proof.
  intros [c Hc]. unfold className_of, with_name. cbn. case_decide as Hj.
  - subst j. by rewrite list_lookup_alter_eq, Hc.
  - by rewrite list_lookup_alter_ne.
Qed.

Lemma features_of_with_name s id newName j :
  features_of (with_name s id newName) j = features_of s j.
Proof.
  unfold features_of, with_name. cbn.
  destruct (decide (id = j)) as [->|Hne].
  - rewrite list_lookup_alter_eq. by destruct (heap s !! j).
  - by rewrite list_lookup_alter_ne.
Qed.

(** X15: a class renamed to a free name is found under the new name, the
    features of every class are as they were, and every reference that had
    the class for type is reported by [getClassReferences] with the new
    name for type: references hold the class, not its name. *)
Theorem a_rename_shows_in_every_reference s operation C N targetClass :
  operation !!! "className" = VStr C →
  operation !!! "newName" = VStr N →
  N ≠ "" →
  defined (operation !!! "newAbstract") = false →
  defined (operation !!! "newInterface") = false →
  truthy (operation !!! "newSuperTypes") = false →
  findClassByName s (VStr C) = Some targetClass →
  findClassByName s (VStr N) = None →
  ∃ s',
    _applyModifyClass operation s = Returns () s' ∧
    findClassByName s' (VStr N) = Some targetClass ∧
    (∀ cls, features_of s' cls = features_of s cls) ∧
    ∀ cls r,
      In (Reference r) (features_of s cls) →
      EReference.eType r = targetClass →
      In (mkReferenceInfo (EReference.name r) (VStr N) (EReference.containment r)
            (EReference.lowerBound r) (EReference.upperBound r))
         (getClassReferences s' cls).
Proof.
  intros Hclass Hname HN Habstract Hinterface Hsupers Hfound Hfree.
  destruct (findClassByName_found _ _ _ Hfound) as (Hin & _ & Hheap).
  exists (with_name s targetClass (VStr N)). split_and!.
  - unfold _applyModifyClass, find_or_throw, mbind, M_bind, read.
    rewrite Hclass, Hname, Habstract, Hinterface, Hsupers, Hfound.
    by rewrite truthy_string.
  - unfold findClassByName.
    change (getAllClasses (with_name s targetClass (VStr N))) with (getAllClasses s).
    apply keep_last_only; [done|..].
    + rewrite className_of_with_name by done. rewrite decide_True by done.
      apply strict_eq_string_refl.
    + intros j Hj. rewrite className_of_with_name by done.
      case_decide; [done|]. intros Hnamed.
      by eapply keep_last_none in Hfree; [rewrite Hfree in Hnamed|].
  - intros cls. apply features_of_with_name.
  - intros cls r Hr Htype.
    rewrite <- (features_of_with_name s targetClass (VStr N)) in Hr.
    apply reference_is_reported in Hr.
    by rewrite className_of_with_name, Htype, decide_True in Hr.
Qed.

(** ** Additions and removals that undo one another *)

(** Taking away the feature that was just added gives the loader back. *)
Lemma without_added_feature s id feature :
  is_Some (heap s !! id) →
  mkLoader (alter (set_features (delete (length (features_of s id)))) id
              (heap (with_feature s id feature)))
           (rootPackage (with_feature s id feature)) = s.
Proof.
  intros [c Hc]. destruct s as [classes package]. cbn in *. f_equal.
  apply list_eq. intros j. unfold features_of. cbn. rewrite Hc.
  destruct (decide (id = j)) as [<-|Hne].
  - rewrite !list_lookup_alter_eq, Hc. cbn. f_equal.
    destruct c as [name abstract interface supers features]. cbn.
    unfold set_features, add_feature. cbn. f_equal.
    clear Hc. induction features as [|x features IH]; [done|]. cbn. by f_equal.
  - by rewrite !list_lookup_alter_ne.
Qed.

(** X16: when a class lacks an attribute of a name, adding an attribute of
    that name and of a type Ecore has, and then removing the attribute of
    that name, both return, and the loader is again exactly as before the
    addition. *)
Theorem removing_the_added_attribute_restores_the_schema
    s C A t dataType targetClass (add remove : object) :
  add !!! "className" = VStr C →
  add !!! "attributeName" = VStr A →
  add !!! "attributeType" = VStr t →
  Ecore t = Some dataType →
  remove !!! "className" = VStr C →
  remove !!! "attributeName" = VStr A →
  findClassByName s (VStr C) = Some targetClass →
  some_attribute (VStr A) (getClassAttributes s targetClass) = false →
  ∃ s1,
    _applyAddAttribute Ecore add s = Returns () s1 ∧
    some_attribute (VStr A) (getClassAttributes s1 targetClass) = true ∧
    _applyRemoveAttribute remove s1 = Returns () s.
Proof.
  intros Hclass Hname Htype Hdata Hclass' Hname' Hfind Hlacks.
  destruct (findClassByName_found _ _ _ Hfind) as (_ & _ & Hheap).
  eexists. split; [|split].
  - unfold _applyAddAttribute. rewrite Hclass, Hname, Htype.
    by apply addAttribute_returns.
  - rewrite getClassAttributes_with_attribute by done.
    rewrite some_attribute_snoc. cbn. rewrite String.eqb_refl. apply orb_true_r.
  - unfold _applyRemoveAttribute, find_or_throw, find_feature_or_throw.
    rewrite Hclass', Hname'. unfold mbind, M_bind, read. cbn.
    rewrite findClassByName_with_feature, Hfind. cbn.
    rewrite features_of_with_feature by done.
    rewrite last_index_snoc. cbn. rewrite String.eqb_refl. cbn.
    unfold set_class, update. f_equal. by apply without_added_feature.
Qed.

(** X17: when a class lacks a reference of a name, adding a reference of
    that name to a class that exists, and then removing the reference of
    that name, both return, and the loader is again exactly as before the
    addition. *)
Theorem removing_the_added_reference_restores_the_schema
    s C T R sourceClass targetClass (add remove : object) :
  add !!! "sourceClassName" = VStr C →
  add !!! "targetClassName" = VStr T →
  add !!! "referenceName" = VStr R →
  remove !!! "className" = VStr C →
  remove !!! "referenceName" = VStr R →
  findClassByName s (VStr C) = Some sourceClass →
  findClassByName s (VStr T) = Some targetClass →
  some_reference (VStr R) (getClassReferences s sourceClass) = false →
  ∃ s1,
    _applyAddReference add s = Returns () s1 ∧
    some_reference (VStr R) (getClassReferences s1 sourceClass) = true ∧
    _applyRemoveReference remove s1 = Returns () s.
Proof.
  intros Hsource Htarget Hname Hclass' Hname' Hfind HfindT Hlacks.
  destruct (findClassByName_found _ _ _ Hfind) as (_ & _ & Hheap).
  eexists. split; [|split].
  - unfold _applyAddReference. rewrite Hsource, Htarget, Hname.
    by apply addReference_returns.
  - rewrite getClassReferences_with_reference by done.
    unfold some_reference. rewrite existsb_app. cbn.
    rewrite String.eqb_refl. cbn. apply orb_true_r.
  - unfold _applyRemoveReference, find_or_throw, find_feature_or_throw.
    rewrite Hclass', Hname'. unfold mbind, M_bind, read. cbn.
    rewrite findClassByName_with_feature, Hfind. cbn.
    rewrite features_of_with_feature by done.
    rewrite last_index_snoc. cbn. rewrite String.eqb_refl. cbn.
    unfold set_class, update. f_equal. by apply without_added_feature.
Qed.

Lemma flag_not_false reason (o : object) : flag reason o !!! "ambiguous" ≠ VBool false.
Proof. by rewrite flag_ambiguous. Qed.

(** What the builders of the three removals carry, and what they have
    checked when they do not flag an ambiguity. *)
Lemma remove_class_checked s details :
  let operation := _createRemoveClassOperation s details in
  operation !!! "action" = VStr "removeClass" ∧
  operation !!! "className" = details !!! "name" ∧
  (operation !!! "ambiguous" = VBool false →
   is_Some (findClassByName s (details !!! "name")) ∧
   _findClassesReferencingClass s (details !!! "name") = []).
Proof.
  cbv zeta. unfold _createRemoveClassOperation.
  destruct (negb _);
    [|destruct (findClassByName _ _) as [targetClass|];
      [destruct (_findClassesReferencingClass _ _) as [|name names]; cbn [length Nat.ltb Nat.leb]|]];
    rewrite ?flag_other by done;
    (split; [reflexivity|]); (split; [reflexivity|]);
    try (intros Hflag; by apply flag_not_false in Hflag).
  intros _. by split.
Qed.

Lemma remove_attribute_checked s details :
  let operation := _createRemoveAttributeOperation s details in
  operation !!! "action" = VStr "removeAttribute" ∧
  operation !!! "className" = details !!! "className" ∧
  operation !!! "attributeName" = details !!! "name" ∧
  (operation !!! "ambiguous" = VBool false →
   ∃ targetClass,
     findClassByName s (details !!! "className") = Some targetClass ∧
     some_attribute (details !!! "name") (getClassAttributes s targetClass) = true).
Proof.
  cbv zeta. unfold _createRemoveAttributeOperation.
  destruct (negb (truthy (details !!! "className")));
    [|destruct (negb (truthy (details !!! "name")));
      [|destruct (findClassByName _ _) as [targetClass|];
        [destruct (some_attribute _ _) eqn:Hsome; cbn [negb]|]]];
    rewrite ?flag_other by done;
    (split; [reflexivity|]); (split; [reflexivity|]); (split; [reflexivity|]);
    try (intros Hflag; by apply flag_not_false in Hflag).
  intros _. by exists targetClass.
Qed.

Lemma remove_reference_checked s details :
  let operation := _createRemoveReferenceOperation s details in
  operation !!! "action" = VStr "removeReference" ∧
  operation !!! "className" = details !!! "className" ∧
  operation !!! "referenceName" = details !!! "name" ∧
  (operation !!! "ambiguous" = VBool false →
   ∃ targetClass,
     findClassByName s (details !!! "className") = Some targetClass ∧
     some_reference (details !!! "name") (getClassReferences s targetClass) = true).
Proof.
  cbv zeta. unfold _createRemoveReferenceOperation.
  destruct (negb (truthy (details !!! "className")));
    [|destruct (negb (truthy (details !!! "name")));
      [|destruct (findClassByName _ _) as [targetClass|];
        [destruct (some_reference _ _) eqn:Hsome; cbn [negb]|]]];
    rewrite ?flag_other by done;
    (split; [reflexivity|]); (split; [reflexivity|]); (split; [reflexivity|]);
    try (intros Hflag; by apply flag_not_false in Hflag).
  intros _. by exists targetClass.
Qed.

Lemma some_attribute_feature s id name :
  some_attribute name (getClassAttributes s id) =
  existsb (is_attribute_named name) (features_of s id).
Proof.
  unfold some_attribute, getClassAttributes.
  induction (features_of s id) as [|[a|r] l IH]; cbn; [done| |done].
  by rewrite IH.
Qed.

Lemma some_reference_feature s id name :
  some_reference name (getClassReferences s id) =
  existsb (is_reference_named name) (features_of s id).
Proof.
  unfold some_reference, getClassReferences.
  induction (features_of s id) as [|[a|r] l IH]; cbn; [done|done|].
  by rewrite IH.
Qed.


(** X19: a removal of a class, of an attribute or of a reference whose
    builder did not flag it returns when it is applied to the loader it was
    built on; removing a class leaves the class objects as they are,
    removing a feature leaves the package as it is. *)
Theorem a_validated_removal_applies s modelChange :
  let details := ModelChange.details modelChange in
  (_createRemoveClassOperation s details !!! "ambiguous" = VBool false →
   ∃ s', _applyOperation Ecore
           (pending_operation modelChange (_createRemoveClassOperation s details)) s
         = Returns () s' ∧ heap s' = heap s) ∧
  (_createRemoveAttributeOperation s details !!! "ambiguous" = VBool false →
   ∃ s', _applyOperation Ecore
           (pending_operation modelChange (_createRemoveAttributeOperation s details)) s
         = Returns () s' ∧ rootPackage s' = rootPackage s) ∧
  (_createRemoveReferenceOperation s details !!! "ambiguous" = VBool false →
   ∃ s', _applyOperation Ecore
           (pending_operation modelChange (_createRemoveReferenceOperation s details)) s
         = Returns () s' ∧ rootPackage s' = rootPackage s).
Proof.
  cbv zeta. split_and!.
  - intros Hflag.
    destruct (remove_class_checked s (ModelChange.details modelChange))
      as (Haction & Hname & Hchecked).
    destruct (Hchecked Hflag) as [[targetClass Hclass] _].
    erewrite applyOperation_case; [|reflexivity|exact Haction|reflexivity].
    unfold _applyRemoveClass, find_or_throw, mbind, M_bind, read.
    rewrite Hname, Hclass. by eexists.
  - intros Hflag.
    destruct (remove_attribute_checked s (ModelChange.details modelChange))
      as (Haction & Hclass & Hname & Hchecked).
    destruct (Hchecked Hflag) as (targetClass & Hfound & Hsome).
    rewrite some_attribute_feature in Hsome.
    apply last_index_is_Some in Hsome as [k Hk].
    erewrite applyOperation_case; [|reflexivity|exact Haction|reflexivity].
    unfold _applyRemoveAttribute, find_or_throw, find_feature_or_throw, mbind,
      M_bind, read.
    rewrite Hclass, Hname, Hfound. cbn. rewrite Hk. by eexists.
  - intros Hflag.
    destruct (remove_reference_checked s (ModelChange.details modelChange))
      as (Haction & Hclass & Hname & Hchecked).
    destruct (Hchecked Hflag) as (targetClass & Hfound & Hsome).
    rewrite some_reference_feature in Hsome.
    apply last_index_is_Some in Hsome as [k Hk].
    erewrite applyOperation_case; [|reflexivity|exact Haction|reflexivity].
    unfold _applyRemoveReference, find_or_throw, find_feature_or_throw, mbind,
      M_bind, read.
    rewrite Hclass, Hname, Hfound. cbn. rewrite Hk. by eexists.
Qed.

Lemma findClassByName_unloaded s className :
  rootPackage s = None → findClassByName s className = None.
Proof. intros Hnone. unfold findClassByName, getAllClasses. by rewrite Hnone. Qed.

(** X20: on a loader without a package no operation returns: whatever the
    operation, [_applyOperation] throws and leaves the loader as it is. *)
Theorem nothing_applies_before_a_metamodel_is_loaded operation s :
  rootPackage s = None →
  ∃ message, _applyOperation Ecore operation s = Throws message s.
Proof.
  intros Hnone.
  assert (∀ className, findClassByName s className = None) as Hfind
    by (intros; by apply findClassByName_unloaded).
  unfold _applyOperation.
  destruct (Operation.metamodelOperation operation) as [metamodelOp|];
    [|by eexists].
  destruct (metamodelOp !!! "action") as [| | | |action|];
    try (by eexists).
  unfold appliers. cbn [switch].
  repeat match goal with
    | |- context [if String.eqb action ?label then _ else _] =>
        destruct (String.eqb action label)
    end;
    try (by eexists).
  - unfold _applyAddClass, mbind, M_bind, createClass. rewrite Hnone.
    by eexists.
  - unfold _applyAddAttribute, addAttribute, mbind, M_bind, read.
    destruct (is_string (metamodelOp !!! "className")); cbn; rewrite ?Hfind;
      [by eexists|].
    destruct (metamodelOp !!! "attributeType") as [| | | |t|]; try (by eexists).
    destruct (Ecore t); by eexists.
  - unfold _applyAddReference, addReference, mbind, M_bind, read.
    destruct (is_string (metamodelOp !!! "sourceClassName")); cbn; rewrite ?Hfind;
      [by eexists|].
    destruct (is_string (metamodelOp !!! "targetClassName")); cbn; rewrite ?Hfind;
      by eexists.
  - unfold _applyRemoveClass, find_or_throw, mbind, M_bind, read. rewrite Hfind.
    by eexists.
  - unfold _applyRemoveAttribute, find_or_throw, mbind, M_bind, read. rewrite Hfind.
    by eexists.
  - unfold _applyRemoveReference, find_or_throw, mbind, M_bind, read. rewrite Hfind.
    by eexists.
  - unfold _applyModifyClass, find_or_throw, mbind, M_bind, read. rewrite Hfind.
    by eexists.
  - unfold _applyModifyAttribute, find_or_throw, mbind, M_bind, read. rewrite Hfind.
    by eexists.
  - unfold _applyModifyReference, find_or_throw, mbind, M_bind, read. rewrite Hfind.
    by eexists.
Qed.

(** ** Sessions: interpret, resolve, apply *)

Lemma interpret_files_unknown modelChange m :
  switch (kind_of modelChange) builders = None →
  interpretModelChange modelChange m =
    (length (evolutionOperations m),
     mkManager (loader m)
       (evolutionOperations m ++ [unknown_operation modelChange])%list
       (ambiguities m)
       (pendingChanges m ++ [length (evolutionOperations m)])%list).
Proof. intros Hkind. unfold interpretModelChange. by rewrite Hkind. Qed.

(** What [Object.assign] leaves in a property read with its default. *)
Lemma Object_assign_total (target source : object) k :
  Object_assign target source !!! k =
  match source !! k with
  | Some v => v
  | None => target !!! k
  end.
Proof.
  rewrite !lookup_total_alt, Object_assign_lookup. by destruct (source !! k).
Qed.

(** X21: a change of an unknown kind is in the pending queue from the
    start; resolving it changes neither queue, and applying it fails with
    the message of reading [action] of [null], the loader untouched and the
    status failed: no resolution can make it apply. *)
Theorem an_unknown_kind_fails_even_when_resolved s modelChange resolution :
  switch (kind_of modelChange) builders = None →
  let m1 := (interpretModelChange modelChange (newManager s)).2 in
  pendingChanges m1 = [0%nat] ∧
  ∃ m2 m3,
    resolveAmbiguity 0 resolution m1 = inr (0%nat, m2) ∧
    pendingChanges m2 = [0%nat] ∧
    ambiguities m2 = [] ∧
    applyPendingChanges Ecore m2 =
      Some (mkApplyResult false [] [0%nat]
              [ "Failed to apply operation: Cannot read properties of null (reading 'action')" ],
            m3) ∧
    loader m3 = s ∧
    status_of m3 0 = Some "failed".
Proof.
  intros Hkind. cbv zeta. rewrite interpret_files_unknown by done.
  cbn [snd newManager loader evolutionOperations ambiguities pendingChanges app length].
  split; [done|]. do 2 eexists. split; [reflexivity|]. cbn.
  split; [done|]. split; [done|]. split; [reflexivity|]. by split.
Qed.

(** X22: the addition of a class whose name is taken is ambiguous with the
    reason that the class already exists; resolved with another, free
    [className], it applies, and the class created bears the name of the
    resolution, while the class that had the name is found as before. *)
Theorem a_resolved_name_is_the_one_created s C N existing :
  is_Some (rootPackage s) →
  classes_on_heap s →
  C ≠ "" →
  findClassByName s (VStr C) = Some existing →
  findClassByName s (VStr N) = None →
  let m1 := (interpretModelChange (add_class C) (newManager s)).2 in
  ambiguities m1 = [0%nat] ∧
  (Operation.ambiguityReason <$> evolutionOperations m1 !! 0%nat)
    = Some (VStr ("Class " ++ C ++ " already exists")) ∧
  ∃ m2 m3,
    resolveAmbiguity 0 {[ "className" := VStr N ]} m1 = inr (0%nat, m2) ∧
    applyPendingChanges Ecore m2 = Some (mkApplyResult true [0%nat] [] [], m3) ∧
    findClassByName (loader m3) (VStr N) = Some (length (heap s)) ∧
    findClassByName (loader m3) (VStr C) = Some existing.
Proof.
  intros Hpackage Hheap HC Hexisting Hfree. cbv zeta.
  assert (_createAddClassOperation s {[ "name" := VStr C ]} =
          flag ("Class " ++ C ++ " already exists")
               (list_to_map [
                  ("action", VStr "addClass"); ("className", VStr C);
                  ("superTypes", VArr []); ("abstract", VBool false);
                  ("interface", VBool false); ("ambiguous", VBool false);
                  ("ambiguityReason", VNull) ])) as Hbuilt.
  { unfold _createAddClassOperation.
    change (({[ "name" := VStr C ]} : object) !!! "name") with (VStr C).
    by rewrite truthy_string, Hexisting. }
  rewrite (interpret_files_ambiguous (add_class C) _ _ eq_refl); cycle 1.
  { cbn [loader newManager ModelChange.details add_class]. rewrite Hbuilt.
    by rewrite flag_ambiguous. }
  cbn [snd newManager loader evolutionOperations ambiguities pendingChanges app
       length ModelChange.details add_class].
  rewrite Hbuilt. split; [done|]. split.
  { cbn. by rewrite flag_reason. }
  do 2 eexists. split; [reflexivity|].
  cbn [findIndex Nat.eqb fmap option_fmap option_map delete].
  rewrite applyPendingChanges_unresolved_none by reflexivity.
  cbn [pendingChanges bool_decide apply_each].
  rewrite bool_decide_eq_false_2 by apply not_elem_of_nil.
  cbn [app apply_each].
  erewrite apply_one_returns; cycle 1.
  { reflexivity. }
  { cbn [loader ambiguous_operation Operation.metamodelOperation fmap option_fmap
         option_map].
    erewrite (applyOperation_case Ecore _ _ "addClass");
      [|reflexivity| |reflexivity].
    - unfold _applyAddClass, mbind, M_bind.
      rewrite Object_assign_total.
      change (({[ "className" := VStr N ]} : object) !! "className")
        with (Some (VStr N)).
      rewrite createClass_returns by done. reflexivity.
    - rewrite Object_assign_total.
      change (({[ "className" := VStr N ]} : object) !! "action") with (@None value).
      by rewrite flag_other. }
  cbn [mbind option_bind]. split; [reflexivity|]. cbn [loader].
  split; [by apply findClassByName_with_class_new|].
  by apply findClassByName_with_class_old.
Qed.

(** X23: two additions of the same free class name in one batch are both
    pending, since both are checked against the loader before the batch;
    applying the batch creates the class once: the first is applied, the
    second fails with the message that the class already exists. *)
Theorem the_second_of_two_equal_additions_fails s C :
  is_Some (rootPackage s) →
  classes_on_heap s →
  C ≠ "" →
  findClassByName s (VStr C) = None →
  let m2 := interpret_all [add_class C; add_class C] (newManager s) in
  pendingChanges m2 = [0%nat; 1%nat] ∧
  ambiguities m2 = [] ∧
  ∃ m3,
    applyPendingChanges Ecore m2 =
      Some (mkApplyResult false [0%nat] [1%nat]
              [ ("Failed to apply operation: Class " ++ C ++ " already exists")%string ],
            m3) ∧
    findClassByName (loader m3) (VStr C) = Some (length (heap s)).
Proof.
  intros Hpackage Hheap HC Hfree. cbv zeta.
  assert (truthy (_createAddClassOperation s
                    (ModelChange.details (add_class C)) !!! "ambiguous") = false)
    as Hflag.
  { rewrite add_class_flag; [done|by apply truthy_string|done]. }
  cbn [interpret_all fold_left].
  rewrite (interpret_files_pending (add_class C) (newManager s) _ eq_refl)
    by exact Hflag.
  cbn [snd newManager loader evolutionOperations ambiguities pendingChanges app length].
  rewrite (interpret_files_pending (add_class C) _ _ eq_refl) by exact Hflag.
  cbn [snd loader evolutionOperations ambiguities pendingChanges app length].
  split; [done|]. split; [done|].
  rewrite applyPendingChanges_unresolved_none by reflexivity.
  cbn [pendingChanges apply_each].
  erewrite apply_one_returns; cycle 1.
  { reflexivity. }
  { cbn [loader]. by apply apply_added_class. }
  cbn [mbind option_bind].
  erewrite apply_one_throws; cycle 1.
  { reflexivity. }
  { cbn [loader].
    destruct (add_class_fields s (ModelChange.details (add_class C)))
      as (Haction & Hname).
    erewrite applyOperation_case; [|reflexivity|exact Haction|reflexivity].
    unfold _applyAddClass, mbind, M_bind. rewrite Hname.
    change (ModelChange.details (add_class C) !!! "name") with (VStr C).
    unfold createClass.
    rewrite findClassByName_with_class_new by done.
    destruct Hpackage as [eClassifiers HeClassifiers].
    unfold with_class at 1. cbn [rootPackage]. rewrite HeClassifiers. cbn.
    reflexivity. }
  cbn [mbind option_bind]. eexists. split; [reflexivity|]. cbn [loader].
  change (ModelChange.details (add_class C) !!! "name") with (VStr C).
  by apply findClassByName_with_class_new.
Qed.

Lemma not_In_classes_after_removal id (eClassifiers : list EClassifier) :
  NoDup (omap (λ classifier, match classifier with
                             | AClass id => Some id
                             | NotAClass _ => None
                             end) eClassifiers) →
  ¬ In id (omap (λ classifier, match classifier with
                               | AClass id => Some id
                               | NotAClass _ => None
                               end) (remove_class id eClassifiers)).
Proof.
  induction eClassifiers as [|[i|name] l IH]; cbn; [by intros _ []| |done].
  intros [Hi Hl]%NoDup_cons. destruct (i =? id)%nat eqn:Heq; cbn.
  - apply Nat.eqb_eq in Heq as ->. intros Hin. apply Hi. by apply list_elem_of_In.
  - apply Nat.eqb_neq in Heq. intros [?|Hin]; [done|by apply IH].
Qed.

(** X24: the check of [_createRemoveClassOperation] does not see a
    reference that the same batch adds.  When no reference has the class X
    for type, a batch that adds a reference to X and removes X is pending
    as a whole and applies with success; afterwards X is no class of the
    package, and the new reference is still reported, with the name of X
    for type. *)
Theorem a_batch_can_remove_the_target_of_a_reference_it_adds
    s Y X R source target :
  Y ≠ "" → X ≠ "" → R ≠ "" →
  NoDup (getAllClasses s) →
  findClassByName s (VStr Y) = Some source →
  findClassByName s (VStr X) = Some target →
  some_reference (VStr R) (getClassReferences s source) = false →
  _findClassesReferencingClass s (VStr X) = [] →
  let m2 := interpret_all [add_reference Y X R false 0 1; remove_class_named X]
              (newManager s) in
  pendingChanges m2 = [0%nat; 1%nat] ∧
  ambiguities m2 = [] ∧
  ∃ m3,
    applyPendingChanges Ecore m2 = Some (mkApplyResult true [0%nat; 1%nat] [] [], m3) ∧
    ¬ In target (getAllClasses (loader m3)) ∧
    In (mkReferenceInfo (VStr R) (VStr X) (VBool false) (VNum 0) (VNum 1))
       (getClassReferences (loader m3) source).
Proof.
  intros HY HX HR Hnodup Hsource Htarget Hlacks Hfree. cbv zeta.
  destruct (findClassByName_found _ _ _ Hsource) as (_ & _ & Hheap).
  destruct (findClassByName_found _ _ _ Htarget) as (_ & HnameX & _).
  assert (truthy (_createAddReferenceOperation s
                    (ModelChange.details (add_reference Y X R false 0 1))
                  !!! "ambiguous") = false) as Hflag1.
  { erewrite add_reference_flag; [done|by apply truthy_string..|exact Hsource
                                  |exact Htarget|exact Hlacks]. }
  assert (truthy (_createRemoveClassOperation s
                    (ModelChange.details (remove_class_named X))
                  !!! "ambiguous") = false) as Hflag2.
  { unfold _createRemoveClassOperation.
    change (ModelChange.details (remove_class_named X) !!! "name") with (VStr X).
    by rewrite truthy_string, Htarget, Hfree. }
  cbn [interpret_all fold_left].
  rewrite (interpret_files_pending (add_reference Y X R false 0 1) (newManager s)
             _ eq_refl) by exact Hflag1.
  cbn [snd newManager loader evolutionOperations ambiguities pendingChanges app length].
  rewrite (interpret_files_pending (remove_class_named X) _ _ eq_refl) by exact Hflag2.
  cbn [snd loader evolutionOperations ambiguities pendingChanges app length].
  split; [done|]. split; [done|].
  rewrite applyPendingChanges_unresolved_none by reflexivity.
  cbn [pendingChanges apply_each].
  erewrite apply_one_returns; cycle 1.
  { reflexivity. }
  { cbn [loader]. by eapply (apply_added_reference Ecore s s _ Y X). }
  cbn [mbind option_bind].
  erewrite apply_one_returns; cycle 1.
  { reflexivity. }
  { cbn [loader].
    destruct (remove_class_checked s (ModelChange.details (remove_class_named X)))
      as (Haction & Hname & _).
    erewrite (applyOperation_case Ecore _ _ "removeClass");
      [|reflexivity|exact Haction|reflexivity].
    unfold _applyRemoveClass, find_or_throw, mbind, M_bind, read. rewrite Hname.
    change (ModelChange.details (remove_class_named X) !!! "name") with (VStr X).
    rewrite findClassByName_with_feature, Htarget. reflexivity. }
  cbn [mbind option_bind]. eexists. split; [reflexivity|]. cbn [loader]. split.
  - unfold getAllClasses in *. cbn [rootPackage with_feature].
    destruct (rootPackage s) as [eClassifiers|]; [|by intros []]. cbn [fmap option_fmap option_map].
    by apply not_In_classes_after_removal.
  - match goal with
    | |- In _ (getClassReferences (mkLoader (heap ?s1) _) _) =>
        change (In (mkReferenceInfo (VStr R) (VStr X) (VBool false) (VNum 0) (VNum 1))
                   (getClassReferences s1 source))
    end.
    rewrite getClassReferences_with_reference by done.
    apply in_or_app. right. left. cbn. by rewrite HnameX.
Qed.

Lemma In_referencing_classes s className cls ref :
  In cls (getAllClasses s) → In ref (getClassReferences s cls) →
  strict_eq (ref_type ref) className = true →
  In (className_of s cls) (_findClassesReferencingClass s className).
Proof.
  intros Hcls Href Htype. unfold _findClassesReferencingClass.
  apply in_flat_map. exists cls. split; [done|].
  apply in_flat_map. exists ref. split; [done|]. rewrite Htype. by left.
Qed.

(** X25: once a reference is added, its target is guarded.  After
    [_applyAddReference] has returned, the builder of the removal of the
    target class flags its operation, with the reason that the class is
    referenced by a list of classes among which is the source class. *)
Theorem an_applied_reference_guards_its_target
    s Y X sourceClass targetClass (add details : object) :
  add !!! "sourceClassName" = VStr Y →
  add !!! "targetClassName" = VStr X →
  details !!! "name" = VStr X →
  X ≠ "" →
  findClassByName s (VStr Y) = Some sourceClass →
  findClassByName s (VStr X) = Some targetClass →
  ∃ s1 names,
    _applyAddReference add s = Returns () s1 ∧
    In (VStr Y) names ∧
    _createRemoveClassOperation s1 details !!! "ambiguous" = VBool true ∧
    _createRemoveClassOperation s1 details !!! "ambiguityReason"
      = VStr ("Class " ++ X ++ " is referenced by: " ++ join ", " names).
Proof.
  intros Hsource Htarget Hname HX HfindY HfindX.
  destruct (findClassByName_found _ _ _ HfindY) as (HinY & HnameY & HheapY).
  destruct (findClassByName_found _ _ _ HfindX) as (_ & HnameX & _).
  eexists. eexists. split.
  { unfold _applyAddReference. rewrite Hsource, Htarget.
    by apply addReference_returns. }
  match goal with
  | |- context [_createRemoveClassOperation ?after _] => set (s1 := after)
  end.
  assert (In (VStr Y) (_findClassesReferencingClass s1 (VStr X))) as Hguard.
  { rewrite <- HnameY.
    replace (className_of s sourceClass) with (className_of s1 sourceClass)
      by apply className_of_with_feature.
    eapply In_referencing_classes.
    - exact HinY.
    - unfold s1. rewrite getClassReferences_with_reference by done.
      apply in_or_app. right. by left.
    - cbn. rewrite HnameX. apply strict_eq_string_refl. }
  split; [exact Hguard|].
  assert (findClassByName s1 (VStr X) = Some targetClass) as Hfind1
    by (unfold s1; by rewrite findClassByName_with_feature).
  unfold _createRemoveClassOperation. rewrite Hname, truthy_string, !Hfind1 by done.
  assert ((0 <? length (_findClassesReferencingClass s1 (VStr X)))%nat = true)
    as Hsome by (by destruct (_findClassesReferencingClass s1 (VStr X))).
  cbn [negb]. rewrite Hsome.
  split; [apply flag_ambiguous | apply flag_reason].
Qed.

(** X26: no builder checks the type of an attribute.  The addition of a new
    attribute of a type that Ecore does not have, to a class that exists,
    is interpreted as pending; applying it fails with the message that the
    data type is not found, the loader untouched and the status failed. *)
Theorem an_unknown_data_type_is_found_only_at_apply
    s C A t lowerBound upperBound targetClass :
  C ≠ "" → A ≠ "" → t ≠ "" →
  findClassByName s (VStr C) = Some targetClass →
  some_attribute (VStr A) (getClassAttributes s targetClass) = false →
  Ecore t = None →
  let m1 := (interpretModelChange (add_attribute C A t lowerBound upperBound)
               (newManager s)).2 in
  pendingChanges m1 = [0%nat] ∧
  ambiguities m1 = [] ∧
  ∃ m2,
    applyPendingChanges Ecore m1 =
      Some (mkApplyResult false [] [0%nat]
              [ ("Failed to apply operation: DataType " ++ t ++ " not found")%string ],
            m2) ∧
    loader m2 = s ∧
    status_of m2 0 = Some "failed".
Proof.
  intros HC HA Ht Hclass Hlacks Hunknown. cbv zeta.
  set (change := add_attribute C A t lowerBound upperBound).
  assert (truthy (_createAddAttributeOperation s (ModelChange.details change)
                  !!! "ambiguous") = false) as Hflag.
  { pose proof (add_attribute_flag s (ModelChange.details change) targetClass) as Hbuilt.
    change (ModelChange.details change !!! "className") with (VStr C) in Hbuilt.
    change (ModelChange.details change !!! "name") with (VStr A) in Hbuilt.
    cbv zeta in Hbuilt. rewrite Hlacks in Hbuilt.
    rewrite Hbuilt; [done|by apply truthy_string..|done]. }
  rewrite (interpret_files_pending change _ _ eq_refl) by exact Hflag.
  cbn [snd newManager loader evolutionOperations ambiguities pendingChanges app length].
  split; [done|]. split; [done|].
  rewrite applyPendingChanges_unresolved_none by reflexivity.
  cbn [pendingChanges apply_each].
  erewrite apply_one_throws; cycle 1.
  { reflexivity. }
  { cbn [loader].
    destruct (add_attribute_fields s (ModelChange.details change))
      as (Haction & Hf1 & Hf2 & Hf3 & Hf4 & Hf5).
    erewrite (applyOperation_case Ecore _ _ "addAttribute");
      [|reflexivity|exact Haction|reflexivity].
    unfold _applyAddAttribute. rewrite Hf1, Hf2, Hf3, Hf4, Hf5.
    change (ModelChange.details change !!! "className") with (VStr C).
    change (ModelChange.details change !!! "type") with (VStr t).
    unfold or_else at 1. rewrite truthy_string by done.
    unfold addAttribute, mbind, M_bind, read. cbn [is_string].
    rewrite Hclass. cbn. rewrite Hunknown. reflexivity. }
  cbn [mbind option_bind]. eexists. split; [reflexivity|]. by split.
Qed.

End LoaderFacts.

(** ** The further properties on the sample schemas *)

Lemma findClassByName_last_of_that_name_witness :
  findClassByName twins (VStr "Twin") = Some 1%nat ∧
  ∃ before after,
    getAllClasses twins = (before ++ 1%nat :: after)%list ∧
    ∀ other, In other after → className_of twins other ≠ VStr "Twin".
Proof.
  split; [reflexivity|].
  destruct (proj1 (findClassByName_last_of_that_name twins "Twin") 1%nat eq_refl)
    as (before & after & Hclasses & _ & Hafter).
  exists before, after. by split.
Defined.

Lemma createClass_then_findClassByName_witness :
  ∃ s', createClass (VStr "Customer") people = Returns 2%nat s' ∧
        findClassByName s' (VStr "Customer") = Some 2%nat ∧
        getAllClasses s' = [0; 1; 2]%nat.
Proof.
  destruct (createClass_then_findClassByName people "Customer")
    as (s' & Hcreated & Hfound & Hclasses & _);
    [by eexists | exact people_classes_on_heap | reflexivity |].
  exists s'. split; [exact Hcreated|]. split; [exact Hfound | exact Hclasses].
Defined.

Lemma a_flagged_operation_carries_its_reason_witness :
  let operation := _createAddClassOperation empty_package ∅ in
  (operation !!! "ambiguous" = VBool false ∧
   operation !!! "ambiguityReason" = VNull) ∨
  (operation !!! "ambiguous" = VBool true ∧
   ∃ reason, operation !!! "ambiguityReason" = VStr reason ∧ reason ≠ "").
Proof.
  apply (a_flagged_operation_carries_its_reason "add_class"
           _createAddClassOperation empty_package ∅).
  by left.
Defined.

Lemma resolve_moves_to_the_end_of_pending_witness :
  let m := (interpretModelChange add_unnamed_class (newManager empty_package)).2 in
  ∃ m',
    resolveAmbiguity 0 name_Customer m = inr (0%nat, m') ∧
    pendingChanges m' = [0%nat] ∧
    ambiguities m' = [].
Proof.
  cbv zeta.
  destruct (resolve_moves_to_the_end_of_pending 0
              name_Customer
              (interpretModelChange add_unnamed_class (newManager empty_package)).2
              (ambiguous_operation add_unnamed_class
                 (_createAddClassOperation empty_package
                    (ModelChange.details add_unnamed_class))))
    as (m' & operation' & Hresolve & Hpending & Hambiguities & _).
  - apply interpret_consistent, newManager_consistent.
  - reflexivity.
  - reflexivity.
  - by eexists.
  - exists m'. split; [exact Hresolve|]. split; [exact Hpending|].
    destruct (ambiguities m') as [|ref rest] eqn:Hrest; [reflexivity|].
    destruct (Hambiguities ref) as [Hin _].
    destruct Hin as [Hin Hne]; [left|].
    apply list_elem_of_singleton in Hin. contradiction.
Defined.

Lemma reachable_managers_are_consistent_witness :
  ∃ result m',
    applyPendingChanges two_data_types untyped_age_then_Customer
      = Some (result, m') ∧
    ledger_consistent m'.
Proof.
  do 2 eexists. split; [vm_compute; reflexivity|].
  apply (reachable_managers_are_consistent two_data_types).
  eapply (reach_apply two_data_types untyped_age_then_Customer);
    [|vm_compute; reflexivity].
  apply (reach_interpret two_data_types
           (interpretModelChange (add_attribute "Person" "age" "EFoo" 0 1)
              (newManager people)).2 (add_class "Customer")).
  apply reach_interpret, reach_new.
Defined.

Lemma apply_rewrites_only_status_and_error_witness :
  ∃ result m',
    applyPendingChanges two_data_types untyped_age_then_Customer
      = Some (result, m') ∧
    length (evolutionOperations m') = 2%nat ∧
    ambiguities m' = [].
Proof.
  assert (∃ result m',
            applyPendingChanges two_data_types untyped_age_then_Customer
              = Some (result, m')) as (result & m' & Happly)
    by (do 2 eexists; vm_compute; reflexivity).
  destruct (apply_rewrites_only_status_and_error two_data_types _ _ _ Happly)
    as (Hlength & Hambiguities & _).
  exists result, m'. split; [exact Happly|].
  split; [exact Hlength | exact Hambiguities].
Defined.

Lemma apply_again_applies_nothing_witness :
  ∃ result m',
    applyPendingChanges two_data_types untyped_age_then_Customer
      = Some (result, m') ∧
    applyPendingChanges two_data_types m'
      = Some (mkApplyResult true [] [] [], m').
Proof.
  assert (∃ result m',
            applyPendingChanges two_data_types untyped_age_then_Customer
              = Some (result, m')) as (result & m' & Happly)
    by (do 2 eexists; vm_compute; reflexivity).
  destruct (apply_again_applies_nothing two_data_types _ _ _ Happly)
    as (result' & Hagain & _ & _ & Hresult).
  exists result, m'. split; [exact Happly|].
  rewrite Hagain, (Hresult eq_refl). reflexivity.
Defined.

Lemma apply_sorts_the_pending_queue_witness :
  ∃ result m',
    applyPendingChanges two_data_types untyped_age_then_Customer
      = Some (result, m') ∧
    pendingChanges m' = [] ∧
    (appliedChanges result ++ failedChanges result)%list ≡ₚ [0; 1]%nat.
Proof.
  assert (∃ result m',
            applyPendingChanges two_data_types untyped_age_then_Customer
              = Some (result, m')) as (result & m' & Happly)
    by (do 2 eexists; vm_compute; reflexivity).
  destruct (apply_sorts_the_pending_queue two_data_types
              untyped_age_then_Customer result m'
              eq_refl
              ltac:(apply NoDup_cons; split;
                    [by intros ?%list_elem_of_singleton | apply NoDup_singleton])
              Happly)
    as (Hpending & Hsorted & _).
  exists result, m'. split; [exact Happly|]. split; [exact Hpending | exact Hsorted].
Defined.

Lemma failed_add_or_remove_changes_nothing_witness :
  let change := add_attribute "Person" "age" "EFoo" 0 1 in
  let operation :=
    pending_operation change
      (_createAddAttributeOperation people (ModelChange.details change)) in
  _applyOperation two_data_types operation people
    = Throws "DataType EFoo not found" people ∧
  ((∃ s', _applyOperation two_data_types operation people = Returns () s') ∨
   (∃ message, _applyOperation two_data_types operation people
                 = Throws message people)).
Proof.
  cbv zeta. split; [vm_compute; reflexivity|].
  apply (failed_add_or_remove_changes_nothing two_data_types
           (pending_operation (add_attribute "Person" "age" "EFoo" 0 1)
              (_createAddAttributeOperation people
                 (ModelChange.details (add_attribute "Person" "age" "EFoo" 0 1))))
           people).
  intros metamodelOp [= <-].
  split_and!; try (vm_compute; discriminate); intros _; vm_compute; reflexivity.
Defined.

Lemma a_failed_modification_keeps_the_rename_witness :
  ∃ m2,
    applyPendingChanges two_data_types
      (interpretModelChange (rename_class "Person" "Human" ["Being"])
         (newManager people)).2 =
      Some (mkApplyResult false [] [0%nat]
              [ "Failed to apply operation: Super type Being not found" ], m2) ∧
    className_of people 0 = VStr "Person" ∧
    className_of (loader m2) 0 = VStr "Human".
Proof.
  pose proof (a_failed_modification_keeps_the_rename two_data_types people
                "Person" "Human" "Being" 0
                ltac:(discriminate) ltac:(discriminate) ltac:(discriminate)
                eq_refl eq_refl eq_refl) as Hrename.
  cbv zeta in Hrename.
  destruct Hrename as (_ & _ & m2 & Happly & _ & Hbefore & Hafter).
  exists m2. split; [exact Happly|]. split; [exact Hbefore | exact Hafter].
Defined.

Lemma a_modification_adds_and_removes_nothing_witness :
  let operation :=
    pending_operation Person_to_Human
      (_createModifyClassOperation people (ModelChange.details Person_to_Human)) in
  ∃ s',
    _applyOperation two_data_types operation people
      = Throws "Super type Being not found" s' ∧
    className_of s' 0 = VStr "Human" ∧
    getAllClasses s' = [0; 1]%nat ∧
    length (getClassAttributes s' 0) = 1%nat.
Proof.
  cbv zeta.
  assert (∃ s',
            _applyOperation two_data_types
              (pending_operation Person_to_Human
                 (_createModifyClassOperation people
                    (ModelChange.details Person_to_Human))) people
              = Throws "Super type Being not found" s' ∧
            className_of s' 0 = VStr "Human") as (s' & Hthrows & Hname)
    by (eexists; split; vm_compute; reflexivity).
  destruct (a_modification_adds_and_removes_nothing two_data_types
              (pending_operation Person_to_Human
                 (_createModifyClassOperation people
                    (ModelChange.details Person_to_Human)))
              (_createModifyClassOperation people
                 (ModelChange.details Person_to_Human))
              people s' eq_refl (or_introl eq_refl))
    as [Hclasses Hfeatures].
  - rewrite Hthrows. reflexivity.
  - exists s'. split; [exact Hthrows|]. split; [exact Hname|].
    split; [exact Hclasses | exact (proj1 (Hfeatures 0%nat))].
Defined.

Lemma a_rename_shows_in_every_reference_witness :
  ∃ s',
    _applyModifyClass Address_to_Location people = Returns () s' ∧
    findClassByName s' (VStr "Location") = Some 1%nat ∧
    In (mkReferenceInfo (VStr "address") (VStr "Location") (VBool true)
          (VNum 0) (VNum 1))
       (getClassReferences s' 0).
Proof.
  destruct (a_rename_shows_in_every_reference people Address_to_Location
              "Address" "Location" 1
              eq_refl eq_refl ltac:(discriminate) eq_refl eq_refl eq_refl
              eq_refl eq_refl)
    as (s' & Hrenamed & Hfound & _ & Hshown).
  exists s'. split; [exact Hrenamed|]. split; [exact Hfound|].
  apply (Hshown 0%nat (EReference.mk (VStr "address") 1 (VBool true) (VNum 0) (VNum 1))).
  - right. by left.
  - reflexivity.
Defined.

Lemma removing_the_added_attribute_restores_the_schema_witness :
  ∃ s1,
    _applyAddAttribute two_data_types add_age people = Returns () s1 ∧
    some_attribute (VStr "age") (getClassAttributes s1 0) = true ∧
    _applyRemoveAttribute remove_age s1 = Returns () people.
Proof.
  exact (removing_the_added_attribute_restores_the_schema two_data_types people
           "Person" "age" "EInt" "EInt" 0 add_age remove_age
           eq_refl eq_refl eq_refl eq_refl eq_refl eq_refl eq_refl eq_refl).
Defined.

Lemma removing_the_added_reference_restores_the_schema_witness :
  ∃ s1,
    _applyAddReference add_resident people = Returns () s1 ∧
    some_reference (VStr "resident") (getClassReferences s1 1) = true ∧
    _applyRemoveReference remove_resident s1 = Returns () people.
Proof.
  exact (removing_the_added_reference_restores_the_schema people
           "Address" "Person" "resident" 1 0 add_resident remove_resident
           eq_refl eq_refl eq_refl eq_refl eq_refl eq_refl eq_refl eq_refl).
Defined.


Lemma a_validated_removal_applies_witness :
  ∃ s',
    _applyOperation two_data_types
      (pending_operation remove_name_of_Person
         (_createRemoveAttributeOperation people
            (ModelChange.details remove_name_of_Person))) people
      = Returns () s' ∧
    rootPackage s' = rootPackage people.
Proof.
  exact (proj1 (proj2 (a_validated_removal_applies two_data_types people
                         remove_name_of_Person)) eq_refl).
Defined.

Lemma nothing_applies_before_a_metamodel_is_loaded_witness :
  let operation :=
    pending_operation add_Customer
      (_createAddClassOperation unloaded (ModelChange.details add_Customer)) in
  Operation.ambiguous operation = false ∧
  ∃ message, _applyOperation two_data_types operation unloaded
               = Throws message unloaded.
Proof.
  split; [reflexivity|].
  exact (nothing_applies_before_a_metamodel_is_loaded two_data_types _ unloaded
           eq_refl).
Defined.

Lemma an_unknown_kind_fails_even_when_resolved_witness :
  ∃ m2 m3,
    resolveAmbiguity 0 ∅
      (interpretModelChange rename_class_change (newManager people)).2
      = inr (0%nat, m2) ∧
    applyPendingChanges two_data_types m2 =
      Some (mkApplyResult false [] [0%nat]
              [ "Failed to apply operation: Cannot read properties of null (reading 'action')" ],
            m3) ∧
    loader m3 = people.
Proof.
  pose proof (an_unknown_kind_fails_even_when_resolved two_data_types people
                rename_class_change ∅ eq_refl) as Hunknown.
  cbv zeta in Hunknown.
  destruct Hunknown as (_ & m2 & m3 & Hresolved & _ & _ & Happly & Hloader & _).
  exists m2, m3. split; [exact Hresolved|]. split; [exact Happly | exact Hloader].
Defined.

Lemma a_resolved_name_is_the_one_created_witness :
  ∃ m2 m3,
    resolveAmbiguity 0 name_Customer
      (interpretModelChange (add_class "Person") (newManager people)).2
      = inr (0%nat, m2) ∧
    applyPendingChanges two_data_types m2
      = Some (mkApplyResult true [0%nat] [] [], m3) ∧
    findClassByName (loader m3) (VStr "Customer") = Some 2%nat ∧
    findClassByName (loader m3) (VStr "Person") = Some 0%nat.
Proof.
  pose proof (a_resolved_name_is_the_one_created two_data_types people
                "Person" "Customer" 0 ltac:(by eexists) people_classes_on_heap
                ltac:(discriminate) eq_refl eq_refl) as Hresolved.
  cbv zeta in Hresolved.
  destruct Hresolved as (_ & _ & m2 & m3 & Hresolve & Happly & Hnew & Hold).
  exists m2, m3. split; [exact Hresolve|]. split; [exact Happly|].
  split; [exact Hnew | exact Hold].
Defined.

Lemma the_second_of_two_equal_additions_fails_witness :
  ∃ m3,
    applyPendingChanges two_data_types
      (interpret_all [add_class "Customer"; add_class "Customer"]
         (newManager people)) =
      Some (mkApplyResult false [0%nat] [1%nat]
              [ "Failed to apply operation: Class Customer already exists" ], m3) ∧
    findClassByName (loader m3) (VStr "Customer") = Some 2%nat.
Proof.
  pose proof (the_second_of_two_equal_additions_fails two_data_types people
                "Customer" ltac:(by eexists) people_classes_on_heap
                ltac:(discriminate) eq_refl) as Htwice.
  cbv zeta in Htwice.
  destruct Htwice as (_ & _ & m3 & Happly & Hfound).
  exists m3. split; [exact Happly | exact Hfound].
Defined.

Lemma a_batch_can_remove_the_target_of_a_reference_it_adds_witness :
  ∃ m3,
    applyPendingChanges two_data_types
      (interpret_all [ add_reference "Address" "Person" "resident" false 0 1;
                       remove_class_named "Person" ] (newManager people))
      = Some (mkApplyResult true [0%nat; 1%nat] [] [], m3) ∧
    ¬ In 0%nat (getAllClasses (loader m3)) ∧
    In (mkReferenceInfo (VStr "resident") (VStr "Person") (VBool false)
          (VNum 0) (VNum 1))
       (getClassReferences (loader m3) 1).
Proof.
  pose proof (a_batch_can_remove_the_target_of_a_reference_it_adds two_data_types
                people "Address" "Person" "resident" 1 0
                ltac:(discriminate) ltac:(discriminate) ltac:(discriminate)
                ltac:(apply NoDup_cons; split;
                      [by intros ?%list_elem_of_singleton | apply NoDup_singleton])
                eq_refl eq_refl eq_refl eq_refl) as Hbatch.
  cbv zeta in Hbatch.
  destruct Hbatch as (_ & _ & m3 & Happly & Hgone & Hkept).
  exists m3. split; [exact Happly|]. split; [exact Hgone | exact Hkept].
Defined.

Lemma an_applied_reference_guards_its_target_witness :
  ∃ s1 names,
    _applyAddReference add_resident people = Returns () s1 ∧
    In (VStr "Address") names ∧
    _createRemoveClassOperation s1 remove_Person !!! "ambiguous" = VBool true ∧
    _createRemoveClassOperation s1 remove_Person !!! "ambiguityReason"
      = VStr ("Class Person is referenced by: " ++ join ", " names).
Proof.
  exact (an_applied_reference_guards_its_target people "Address" "Person" 1 0
           add_resident remove_Person eq_refl eq_refl eq_refl ltac:(discriminate)
           eq_refl eq_refl).
Defined.

Lemma an_unknown_data_type_is_found_only_at_apply_witness :
  ∃ m2,
    applyPendingChanges two_data_types
      (interpretModelChange (add_attribute "Person" "age" "EFoo" 0 1)
         (newManager people)).2 =
      Some (mkApplyResult false [] [0%nat]
              [ "Failed to apply operation: DataType EFoo not found" ], m2) ∧
    loader m2 = people.
Proof.
  pose proof (an_unknown_data_type_is_found_only_at_apply two_data_types people
                "Person" "age" "EFoo" 0 1 0
                ltac:(discriminate) ltac:(discriminate) ltac:(discriminate)
                eq_refl eq_refl eq_refl) as Hunknown.
  cbv zeta in Hunknown.
  destruct Hunknown as (_ & _ & m2 & Happly & Hloader & _).
  exists m2. split; [exact Happly | exact Hloader].
Defined.
